(* ===== verification/_CoqProject ===== *)
-Q . S2P
Prelude.v
Config.v
Distributor.v
Stats.v
Socket.v
Worker.v
System.v
Main.v
Invariants.v
Scenarios.v
Lifecycle.v
Shutdown.v
