(* ===== verification/Prelude.v ===== *)
(** * CamJammer: a verification development of [src/camjammer.py]

    ** The program

    [src/camjammer.py] is a concurrent traffic generator.  [main] parses
    the command line (argparse), checks the payload size (1..65535) and
    the thread budget (positive) and builds an [AttackConfig]; a
    [PacketSender] then runs [start]:

    - it sets [self.running], records [self.stats['start_time']];
    - for every port it starts [min(5, max_threads // len(ports))] daemon
      threads running [send_tcp_packets(port)], then as many running
      [send_udp_packets(port)], then one [print_stats] thread;
    - it sleeps for the duration and calls [stop], or, without a
      duration, polls [self.running] until a [KeyboardInterrupt] makes it
      call [stop]; [stop] clears the flag, reads the clock and prints a
      summary of six lines, each reading [self.stats] afresh.

    The senders share one [self.stats] dictionary, updated with
    [self.stats[key] += 1], and poll [self.running] once per iteration;
    the TCP sender opens, connects, sends and closes a fresh socket per
    payload, the UDP sender reuses one socket and closes it in a
    [finally].  Nothing joins the threads.

    ** The library (files in dependency order)

    - [Prelude] (this file): the [cj_scope] notations, the hint databases
      [cj] and [cj_simpl], the tactics [cj_lia] and [case_if], sums over
      lists ([sumZ_with]) with their update lemmas, and the invariance
      lemmas [rtc_preserved] for step relations.
    - [Config] (Module [Config]): the [AttackConfig] dataclass, the
      argparse defaults and [validate], the checks of [main] with their
      exit status and messages.
    - [Distributor] (Module [Distributor]): [threads_per_port] and
      [launch_plan], the list of thread targets the two loops of [start]
      create, in order.
    - [Stats] (Module [Stats]): the [Stats] record of [self.stats], the
      [CounterStore] interface (a type class with its laws) that the
      workers are proved against, the two halves [load] and [store] of
      [+=], the summary of [stop] ([stop_summary], with rational
      seconds), its six prints one line at a time ([print_line],
      [print_from]) and the console [Output].
    - [Socket] (Module [Socket]): [create_socket] and the socket calls
      over an explicit socket table indexed by file descriptor; a
      blocking call takes the network's delay, cut by the socket's
      timeout ([call_time]: 5 s for TCP sockets, none for UDP).
    - [Worker] (Module [Worker]): the three thread bodies as program
      counters ([TcpPc], [UdpPc], [RepPc]) and one step function each
      ([tcp_step], [udp_step], [stats_step]); [thread_step] runs one
      atomic step of a thread on the [Shared] state (clock, running flag,
      stats, socket table, wire, console).  A [Section] fixes the
      read-only configuration.  The per-step classification lemmas
      ([thread_step_field], [thread_step_net], [thread_step_sock],
      [thread_step_out]) are the interface the System proofs use.
    - [System] (Module [System]): the main thread's program ([MainPc],
      [main_step]) for [start] and [stop] ([stop] as the positions
      [M_Stop], [M_Elapsed], [M_Print] (one per print) and [M_Return]),
      the interrupt ([interrupt],
      [in_try]), the interleaving relation [step] (a thread step, a main
      step, an interrupt, or time passing), its executable twin
      [exec]/[run], and what [start] does before it waits.
    - [Main] (Module [Main]): [main] as the composition the code makes:
      [validate], then [PacketSender(config)] ([init_world]) and
      [sender.start()] ([run] under a schedule).
    - [Invariants] (Module [Invariants]): the invariants of every
      reachable state (counters, wire, sockets, the main thread, the
      summary), their preservation by [step], and the theorems on every
      interleaving.
    - [Scenarios] (Module [Scenarios]): the specification's scenario
      ([demo_cfg]) and concrete interleavings run by the kernel: the
      counterexamples and the witnesses.
    - [Lifecycle] (Module [Lifecycle]): the specification's state
      machine [Idle -> Running -> Stopped] with its summary reports
      ([lc_step]), the abstraction [abs] of a world (the phase read off
      the start time and [self.running], the number of summaries
      begun), and the refinement theorem relating the two.
    - [Shutdown] (Module [Shutdown]): the scheduler [drain] that runs one
      thread alone, and the proof that seven rounds (its fuel) bring any
      thread to its return once the flag is false, with the time that
      takes.

    ** How the model corresponds to the code

    One step is one action of the interpreter on shared state: a read of
    [self.running], one socket call, the load or the store half of a
    [+=], one print.  Thread-local work ([thread_stats], building the
    payload) is folded into the neighbouring step, which no other thread
    can observe.  Each system call's success is chosen by the environment
    ([Env]); Python's own checks are kept: a port outside 0..65535 always
    raises, [sendall] may put a prefix on the wire before raising, and
    [time.sleep] of a negative duration raises [ValueError].  Time is in
    integer milliseconds (every delay of the program is a whole number of
    them); [time.sleep] sets a wake-up time and the thread waits for the
    clock.  A blocking socket call ([connect], [sendall], [sendto]) is
    given the network's delay by the environment ([env_delay]); the
    thread is asleep for that long, or for the socket's timeout when the
    delay reaches it, in which case the call raises [socket.timeout].  [if self.config.duration] is false for [None] and for [0].
    CPython frees a socket object, closing it, when its last reference
    goes ([sock_release]): the TCP sender's local [sock] is part of its
    program counter, released when [sock] is assigned again and when the
    thread returns.
    A [KeyboardInterrupt] can reach the main thread at any of its
    positions ([interrupt]), between any two prints of [stop] included:
    inside the [try] of [start] ([in_try]: the wait, the polling loop
    and the whole of the duration path's [stop]) the except clause
    prints its notice and runs [stop] again (at [M_Stop true]); anywhere
    else it is uncaught and ends the main thread ([M_Abort]).

    ** What is proved (claim ids as in the manifest)

    - Counters under concurrency: the counters never over-count and are
      never negative, on every interleaving ([counters_never_overcount],
      an invariant relating each key to the thread-local counts and to
      the payloads on the wire); the unsynchronised [+=] loses updates
      ([lost_update]) and can make a counter go backwards
      ([counter_goes_backwards]), shown by interleavings the kernel runs;
      under mutual exclusion of the two halves the count is exact
      ([exclusive_increments_exact]), the property the specification
      asks of the counters.
    - End to end: a rejected command line exits with status 1 and
      starts nothing; an accepted one starts the plan, at most [2 * T + 1]
      threads for the budget [T] ([main_end_to_end]).
    - Lifecycle: [start] spawns exactly the plan ([start_spawns_plan]);
      the running flag follows the main thread and the start time is set
      before [stop] needs it ([running_follows_main]); an uninterrupted
      run with a positive duration prints its summary only after that
      duration ([duration_respected]); no duration or [-d 0] never stops
      on its own ([unbounded_without_duration]); a negative duration
      crashes after spawning ([negative_duration_crashes]); [stop]
      neither joins nor waits ([summary_without_join]); at most two
      summaries are begun, and two only after a caught interrupt
      ([summary_at_most_twice]), and an interrupt during the duration
      path's prints does produce two ([summary_printed_twice]); an
      interrupt outside the [try] ends the main thread where it was,
      with nothing more printed and no summary at all if it came during
      start-up ([interrupt_outside_try_aborts]); with a duration the main
      thread stops the run on time without waiting for any sender and
      prints the summary of [stop_summary] ([timed_run_stops]); once the
      flag is false every thread returns within seven of its steps, a
      TCP sender within 10.1 s (two calls cut by the 5 s timeout and the
      backoff), the reporter within 1 s, a UDP sender within its current
      call, one more [sendto] bounded by the network's delay [D], and the
      backoff ([threads_exit_promptly]).
    - Refinement: every step of the program is a stutter or a
      transition of the specification's lifecycle machine, whose
      [Stopped] state reports at most two summaries
      ([lifecycle_refinement]); hence [Stopped] is terminal
      ([stopped_is_terminal]).
    - Sockets: sockets in use are open and typed, no socket is referred
      to by two threads, every open socket is some thread's [sock]
      ([socket_ownership]), so open sockets never outnumber threads
      ([open_sockets_bounded]); the TCP error path never closes its
      socket, which stays open through the backoff until the thread
      returns or the next assignment of [sock] releases it
      ([tcp_error_keeps_socket]).
    - Workers: one successful iteration of each sender on a network
      that answers at once, from the loop test back to it, with its
      socket calls, its payload on the wire and its counts
      ([tcp_iteration_success], [udp_iteration_success]);
      the asymmetric handling of a failed [create_socket]
      ([create_failure_asymmetry]), out-of-range ports
      ([bad_port_always_errors]), termination of every thread within
      seven of its own steps once the flag is false
      ([exit_measure_decreases]), payload length and byte range
      ([random_data_spec]); the reporter always finds the start time set
      and prints the live counters ([reporter_prints_status]).
    - Distribution and configuration: the per-port share and its bounds,
      the length, order and multiplicities of the plan, the empty plan
      for small budgets, the budget overshoot, the summary arithmetic
      and the validation of [main].

    Every theorem with a hypothesis has a witness that applies it at a
    concrete input (the specification's scenario: port 80, budget 2,
    16-byte payloads, duration 1 s, or the default command line).  The
    loops are modelled by the step relation and runs are finite lists of
    scheduler choices, so no definition needs fuel except the scheduler
    [drain]; its fuel of seven rounds is proved enough
    ([threads_exit_promptly]) from the measure [exit_measure], which
    every step decreases once the flag is false and which is at most
    seven (the longest way out is a TCP iteration from the creation of
    its socket).  The clock bound comes from [exit_sleep D], the time
    still possibly spent asleep or blocked on the way out when every
    network delay is at most [D]: 5 s per TCP call (the timeout), [D]
    per [sendto], 100 ms per backoff; [D] is a hypothesis because a UDP
    socket has no timeout.

    ** Not modelled

    argparse itself (represented by the [Args] record), the text of the
    prints (their values are modelled as [Output]), the payload's random
    generator (its bits are an input of the step), network delivery, and
    the interpreter's shutdown: daemon threads keep stepping after the
    main thread's [M_Exit] or [M_Abort] in the model, which only adds
    behaviours.  The interpreter's traceback on an uncaught exception
    is not an [Output]; a print is one step, although CPython could
    deliver an interrupt inside one [print] call. *)

From stdpp Require Import base list relations.
From Stdlib Require Import ZArith Lia.

(** ** Notation scope of the development *)

Declare Scope cj_scope.
Delimit Scope cj_scope with cj.
Open Scope cj_scope.

(** [Σ[ f | l ]] sums the integer measure [f] over the list [l]. *)
Fixpoint sumZ_with {A} (f : A -> Z) (l : list A) : Z :=
match l with
| [] => 0%Z
| x :: l' => (f x + sumZ_with f l')%Z
end.

Notation "Σ[ f | l ]" := (sumZ_with f l) (at level 0, f at level 200) : cj_scope.

(** [#[ P | l ]] counts the elements of [l] satisfying the boolean test [P]. *)
Notation "#[ P | l ]" := (length (filter P l)) (at level 0, P at level 200) : cj_scope.

(** ** Hint databases *)

Create HintDb cj discriminated.
Create Rewrite HintDb cj_simpl.

(** ** Generic lemmas on sums over lists *)

Section SumZ.
Context {A : Type}.
Implicit Types (f g : A -> Z) (l : list A).

Lemma sumZ_with_app f l1 l2 :
  sumZ_with f (l1 ++ l2) = (sumZ_with f l1 + sumZ_with f l2)%Z.
Proof. induction l1; simpl; lia. Qed.

Lemma sumZ_with_nonneg f l :
  (forall x, x ∈ l -> 0 <= f x)%Z -> (0 <= sumZ_with f l)%Z.
Proof.
  induction l as [|x l IH]; simpl; intros H; [lia|].
  pose proof (H x ltac:(left)). assert (0 <= sumZ_with f l)%Z by (apply IH; intros; apply H; by right).
  lia.
Qed.

Lemma sumZ_with_ext f g l :
  (forall x, x ∈ l -> f x = g x) -> sumZ_with f l = sumZ_with g l.
Proof.
  induction l as [|x l IH]; simpl; intros H; [done|].
  rewrite (H x ltac:(left)), IH; [done|]. intros; apply H; by right.
Qed.

(** Updating position [i] of the list changes the sum by the
    difference of the measures of the new and the old element. *)
Lemma sumZ_with_insert f l i x y :
  l !! i = Some y ->
  sumZ_with f (<[i:=x]> l) = (sumZ_with f l - f y + f x)%Z.
Proof.
  revert i. induction l as [|z l IH]; intros [|i] Hi; simplify_eq/=; [lia|].
  rewrite (IH i Hi). lia.
Qed.

Lemma sumZ_with_lookup_le f l i y :
  (forall x, x ∈ l -> 0 <= f x)%Z -> l !! i = Some y ->
  (f y <= sumZ_with f l)%Z.
Proof.
  revert i. induction l as [|z l IH]; intros [|i] Hnn Hi; simplify_eq/=.
  - pose proof (sumZ_with_nonneg f l (λ x Hx, Hnn x (list_elem_of_further x y l Hx))). lia.
  - pose proof (Hnn z ltac:(left)). pose proof (IH i (λ x Hx, Hnn x (list_elem_of_further x z l Hx)) Hi). lia.
Qed.
(** Two distinct positions both count in the sum. *)
Lemma sumZ_with_two f l i j x y :
    (forall z, z ∈ l -> 0 <= f z)%Z -> i <> j -> l !! i = Some x -> l !! j = Some y ->
    (f x + f y <= sumZ_with f l)%Z.
  Proof.
    revert i j. induction l as [|z l IH]; intros [|i] [|j] Hnn Hij Hi Hj; simplify_eq/=.
    - pose proof (sumZ_with_lookup_le f l j y (λ w Hw, Hnn w (list_elem_of_further w x l Hw)) Hj). lia.
    - pose proof (sumZ_with_lookup_le f l i x (λ w Hw, Hnn w (list_elem_of_further w y l Hw)) Hi). lia.
    - pose proof (Hnn z ltac:(left)).
      pose proof (IH i j (λ w Hw, Hnn w (list_elem_of_further w z l Hw)) ltac:(congruence) Hi Hj). lia.
  Qed.
End SumZ.

#[export] Hint Rewrite @sumZ_with_app : cj_simpl.

(** ** Generic lemmas on counting with [filter] *)

Lemma filter_length_insert {A} (P : A -> Prop) `{!∀ x, Decision (P x)} (l : list A) i x y :
l !! i = Some y ->
Z.of_nat (length (filter P (<[i:=x]> l))) =
(Z.of_nat (length (filter P l)) - (if decide (P y) then 1 else 0)
   + (if decide (P x) then 1 else 0))%Z.
Proof.
revert i. induction l as [|z l IH]; intros [|i] Hi; simplify_eq/=;
  rewrite ?filter_cons.
- repeat case_decide; simpl; lia.
- specialize (IH i Hi). repeat case_decide; simpl; lia.
Qed.

(** ** Invariants of a step relation *)

(** A predicate preserved by every step holds of every state reachable
    from a state that satisfies it. *)
Lemma rtc_preserved {A} (R : relation A) (P : A -> Prop) :
  (forall x y, R x y -> P x -> P y) -> forall x y, rtc R x y -> P x -> P y.
Proof. intros Hstep x y Hr. induction Hr; eauto. Qed.

(** The same for a binary predicate relating the first and last states. *)
Lemma rtc_preserved2 {A} (R : relation A) (P : A -> A -> Prop) :
  (forall x, P x x) -> (forall x y z, P x y -> R y z -> P x z) ->
  forall x y, rtc R x y -> P x y.
Proof.
  intros Hrefl Hstep x. apply (rtc_ind_r (P x) x); eauto.
Qed.

(** ** Tactics of the development *)

(** [cj_lia] unfolds the boolean comparisons of the models into
  propositions and calls [lia]. *)
Ltac cj_lia :=
repeat match goal with
| H : (_ <=? _)%Z = true |- _ => apply Z.leb_le in H
| H : (_ <=? _)%Z = false |- _ => apply Z.leb_gt in H
| H : (_ <? _)%Z = true |- _ => apply Z.ltb_lt in H
| H : (_ <? _)%Z = false |- _ => apply Z.ltb_ge in H
| H : (_ =? _)%Z = true |- _ => apply Z.eqb_eq in H
| H : (_ =? _)%Z = false |- _ => apply Z.eqb_neq in H
end; lia.

(** [case_if] splits on the first boolean [if] of the goal and names the
  test's equation. *)
Ltac case_if :=
match goal with
| |- context [if ?b then _ else _] => let E := fresh "E" in destruct b eqn:E
end.
