(* ===== verification/Config.v ===== *)
(** * Config: the run configuration and the command-line validation

  Models the dataclass [AttackConfig] (src/camjammer.py lines 10-17), the
  defaults argparse gives the command line (lines 176-185), and the
  validation of [main] (lines 189-205) which either exits with status 1
  and a message or builds the configuration handed to [PacketSender].
  Parsing the command line itself is argparse's and is not modelled: an
  [Args] record stands for the namespace it returns. *)

From stdpp Require Import base list strings decidable.
From Stdlib Require Import ZArith Lia String.
From S2P Require Import Prelude.

Open Scope Z_scope.


Module Config.

(** [@dataclass class AttackConfig]: Python integers are unbounded,
    hence [Z]; [duration: Optional[int]] is an [option Z]. *)
Record AttackConfig := mkAttackConfig {
  target_ip : string;
  ports : list Z;
  packet_size : Z;
  max_threads : Z;
  duration : option Z;
  verbose : bool
}.

(** The dataclass field defaults: [packet_size = 1024],
    [max_threads = 50], [duration = None], [verbose = False]. *)
Definition AttackConfig_defaults (target : string) (ps : list Z) : AttackConfig :=
  {| target_ip := target; ports := ps; packet_size := 1024;
     max_threads := 50; duration := None; verbose := false |}.

(** The argparse namespace [args] of [main]. *)
Record Args := mkArgs {
  a_target_ip : string;
  a_ports : list Z;
  a_size : Z;
  a_threads : Z;
  a_duration : option Z;
  a_verbose : bool
}.

(** The defaults of [parser.add_argument]: ports [80 554], size 1024,
    threads 20, no duration, not verbose. *)
Definition default_args (target : string) : Args :=
  {| a_target_ip := target; a_ports := [80; 554]; a_size := 1024;
     a_threads := 20; a_duration := None; a_verbose := false |}.

(** What [main] does with the namespace: [sys.exit(code)] after
    printing a message, or run a [PacketSender] on a configuration. *)
Inductive MainResult :=
| Exit (code : Z) (msg : string)
| Run (c : AttackConfig).

Definition size_error_msg := "Error: Packet size must be between 1 and 65535 bytes"%string.
Definition threads_error_msg := "Error: Thread count must be positive"%string.

(** [config = AttackConfig(target_ip=args.target_ip, ...)] *)
Definition config_of_args (a : Args) : AttackConfig :=
  {| target_ip := a_target_ip a; ports := a_ports a; packet_size := a_size a;
     max_threads := a_threads a; duration := a_duration a;
     verbose := a_verbose a |}.

(** Lines 189-205: the size test first (Python's [or] short-circuits),
    then the thread count, then the construction. *)
Definition validate (a : Args) : MainResult :=
  if (a_size a <=? 0) || (65535 <? a_size a) then Exit 1 size_error_msg
  else if a_threads a <=? 0 then Exit 1 threads_error_msg
  else Run (config_of_args a).

(** The configurations [main] can hand to the core. *)
Definition valid_config (c : AttackConfig) : Prop :=
  1 <= packet_size c <= 65535 /\ 1 <= max_threads c.

#[export] Instance valid_config_dec c : Decision (valid_config c).
Proof. unfold valid_config. solve_decision. Defined.

Definition valid_args (a : Args) : Prop :=
  1 <= a_size a <= 65535 /\ 1 <= a_threads a.

#[export] Instance valid_args_dec a : Decision (valid_args a).
Proof. unfold valid_args. solve_decision. Defined.

(** ** Lemmas *)

Lemma config_of_args_valid a : valid_args a -> valid_config (config_of_args a).
Proof. done. Qed.

(** [validate] computes: its result is decided by the two tests. *)
Lemma validate_cases a :
  (validate a = Run (config_of_args a) /\ valid_args a)
  \/ (validate a = Exit 1 size_error_msg /\ ~ (1 <= a_size a <= 65535))
  \/ (validate a = Exit 1 threads_error_msg /\ 1 <= a_size a <= 65535 /\ a_threads a <= 0).
Proof.
  unfold validate, valid_args.
  destruct (a_size a <=? 0) eqn:E1; simpl;
    [right; left; split; [done|cj_lia]|].
  destruct (65535 <? a_size a) eqn:E2; simpl;
    [right; left; split; [done|cj_lia]|].
  destruct (a_threads a <=? 0) eqn:E3;
    [right; right; repeat split; cj_lia | left; split; [done|cj_lia]].
Qed.

(** ** Properties *)

(** C30: [main] only ever hands the core a configuration whose packet
    size lies in 1..65535 and whose thread budget is positive, and that
    configuration carries the command line's values unchanged. *)
Theorem validate_run_valid (a : Args) (c : AttackConfig) :
  validate a = Run c -> valid_config c /\ c = config_of_args a.
Proof.
  intros H. destruct (validate_cases a) as [[E Hv]|[[E _]|[E _]]];
    rewrite E in H; simplify_eq; auto using config_of_args_valid.
Qed.

(** C31: the validation rejects exactly the bad namespaces, with exit
    status 1, and the size check wins over the thread check: a size
    outside 1..65535 gives the size message, a good size with a
    non-positive thread count gives the thread message. *)
Theorem validate_rejects (a : Args) :
  (~ (1 <= a_size a <= 65535) -> validate a = Exit 1 size_error_msg) /\
  (1 <= a_size a <= 65535 -> a_threads a <= 0 -> validate a = Exit 1 threads_error_msg) /\
  (valid_args a -> validate a = Run (config_of_args a)).
Proof.
  unfold valid_args.
  destruct (validate_cases a) as [[-> Hv]|[[-> Hs]|[-> [Hs Ht]]]];
    repeat split; intros; unfold valid_args in *; first [done | exfalso; lia].
Qed.

(** ** Witnesses *)

Definition sample_args : Args := default_args "192.0.2.1"%string.

(** The configuration [main] builds from the default command line. *)
Definition sample_config : AttackConfig := config_of_args sample_args.

Lemma validate_run_valid_witness :
  validate sample_args = Run (config_of_args sample_args) /\
  valid_config (config_of_args sample_args).
Proof.
  split; [reflexivity|].
  exact (proj1 (validate_run_valid sample_args (config_of_args sample_args) eq_refl)).
Defined.

Lemma validate_rejects_witness :
  validate {| a_target_ip := "192.0.2.1"; a_ports := [80]; a_size := 70000;
              a_threads := 0; a_duration := None; a_verbose := false |}
    = Exit 1 size_error_msg.
Proof. apply (proj1 (validate_rejects _)). simpl. lia. Defined.

End Config.
