(* ===== verification/Distributor.v ===== *)
(** * Distributor: how many sender threads [start] launches

  Models the two spawning loops of [PacketSender.start]
  (src/camjammer.py lines 126-140): for every port, in the order of
  [config.ports], [min(5, max_threads // len(ports))] TCP sender threads,
  then the same for UDP.  The plan is the list of thread targets in the
  order the loops call [thread.start()]; the System component spawns
  them one by one. *)

From stdpp Require Import base list decidable strings.
From Stdlib Require Import ZArith Lia.
From S2P Require Import Prelude Config.

Open Scope Z_scope.
Import Config.

Module Distributor.

(** The two targets of [threading.Thread]: [send_tcp_packets] and
    [send_udp_packets], each with its [args=(port,)]. *)
Inductive Worker :=
| TcpWorker (port : Z)
| UdpWorker (port : Z).

#[export] Instance Worker_eq_dec : EqDecision Worker.
Proof. solve_decision. Defined.

Definition is_tcp (w : Worker) : bool :=
  match w with TcpWorker _ => true | UdpWorker _ => false end.

Definition worker_port (w : Worker) : Z :=
  match w with TcpWorker p | UdpWorker p => p end.

(** [min(5, self.config.max_threads // len(self.config.ports))]:
    Python's [//] on integers is floor division, which is [Z.div]. *)
Definition threads_per_port (c : AttackConfig) : Z :=
  Z.min 5 (max_threads c / Z.of_nat (length (ports c))).

(** [for port in ports: for _ in range(n): Thread(target=mk, args=(port,))].
    [range(n)] is empty when [n <= 0], which is [Z.to_nat n].  The
    division is evaluated inside the port loop, so an empty port list
    spawns nothing and never divides by zero. *)
Definition spawn_loop (mk : Z -> Worker) (c : AttackConfig) : list Worker :=
  flat_map (fun port => repeat (mk port) (Z.to_nat (threads_per_port c))) (ports c).

(** The TCP loop (lines 127-132) runs before the UDP loop (135-140). *)
Definition launch_plan (c : AttackConfig) : list Worker :=
  spawn_loop TcpWorker c ++ spawn_loop UdpWorker c.

(** ** Lemmas *)

Lemma length_spawn_loop mk c :
  length (spawn_loop mk c) = (length (ports c) * Z.to_nat (threads_per_port c))%nat.
Proof.
  unfold spawn_loop. induction (ports c) as [|p ps IH]; simpl; [done|].
  rewrite length_app, repeat_length, IH. lia.
Qed.

Lemma count_spawn_loop_same (mk : Z -> Worker) (Hmk : forall p q, mk p = mk q -> p = q) c p :
  count_occ Worker_eq_dec (spawn_loop mk c) (mk p)
  = (Z.to_nat (threads_per_port c) * count_occ Z.eq_dec (ports c) p)%nat.
Proof.
  unfold spawn_loop. induction (ports c) as [|q ps IH]; simpl; [lia|].
  rewrite count_occ_app, IH. destruct (Z.eq_dec q p) as [->|Hne].
  - rewrite count_occ_repeat_eq; [lia|done].
  - rewrite count_occ_repeat_neq; [lia|]. intros Heq. apply Hne. by apply Hmk.
Qed.

Lemma count_spawn_loop_other (mk : Z -> Worker) c w :
  (forall p, mk p <> w) -> count_occ Worker_eq_dec (spawn_loop mk c) w = 0%nat.
Proof.
  intros Hw. apply count_occ_not_In. unfold spawn_loop.
  rewrite in_flat_map. intros (p & _ & Hin). apply repeat_spec in Hin. by apply (Hw p).
Qed.

Lemma spawn_loop_In mk c w :
  In w (spawn_loop mk c) -> exists p, w = mk p /\ In p (ports c).
Proof.
  unfold spawn_loop. rewrite in_flat_map. intros (p & Hp & Hin).
  apply repeat_spec in Hin. eauto.
Qed.

Lemma threads_per_port_nonneg c : 0 <= max_threads c -> 0 <= threads_per_port c.
Proof.
  intros H. unfold threads_per_port.
  pose proof (Z.div_pos (max_threads c) (Z.of_nat (length (ports c)))).
  destruct (length (ports c)) eqn:E; simpl.
  - rewrite Z.div_0_r. lia.
  - specialize (H0 H ltac:(lia)). lia.
Qed.

Lemma threads_per_port_le_div c :
  threads_per_port c <= max_threads c / Z.of_nat (length (ports c)).
Proof. unfold threads_per_port. lia. Qed.

#[export] Hint Resolve threads_per_port_nonneg : cj.

Lemma threads_per_port_zero c :
  0 <= max_threads c < Z.of_nat (length (ports c)) -> threads_per_port c = 0.
Proof. intros H. unfold threads_per_port. rewrite Z.div_small; lia. Qed.

Lemma spawn_loop_zero mk c : threads_per_port c = 0 -> spawn_loop mk c = [].
Proof.
  intros H. unfold spawn_loop. rewrite H. simpl.
  induction (ports c); simpl; auto.
Qed.

(** The plan has at most twice the budget: each loop spawns at most
    [len(ports) * (T // len(ports)) <= T] threads. *)
Lemma plan_within_budget c :
  1 <= max_threads c -> Z.of_nat (length (launch_plan c)) <= 2 * max_threads c.
Proof.
  intros Ht. unfold launch_plan. rewrite length_app, !length_spawn_loop.
  pose proof (threads_per_port_le_div c). pose proof (threads_per_port_nonneg c ltac:(lia)).
  destruct (length (ports c)) as [|n] eqn:E; [lia|].
  pose proof (Z.mul_div_le (max_threads c) (Z.of_nat (S n)) ltac:(lia)).
  rewrite Nat2Z.inj_add, !Nat2Z.inj_mul, Z2Nat.id by lia. nia.
Qed.

(** ** Properties *)

(** C6: [start] launches exactly [2 * len(ports) * min(5, T // len(ports))]
    sender threads: the same number per port in each of the two loops. *)
Theorem launch_plan_length (c : AttackConfig) :
  length (launch_plan c) = (2 * length (ports c) * Z.to_nat (threads_per_port c))%nat.
Proof. unfold launch_plan. rewrite length_app, !length_spawn_loop. lia. Qed.

(** C27: a port listed [m] times receives [m] times the per-port share
    of TCP threads and of UDP threads: duplicated ports are not
    merged but multiply the load on that port. *)
Theorem launch_plan_count (c : AttackConfig) (p : Z) :
  count_occ Worker_eq_dec (launch_plan c) (TcpWorker p)
    = (Z.to_nat (threads_per_port c) * count_occ Z.eq_dec (ports c) p)%nat /\
  count_occ Worker_eq_dec (launch_plan c) (UdpWorker p)
    = (Z.to_nat (threads_per_port c) * count_occ Z.eq_dec (ports c) p)%nat.
Proof.
  unfold launch_plan. rewrite !count_occ_app.
  rewrite (count_spawn_loop_same TcpWorker), (count_spawn_loop_other UdpWorker),
    (count_spawn_loop_other TcpWorker), (count_spawn_loop_same UdpWorker);
    by (lia || congruence || (intros ??; congruence)).
Qed.

(** C36: all TCP sender threads are started before any UDP sender
    thread: no UDP target precedes a TCP target in the plan. *)
Theorem launch_plan_tcp_first (c : AttackConfig) (i j : nat) (p q : Z) :
  (i < j)%nat -> launch_plan c !! i = Some (UdpWorker p) ->
  launch_plan c !! j <> Some (TcpWorker q).
Proof.
  unfold launch_plan. intros Hij Hi Hj.
  assert (Hlt : forall k w, spawn_loop TcpWorker c !! k = Some w -> is_tcp w = true).
  { intros k w Hk. apply list_elem_of_lookup_2, list_elem_of_In, spawn_loop_In in Hk.
    by destruct Hk as (? & -> & _). }
  assert (Hu : forall k w, spawn_loop UdpWorker c !! k = Some w -> is_tcp w = false).
  { intros k w Hk. apply list_elem_of_lookup_2, list_elem_of_In, spawn_loop_In in Hk.
    by destruct Hk as (? & -> & _). }
  apply lookup_app_Some in Hi as [Hi|[Hlen Hi]]; [by apply Hlt in Hi|].
  apply lookup_app_Some in Hj as [Hj|[Hlen' Hj]].
  - apply lookup_lt_Some in Hj. lia.
  - by apply Hu in Hj.
Qed.

(** C28: when the budget is smaller than the number of ports, integer
    division leaves every pair with zero threads and [start] launches no
    sender at all; this is a reachable configuration, not an error. *)
Theorem launch_plan_empty_small_budget (c : AttackConfig) :
  valid_config c -> max_threads c < Z.of_nat (length (ports c)) -> launch_plan c = [].
Proof.
  intros [_ Ht] Hlt. unfold launch_plan.
  rewrite !spawn_loop_zero; [done| |]; apply threads_per_port_zero; lia.
Qed.

(** C37: the per-port share saturates at 5: with a non-empty port list
    any budget of at least [5 * len(ports)] gives 5 threads per pair, and the share is monotone
    in the budget. *)
Theorem threads_per_port_saturates (c c' : AttackConfig) :
  ports c' = ports c -> 0 <= max_threads c <= max_threads c' ->
  threads_per_port c <= threads_per_port c' /\
  (ports c <> [] -> 5 * Z.of_nat (length (ports c)) <= max_threads c ->
   threads_per_port c = 5).
Proof.
  intros Hp Hm. unfold threads_per_port. rewrite Hp. split.
  - apply Z.min_le_compat_l. destruct (length (ports c)) eqn:E; [simpl; rewrite !Z.div_0_r; lia|].
    apply Z.div_le_mono; lia.
  - intros Hne H5. destruct (length (ports c)) eqn:E; [by apply nil_length_inv in E|].
    assert (5 <= max_threads c / Z.of_nat (S n)); [|lia].
    apply Z.div_le_lower_bound; lia.
Qed.

(** C29: the thread budget [-t] (documented as the maximum number of
    threads) bounds each protocol separately, not the total: the plan
    has at most twice the budget, and a valid configuration with one
    port and budget 8 launches 10 senders. *)
Theorem launch_plan_budget (c : AttackConfig) :
  valid_config c ->
  (Z.of_nat (length (launch_plan c)) <= 2 * max_threads c /\
   exists c0, valid_config c0 /\ max_threads c0 < Z.of_nat (length (launch_plan c0))).
Proof.
  intros [_ Ht]. split; [by apply plan_within_budget|].
  exists {| target_ip := "192.0.2.1"%string; ports := [80]; packet_size := 1024;
            max_threads := 8; duration := None; verbose := false |}. split; [unfold valid_config; simpl; lia|].
  vm_compute. done.
Qed.

(** ** Witnesses: the default command line [-p 80 554 -t 20] and the
    examples of the specification. *)

Definition cfg (ps : list Z) (t : Z) : AttackConfig :=
  {| target_ip := "192.0.2.1"%string; ports := ps; packet_size := 1024;
     max_threads := t; duration := None; verbose := false |}.

Lemma launch_plan_tcp_first_witness :
  launch_plan (cfg [80; 554] 20) !! 10%nat = Some (UdpWorker 80) /\
  launch_plan (cfg [80; 554] 20) !! 15%nat <> Some (TcpWorker 554).
Proof.
  split; [reflexivity|].
  apply (launch_plan_tcp_first (cfg [80; 554] 20) 10 15 80 554); [lia|reflexivity].
Defined.

Lemma launch_plan_empty_small_budget_witness :
  launch_plan (cfg [1; 2; 3; 4; 5] 3) = [].
Proof.
  apply launch_plan_empty_small_budget; unfold valid_config; simpl; lia.
Defined.

Lemma threads_per_port_saturates_witness :
  threads_per_port (cfg [80; 554] 10) <= threads_per_port (cfg [80; 554] 1000) /\
  threads_per_port (cfg [80; 554] 10) = 5.
Proof.
  pose proof (threads_per_port_saturates (cfg [80; 554] 10) (cfg [80; 554] 1000)
                eq_refl ltac:(simpl; lia)) as [H1 H2].
  split; [exact H1|]. apply H2; [discriminate|simpl; lia].
Defined.

Lemma launch_plan_budget_witness :
  length (launch_plan (cfg [80; 554] 20)) = 20%nat /\
  Z.of_nat (length (launch_plan (cfg [80; 554] 20))) <= 2 * 20.
Proof.
  split; [reflexivity|].
  apply (proj1 (launch_plan_budget (cfg [80; 554] 20) ltac:(unfold valid_config; simpl; lia))).
Defined.

End Distributor.
