(* ===== verification/Stats.v ===== *)
(** * Stats: the shared statistics dictionary and the final summary

  Models [self.stats] of [PacketSender] (src/camjammer.py lines 24-29):
  three integer counters and the start time, shared by every thread.
  Workers update a counter with [self.stats[key] += 1], which CPython
  runs as a load of the value followed by a store of the value plus one;
  the two halves are separate operations here ([load] and [store]) so
  that the System component can interleave threads between them.  The
  counter keys are an interface ([CounterStore] with its laws) that the
  Worker component is proved against.  The summary of [stop] (lines
  160-171) is [stop_summary], a pure function of the dictionary and the
  current time; its six prints are also given one at a time
  ([print_line], [print_from]), each reading the dictionary it is
  given, so that the System component can run other threads, or
  deliver an interrupt, between them.

  Time is in integer milliseconds since the epoch: every delay of the
  program (0.001 s, 0.01 s, 0.1 s, 1 s and whole-second durations) is a
  whole number of milliseconds; the summary converts to seconds in [Q]. *)

From stdpp Require Import base list decidable strings.
From Stdlib Require Import ZArith QArith Lia.
From S2P Require Import Prelude.

Open Scope Z_scope.

Module Stats.

(** The three integer keys of [self.stats]. *)
Inductive Field := F_tcp_sent | F_udp_sent | F_errors.

#[export] Instance Field_eq_dec : EqDecision Field.
Proof. solve_decision. Defined.

(** What a worker needs of the shared counters: read a key, write a
    key, and the laws of a dictionary restricted to those keys. *)
Class CounterStore (S : Type) := {
  cs_get : Field -> S -> Z;
  cs_set : Field -> Z -> S -> S
}.

Class CounterStoreLaws (S : Type) `{CounterStore S} := {
  cs_get_set_eq f v s : cs_get f (cs_set f v s) = v;
  cs_get_set_ne f g v s : f <> g -> cs_get g (cs_set f v s) = cs_get g s
}.

(** [self.stats]: [start_time] is [None] until [start] runs. *)
Record Stats := mkStats {
  tcp_sent : Z;
  udp_sent : Z;
  errors : Z;
  start_time : option Z
}.

Definition stats_init : Stats :=
  {| tcp_sent := 0; udp_sent := 0; errors := 0; start_time := None |}.

Definition get (f : Field) (s : Stats) : Z :=
  match f with
  | F_tcp_sent => tcp_sent s
  | F_udp_sent => udp_sent s
  | F_errors => errors s
  end.

Definition set (f : Field) (v : Z) (s : Stats) : Stats :=
  match f with
  | F_tcp_sent => {| tcp_sent := v; udp_sent := udp_sent s; errors := errors s; start_time := start_time s |}
  | F_udp_sent => {| tcp_sent := tcp_sent s; udp_sent := v; errors := errors s; start_time := start_time s |}
  | F_errors => {| tcp_sent := tcp_sent s; udp_sent := udp_sent s; errors := v; start_time := start_time s |}
  end.

(** [self.stats['start_time'] = time.time()] (line 124). *)
Definition set_start (t : Z) (s : Stats) : Stats :=
  {| tcp_sent := tcp_sent s; udp_sent := udp_sent s; errors := errors s; start_time := Some t |}.

#[export] Instance Stats_CounterStore : CounterStore Stats := {| cs_get := get; cs_set := set |}.

#[export] Instance Stats_CounterStoreLaws : CounterStoreLaws Stats.
Proof. split; [intros [] v []|intros [] [] v [] Hne]; simpl; congruence. Qed.

(** The two halves of [self.stats[f] += 1]: the load yields the value a
    thread keeps in its frame, the store writes that value plus one. *)
Definition load {St} `{CounterStore St} (f : Field) (s : St) : Z := cs_get f s.
Definition store {St} `{CounterStore St} (f : Field) (r : Z) (s : St) : St := cs_set f (r + 1) s.

(** The summary printed by [stop]: the three totals, the elapsed time
    in seconds, and the packets per second, printed only when the
    elapsed time is positive. *)
Record Summary := mkSummary {
  sum_tcp : Z;
  sum_udp : Z;
  sum_errors : Z;
  sum_elapsed : Q;
  sum_pps : option Q
}.

(** [elapsed = time.time() - self.stats['start_time']] (line 162), in
    seconds. *)
Definition elapsed_secs (t0 now : Z) : Q := (inject_Z (now - t0) / inject_Z 1000)%Q.

(** Lines 162-171 read at one instant: the summary [stop] prints when
    no other thread runs between its prints.  The subtraction raises a
    [TypeError] when the start time is still [None]. *)
Definition stop_summary (s : Stats) (now : Z) : option Summary :=
  match start_time s with
  | None => None
  | Some t0 =>
      let elapsed := elapsed_secs t0 now in
      Some {| sum_tcp := tcp_sent s; sum_udp := udp_sent s; sum_errors := errors s;
              sum_elapsed := elapsed;
              sum_pps := if Qle_bool elapsed 0 then None
                         else Some (inject_Z (tcp_sent s + udp_sent s) / elapsed)%Q |}
  end.

(** The status line of [print_stats] (lines 109-113): the three
    counters and the elapsed milliseconds. *)
Definition status_line (s : Stats) (now : Z) : option (Z * Z * Z * Z) :=
  match start_time s with
  | None => None
  | Some t0 => Some (tcp_sent s, udp_sent s, errors s, now - t0)
  end.

(** What the program writes to the console, one constructor per
    [print] site: the creation error of [create_socket] (line 44), the
    per-port errors of the workers (lines 73 and 101), the status line of
    [print_stats], the banner of [start] (lines 118-121), the interrupt
    notice (line 157) and the six lines of [stop]'s summary (lines
    165-171). *)
Inductive Output :=
| O_socket_error
| O_tcp_error (port : Z)
| O_udp_error (port : Z)
| O_status (tcp udp errs elapsed : Z)
| O_banner (target : string) (ports : list Z) (duration : option Z)
| O_stopping
| O_completed                   (* "Attack completed!" *)
| O_total (f : Field) (n : Z)   (* "Total TCP packets", "Total UDP packets", "Total errors" *)
| O_duration (elapsed : Q)      (* "Total duration" *)
| O_rate (pps : Q).             (* "Packets per second" *)

(** Equality of outputs is decidable (the rationals are compared as
    written, numerator and denominator). *)
#[export] Instance Q_eq_dec : EqDecision Q.
Proof. solve_decision. Defined.

#[export] Instance Output_eq_dec : EqDecision Output.
Proof. solve_decision. Defined.

(** The print statements of [stop], one per line, in order. *)
Inductive SummaryLine := L_completed | L_tcp | L_udp | L_errors | L_duration | L_rate.

#[export] Instance SummaryLine_eq_dec : EqDecision SummaryLine.
Proof. solve_decision. Defined.

(** One print of [stop]: what it writes, reading the counters as they
    are when it runs, and the print that follows.  The last one is
    guarded by [if elapsed > 0] (line 170). *)
Definition print_line (l : SummaryLine) (el : Q) (s : Stats) : list Output * option SummaryLine :=
  match l with
  | L_completed => ([O_completed], Some L_tcp)
  | L_tcp => ([O_total F_tcp_sent (tcp_sent s)], Some L_udp)
  | L_udp => ([O_total F_udp_sent (udp_sent s)], Some L_errors)
  | L_errors => ([O_total F_errors (errors s)], Some L_duration)
  | L_duration => ([O_duration el], Some L_rate)
  | L_rate =>
      (if Qle_bool el 0 then [] else [O_rate (inject_Z (tcp_sent s + udp_sent s) / el)%Q], None)
  end.

(** The lines [stop] prints. *)
Definition summary_line (o : Output) : bool :=
  match o with O_completed | O_total _ _ | O_duration _ | O_rate _ => true | _ => false end.

(** The lines of a summary read at one instant. *)
Definition summary_output (r : Summary) : list Output :=
  [O_completed; O_total F_tcp_sent (sum_tcp r); O_total F_udp_sent (sum_udp r);
   O_total F_errors (sum_errors r); O_duration (sum_elapsed r)] ++
  from_option (fun q => [O_rate q]) [] (sum_pps r).

(** The prints from [l] on, all reading the same counters. *)
Fixpoint print_from (fuel : nat) (l : SummaryLine) (el : Q) (s : Stats) : list Output :=
  match fuel with
  | O => []
  | S f => let '(o, nxt) := print_line l el s in
           o ++ from_option (fun l' => print_from f l' el s) [] nxt
  end.

(** ** Lemmas *)

Lemma load_store_same {St} `{CounterStoreLaws St} f r (s : St) : load f (store f r s) = r + 1.
Proof. apply cs_get_set_eq. Qed.

Lemma load_store_other {St} `{CounterStoreLaws St} f g r (s : St) :
  f <> g -> load g (store f r s) = load g s.
Proof. apply cs_get_set_ne. Qed.

Lemma start_time_set f v s : start_time (set f v s) = start_time s.
Proof. by destruct f. Qed.

Lemma get_set_start f t s : get f (set_start t s) = get f s.
Proof. by destruct f. Qed.

#[export] Hint Rewrite @load_store_same start_time_set get_set_start : cj_simpl.

(** The elapsed seconds of the summary are at least [d] when at least
    [d] seconds of milliseconds have passed. *)
Lemma elapsed_ge (d t0 now : Z) :
  t0 + d * 1000 <= now -> (inject_Z d <= elapsed_secs t0 now)%Q.
Proof. intros H. unfold elapsed_secs, Qle, Qdiv, Qmult, Qinv; simpl. lia. Qed.

Lemma stop_summary_started s now t0 : start_time s = Some t0 -> exists r, stop_summary s now = Some r.
Proof. unfold stop_summary. intros ->. by eexists. Qed.

(** A summary taken [d] seconds or more after the start reports at
    least [d] seconds. *)
Lemma summary_after_duration s now r t0 d :
  start_time s = Some t0 -> t0 + d * 1000 <= now -> stop_summary s now = Some r ->
  (inject_Z d <= sum_elapsed r)%Q.
Proof. unfold stop_summary. intros -> Hle [= <-]. simpl. by apply elapsed_ge. Qed.

Lemma stop_summary_elapsed s now r t0 :
  start_time s = Some t0 -> stop_summary s now = Some r ->
  sum_elapsed r = (inject_Z (now - t0) / inject_Z 1000)%Q /\ sum_tcp r = tcp_sent s.
Proof. unfold stop_summary. intros -> [= <-]. done. Qed.

(** A print of [stop] writes summary lines only, and its duration line
    is the elapsed time taken before the prints. *)
Lemma print_line_lines l el s o :
  o ∈ (print_line l el s).1 -> summary_line o = true /\ forall el', o = O_duration el' -> el' = el.
Proof.
  destruct l; simpl; [..|destruct (Qle_bool el 0); [by intros ?%elem_of_nil|]];
    intros ->%list_elem_of_singleton; by split; [|intros ? [= ->]].
Qed.

(** [stop]'s six prints, run with no other thread between them, print
    exactly the summary of the instant [elapsed] was taken. *)
Lemma print_from_summary s now t0 r :
  start_time s = Some t0 -> stop_summary s now = Some r ->
  print_from 6 L_completed (elapsed_secs t0 now) s = summary_output r.
Proof.
  unfold stop_summary. intros -> [= <-]. simpl.
  by destruct (Qle_bool (elapsed_secs t0 now) 0).
Qed.

(** ** Properties *)

(** C25: the summary of [stop] reports the counters as they are and,
    when the elapsed time is positive, a throughput equal to the packets
    of both protocols divided by the elapsed seconds; with no elapsed
    time the throughput line is omitted (not reported as zero), and with
    no start time [stop] fails. *)
Theorem stop_summary_spec (s : Stats) (now : Z) :
  match start_time s with
  | None => stop_summary s now = None
  | Some t0 =>
      exists r, stop_summary s now = Some r /\
      sum_tcp r = tcp_sent s /\ sum_udp r = udp_sent s /\ sum_errors r = errors s /\
      (sum_elapsed r == inject_Z (now - t0) / inject_Z 1000)%Q /\
      (t0 < now -> exists q, sum_pps r = Some q /\
                   (q == inject_Z (tcp_sent s + udp_sent s) / sum_elapsed r)%Q) /\
      (now <= t0 -> sum_pps r = None)
  end.
Proof.
  unfold stop_summary. destruct (start_time s) as [t0|]; [|done].
  eexists; split; [reflexivity|]; simpl. do 4 (split; [reflexivity|]).
  assert (Hq : ((inject_Z (now - t0) / inject_Z 1000) <= 0)%Q <-> now <= t0).
  { unfold Qle, Qdiv, Qmult, Qinv; simpl. lia. }
  split; intros Hlt; destruct (Qle_bool _ _) eqn:E;
    rewrite ?Qle_bool_iff in E; try apply not_true_iff_false in E;
    rewrite ?Qle_bool_iff in E.
  - apply Hq in E. lia.
  - by eexists.
  - done.
  - exfalso. apply E, Hq, Hlt.
Qed.

(** ** Witness: the example of the specification, 40 TCP and 60 UDP
    packets over 10 seconds give 10 packets per second. *)

Lemma stop_summary_spec_witness :
  exists r q, stop_summary {| tcp_sent := 40; udp_sent := 60; errors := 5; start_time := Some 0 |} 10000 = Some r /\
    sum_pps r = Some q /\ (q == 10)%Q.
Proof.
  pose proof (stop_summary_spec {| tcp_sent := 40; udp_sent := 60; errors := 5; start_time := Some 0 |} 10000)
    as (r & Hr & _ & _ & _ & Hel & Hpps & _).
  destruct (Hpps ltac:(lia)) as (q & Hq & Hqv).
  exists r, q. split; [exact Hr|]. split; [exact Hq|].
  rewrite Hqv, Hel. reflexivity.
Defined.

End Stats.
