(* ===== verification/Socket.v ===== *)
(** * Socket: the socket factory and the operating system's socket table

    Models [PacketSender.create_socket] (src/camjammer.py lines 31-45) and
    the socket calls the workers make: [connect], [sendall], [sendto] and
    [close].  The operating system is a table of sockets indexed by file
    descriptor ([list Socket], a new socket appended at the end).  Whether
    a system call succeeds is the environment's choice ([Outcome]), except
    where Python decides it: a port outside 0..65535 makes [connect] and
    [sendto] raise [OverflowError] whatever the network does, and an
    operation on a closed socket raises [OSError].  A blocking call
    lasts the delay the network imposes, unless the socket's timeout
    ([sock.settimeout(5)] on TCP sockets, none on UDP ones) cuts it
    short and the call raises [socket.timeout] ([call_time]).  Dropping the last
    reference to a socket object closes it ([sock_release]), as CPython's
    reference counting does. *)

From stdpp Require Import base list decidable strings.
From Stdlib Require Import ZArith Lia.
From S2P Require Import Prelude Stats.

Open Scope Z_scope.
Import Stats.

Module Socket.

(** [socket.SOCK_STREAM] (TCP) and [socket.SOCK_DGRAM] (UDP). *)
Inductive SockType := SOCK_STREAM | SOCK_DGRAM.

#[export] Instance SockType_eq_dec : EqDecision SockType.
Proof. solve_decision. Defined.

(** A socket object: its type, the timeout of [settimeout] in
    milliseconds, the [SO_REUSEADDR] option, the peer of [connect], and
    whether it is still open. *)
Record Socket := mkSocket {
  so_type : SockType;
  so_timeout : option Z;
  so_reuseaddr : bool;
  so_peer : option (string * Z);
  so_open : bool
}.

(** The environment's answer to one system call. *)
Inductive Outcome := Succeeds | Raises.

#[export] Instance Outcome_eq_dec : EqDecision Outcome.
Proof. solve_decision. Defined.

(** Python's port check of [connect] and [sendto]. *)
Definition port_ok (port : Z) : bool := (0 <=? port) && (port <=? 65535).

(** Lines 31-45: [socket.socket(...)] for the protocol ([SOCK_STREAM]
    for ['tcp'], [SOCK_DGRAM] for anything else), [settimeout(5)] for TCP
    only, then [SO_REUSEADDR]; any exception is caught, optionally
    printed, and turned into [None].  The new socket gets the next file
    descriptor. *)
Definition create_socket (verbose : bool) (protocol : string) (o : Outcome)
    (tbl : list Socket) : option nat * list Socket * list Output :=
  match o with
  | Raises => (None, tbl, if verbose then [O_socket_error] else [])
  | Succeeds =>
      let s := if String.eqb protocol "tcp"
               then {| so_type := SOCK_STREAM; so_timeout := Some 5000; so_reuseaddr := true;
                       so_peer := None; so_open := true |}
               else {| so_type := SOCK_DGRAM; so_timeout := None; so_reuseaddr := true;
                       so_peer := None; so_open := true |} in
      (Some (length tbl), tbl ++ [s], [])
  end.

(** How long a blocking call on [s] lasts when the network answers after
    [d] milliseconds, and whether the timeout fires: with [settimeout(T)]
    (line 36) the call waits less than [T], or raises [socket.timeout]
    after [T]; a socket without a timeout waits as long as the network
    takes. *)
Definition call_time (s : Socket) (d : Z) : Z * bool :=
  match so_timeout s with
  | Some tmo => if d <? tmo then (Z.max 0 d, false) else (tmo, true)
  | None => (Z.max 0 d, false)
  end.

(** [sock.connect((ip, port))] on descriptor [fd] (line 55), with the
    network's outcome [o] after [d] ms: the outcome, the table and the
    time the call blocked.  A closed socket and an out-of-range port
    raise before blocking. *)
Definition sock_connect (ip : string) (port : Z) (o : Outcome) (d : Z) (fd : nat)
    (tbl : list Socket) : Outcome * list Socket * Z :=
  match tbl !! fd with
  | Some s =>
      if so_open s && port_ok port then
        let '(dt, timed_out) := call_time s d in
        if negb timed_out && bool_decide (o = Succeeds) then
          (Succeeds, <[fd := {| so_type := so_type s; so_timeout := so_timeout s;
                                so_reuseaddr := so_reuseaddr s; so_peer := Some (ip, port);
                                so_open := true |}]> tbl, dt)
        else (Raises, tbl, dt)
      else (Raises, tbl, 0)
  | None => (Raises, tbl, 0)
  end.

(** [sock.sendall(data)] (line 59) and [sock.sendto(data, addr)] (line
    89): whether the call completes, and how long it blocked.  [sendall]
    needs a connected socket, and its timeout bounds the whole call
    (Python 3.5 and later); [sendto] checks the port of its address
    argument. *)
Definition sock_sendall (o : Outcome) (d : Z) (fd : nat) (tbl : list Socket) : Outcome * Z :=
  match tbl !! fd with
  | Some s =>
      if so_open s && bool_decide (so_peer s <> None) then
        let '(dt, timed_out) := call_time s d in
        (if negb timed_out && bool_decide (o = Succeeds) then Succeeds else Raises, dt)
      else (Raises, 0)
  | None => (Raises, 0)
  end.

Definition sock_sendto (port : Z) (o : Outcome) (d : Z) (fd : nat) (tbl : list Socket) : Outcome * Z :=
  match tbl !! fd with
  | Some s =>
      if so_open s && port_ok port then
        let '(dt, timed_out) := call_time s d in
        (if negb timed_out && bool_decide (o = Succeeds) then Succeeds else Raises, dt)
      else (Raises, 0)
  | None => (Raises, 0)
  end.

(** [sock.close()] (lines 67 and 104): closing twice is harmless. *)
Definition sock_close (fd : nat) (tbl : list Socket) : list Socket :=
  alter (fun s => {| so_type := so_type s; so_timeout := so_timeout s;
                     so_reuseaddr := so_reuseaddr s; so_peer := so_peer s;
                     so_open := false |}) fd tbl.

(** CPython frees an object as soon as its last reference goes, and
    freeing an open socket object closes it.  [sock_release s] drops the
    reference [s] of a local variable that is rebound or goes out of
    scope, when it was the last one. *)
Definition sock_release (s : option nat) (tbl : list Socket) : list Socket :=
  match s with Some fd => sock_close fd tbl | None => tbl end.

(** ** Lemmas *)

Lemma create_socket_fresh v proto o tbl fd tbl' out :
  create_socket v proto o tbl = (Some fd, tbl', out) ->
  fd = length tbl /\ o = Succeeds /\ out = [] /\
  exists s, tbl' = tbl ++ [s] /\ so_open s = true /\ so_peer s = None /\
            so_type s = (if String.eqb proto "tcp" then SOCK_STREAM else SOCK_DGRAM).
Proof.
  destruct o; simpl; intros H; simplify_eq.
  repeat split. destruct (String.eqb proto "tcp"); eexists; eauto.
Qed.

Lemma create_socket_none v proto o tbl tbl' out :
  create_socket v proto o tbl = (None, tbl', out) ->
  tbl' = tbl /\ o = Raises /\ out = (if v then [O_socket_error] else []).
Proof. destruct o; simpl; intros H; by simplify_eq. Qed.

Lemma length_sock_connect ip port o d fd tbl :
  length (sock_connect ip port o d fd tbl).1.2 = length tbl.
Proof.
  unfold sock_connect. destruct (tbl !! fd) as [s|]; [|done].
  case_if; [|done]. destruct (call_time s d). case_if; simpl; [apply length_insert|done].
Qed.

(** What the invariants observe of a socket: its type and whether it is
    open.  [connect] changes neither. *)
Definition so_shape (s : Socket) : SockType * bool := (so_type s, so_open s).

Lemma sock_connect_shape ip port o d fd tbl :
  so_shape <$> (sock_connect ip port o d fd tbl).1.2 = so_shape <$> tbl.
Proof.
  unfold sock_connect. destruct (tbl !! fd) as [s|] eqn:E; [|done].
  destruct (so_open s) eqn:Eo; simpl; [|done]. case_if; [|done].
  destruct (call_time s d). case_if; simpl; [|done].
  rewrite list_fmap_insert. unfold so_shape at 1; simpl.
  rewrite <- Eo. change (so_type s, so_open s) with (so_shape s).
  apply list_insert_id. by rewrite list_lookup_fmap, E.
Qed.

Lemma sock_connect_open ip port o d fd tbl :
  (sock_connect ip port o d fd tbl).1.1 = Succeeds ->
  exists s, tbl !! fd = Some s /\ so_open s = true /\ port_ok port = true.
Proof.
  unfold sock_connect. destruct (tbl !! fd) as [s|]; [|done].
  destruct (so_open s) eqn:Eo, (port_ok port) eqn:Ep; simpl; try done.
  destruct (call_time s d). case_if; simpl; [eauto|done].
Qed.

(** A call blocks at most the socket's timeout, and at most the
    network's delay. *)
Lemma call_time_le s d tmo :
  so_timeout s = Some tmo -> 0 <= tmo -> 0 <= (call_time s d).1 <= tmo.
Proof. unfold call_time. intros -> ?. case_if; simpl; lia. Qed.

Lemma call_time_delay s d :
  (forall tmo, so_timeout s = Some tmo -> 0 <= tmo) -> 0 <= (call_time s d).1 <= Z.max 0 d.
Proof.
  unfold call_time. intros Ht. destruct (so_timeout s) as [tmo|]; [|simpl; lia].
  specialize (Ht tmo eq_refl). case_if; simpl; lia.
Qed.

Lemma sock_close_shape fd tbl :
  so_shape <$> sock_close fd tbl = alter (fun p => (p.1, false)) fd (so_shape <$> tbl).
Proof. apply list_fmap_alter. apply Forall_forall. by intros x _. Qed.

Lemma length_sock_close fd tbl : length (sock_close fd tbl) = length tbl.
Proof. apply length_alter. Qed.

Lemma lookup_sock_close fd tbl i :
  sock_close fd tbl !! i =
  if decide (i = fd) then
    (fun s => {| so_type := so_type s; so_timeout := so_timeout s; so_reuseaddr := so_reuseaddr s;
                 so_peer := so_peer s; so_open := false |}) <$> tbl !! i
  else tbl !! i.
Proof.
  unfold sock_close. rewrite list_lookup_alter.
  repeat case_decide; subst; congruence.
Qed.

(** [settimeout(5)] on every TCP socket (line 36), none on the UDP
    ones. *)
Definition timeout_ok (s : Socket) : Prop :=
  so_timeout s = match so_type s with SOCK_STREAM => Some 5000 | SOCK_DGRAM => None end.

Lemma create_socket_timeouts v proto o tbl x tbl' out :
  create_socket v proto o tbl = (x, tbl', out) -> Forall timeout_ok tbl -> Forall timeout_ok tbl'.
Proof.
  destruct o; simpl; intros H Ht; simplify_eq; [|done].
  apply Forall_app; split; [done|]. repeat constructor. by destruct (String.eqb proto "tcp").
Qed.

Lemma sock_connect_timeouts ip port o d fd tbl :
  Forall timeout_ok tbl -> Forall timeout_ok (sock_connect ip port o d fd tbl).1.2.
Proof.
  intros Ht. unfold sock_connect. destruct (tbl !! fd) as [s|] eqn:E; [|done].
  case_if; [|done]. destruct (call_time s d). case_if; simpl; [|done].
  apply Forall_insert; [done|]. unfold timeout_ok; simpl.
  exact (proj1 (Forall_lookup _ _) Ht fd s E).
Qed.

Lemma sock_close_timeouts fd tbl : Forall timeout_ok tbl -> Forall timeout_ok (sock_close fd tbl).
Proof.
  intros Ht. apply Forall_lookup. intros i s Hi. rewrite lookup_sock_close in Hi.
  destruct (decide (i = fd)) as [->|Hne]; [|exact (proj1 (Forall_lookup _ _) Ht i s Hi)].
  destruct (tbl !! fd) as [s0|] eqn:E; simplify_eq/=.
  unfold timeout_ok; simpl. exact (proj1 (Forall_lookup _ _) Ht fd s0 E).
Qed.

(** The time a call on a socket with its timeout blocks: at most the
    network's delay, and at most 5 s on a TCP socket. *)
Lemma call_time_ok s d :
  timeout_ok s -> 0 <= (call_time s d).1 <= Z.max 0 d /\
  (so_type s = SOCK_STREAM -> (call_time s d).1 <= 5000).
Proof.
  unfold timeout_ok. intros Ht. split.
  - apply call_time_delay. rewrite Ht. destruct (so_type s); intros ? [= <-]; lia.
  - intros Hty. rewrite Hty in Ht. apply (call_time_le s d 5000 Ht). lia.
Qed.

(** The three blocking calls on descriptor [fd], seen through their
    blocking time. *)
Definition call_bounded (tbl : list Socket) (fd : nat) (d dt : Z) : Prop :=
  0 <= dt <= Z.max 0 d /\
  ((forall s, tbl !! fd = Some s -> so_type s = SOCK_STREAM) -> dt <= 5000).

Lemma call_bounded_at tbl fd d s :
  Forall timeout_ok tbl -> tbl !! fd = Some s -> call_bounded tbl fd d (call_time s d).1.
Proof.
  intros Ht Hs. destruct (call_time_ok s d (proj1 (Forall_lookup _ _) Ht fd s Hs)) as [H1 H2].
  split; [done|]. intros Hty. by apply H2, Hty.
Qed.

Lemma call_bounded_zero tbl fd d : call_bounded tbl fd d 0.
Proof. split; [lia|]. intros _. lia. Qed.

Lemma sock_connect_time ip port o d fd tbl :
  Forall timeout_ok tbl -> call_bounded tbl fd d (sock_connect ip port o d fd tbl).2.
Proof.
  intros Ht. unfold sock_connect. destruct (tbl !! fd) as [s|] eqn:E; [|apply call_bounded_zero].
  case_if; [|apply call_bounded_zero].
  pose proof (call_bounded_at tbl fd d s Ht E) as Hb. destruct (call_time s d). by case_if.
Qed.

Lemma sock_sendall_time o d fd tbl :
  Forall timeout_ok tbl -> call_bounded tbl fd d (sock_sendall o d fd tbl).2.
Proof.
  intros Ht. unfold sock_sendall. destruct (tbl !! fd) as [s|] eqn:E; [|apply call_bounded_zero].
  case_if; [|apply call_bounded_zero].
  pose proof (call_bounded_at tbl fd d s Ht E) as Hb. by destruct (call_time s d).
Qed.

Lemma sock_sendto_time port o d fd tbl :
  Forall timeout_ok tbl -> call_bounded tbl fd d (sock_sendto port o d fd tbl).2.
Proof.
  intros Ht. unfold sock_sendto. destruct (tbl !! fd) as [s|] eqn:E; [|apply call_bounded_zero].
  case_if; [|apply call_bounded_zero].
  pose proof (call_bounded_at tbl fd d s Ht E) as Hb. by destruct (call_time s d).
Qed.

Lemma sock_release_timeouts s tbl : Forall timeout_ok tbl -> Forall timeout_ok (sock_release s tbl).
Proof. destruct s; simpl; [apply sock_close_timeouts|done]. Qed.

End Socket.
