(* ===== verification/Worker.v ===== *)
(** * Worker: the sender threads and the reporter thread, step by step

    Models [send_tcp_packets] (src/camjammer.py lines 47-74),
    [send_udp_packets] (lines 76-104) and [print_stats] (lines 106-114) as
    programs with an explicit program counter.  One step is one atomic
    action of the CPython interpreter on shared state: a read of
    [self.running], one socket call, the load half or the store half of
    [self.stats[key] += 1], a print.  Purely thread-local work
    ([thread_stats] updates, building the payload) is folded into the
    neighbouring step.  [time.sleep(x)] sets the thread's wake-up time; a
    thread takes no step before the clock reaches it.  A blocking socket
    call does the same with the time the call takes ([call_time] of the
    environment's delay [env_delay]), so a thread stuck in [connect] or
    [sendall] is asleep until its 5 s timeout at the latest.

    The state shared by all threads is [Shared]: the clock, the
    [self.running] flag, the [self.stats] dictionary, the socket table,
    the datagrams and stream segments that left the machine, and the
    console output.  The configuration is read-only: it is a [Context] of
    the section, as [self.config] is never assigned after [__init__]. *)

From stdpp Require Import base list decidable strings.
From Stdlib Require Import ZArith Lia.
From S2P Require Import Prelude Config Stats Socket.

Open Scope Z_scope.
Import Config Stats Socket.

Module Worker.

(** Bytes that reached the network: the socket type, the destination
    port and the payload (each byte an integer in 0..255). *)
Record Packet := mkPacket { pk_type : SockType; pk_port : Z; pk_data : list Z }.

Record Shared := mkShared {
  sh_clock : Z;
  sh_running : bool;
  sh_stats : Stats;
  sh_socks : list Socket;
  sh_net : list Packet;
  sh_out : list Output
}.

(** Program counters of [send_tcp_packets].  The descriptor [fd] is the
    local [sock]; at the loop test and the creation [sock] is what the
    previous iteration left in it ([None] before the first one and after
    a failed creation); [r] is the value loaded by the first half of a
    [+=]. *)
Inductive TcpPc :=
| TLoop (sock : option nat)   (* while self.running *)
| TCreate (sock : option nat) (* sock = self.create_socket('tcp'); if sock *)
| TConnect (fd : nat)      (* sock.connect((target_ip, port)) *)
| TSend (fd : nat)         (* random_data = ...; sock.sendall(random_data) *)
| TIncLoad (fd : nat)      (* self.stats['tcp_sent'] += 1, load *)
| TIncStore (fd : nat) (r : Z) (* ... store, then time.sleep(0.01) *)
| TClose (fd : nat)        (* sock.close() *)
| TErrLoad (fd : nat)      (* except: self.stats['errors'] += 1, load *)
| TErrStore (fd : nat) (r : Z) (* ... store, print, time.sleep(0.1) *)
| TDone.

(** Program counters of [send_udp_packets]. *)
Inductive UdpPc :=
| UCreate                  (* sock = self.create_socket('udp'); if not sock: return *)
| ULoop (fd : nat)         (* while self.running *)
| USend (fd : nat)         (* random_data = ...; sock.sendto(...) *)
| UIncLoad (fd : nat)      (* self.stats['udp_sent'] += 1, load *)
| UIncStore (fd : nat) (r : Z) (* ... store, then time.sleep(0.001) *)
| UErrLoad (fd : nat)      (* except: self.stats['errors'] += 1, load *)
| UErrStore (fd : nat) (r : Z) (* ... store, print, time.sleep(0.1) *)
| UClose (fd : nat)        (* finally: sock.close() *)
| UDone.

(** Program counters of [print_stats]. *)
Inductive RepPc := RLoop | RPrint | RDone.

Inductive Body :=
| BTcp (port : Z) (pc : TcpPc)
| BUdp (port : Z) (pc : UdpPc)
| BStats (pc : RepPc).

(** A thread: its code position, the end of its current [time.sleep],
    and its [thread_stats] dictionary. *)
Record Thread := mkThread {
  th_body : Body;
  th_wake : Z;
  th_sent : Z;
  th_errors : Z
}.

(** What the environment decides at a step: the outcome of the system
    call, the bits [random.getrandbits] returns, how many bytes a failing
    [sendall] got out before it raised, and how many milliseconds the
    network takes to answer a blocking call. *)
Record Env := mkEnv { env_outcome : Outcome; env_bits : nat -> Z; env_partial : nat; env_delay : Z }.

(** ** Updates of the shared state and of a thread *)

Definition set_stats (s : Stats) (sh : Shared) : Shared :=
  {| sh_clock := sh_clock sh; sh_running := sh_running sh; sh_stats := s;
     sh_socks := sh_socks sh; sh_net := sh_net sh; sh_out := sh_out sh |}.

Definition set_socks (tbl : list Socket) (sh : Shared) : Shared :=
  {| sh_clock := sh_clock sh; sh_running := sh_running sh; sh_stats := sh_stats sh;
     sh_socks := tbl; sh_net := sh_net sh; sh_out := sh_out sh |}.

Definition emit (out : list Output) (sh : Shared) : Shared :=
  {| sh_clock := sh_clock sh; sh_running := sh_running sh; sh_stats := sh_stats sh;
     sh_socks := sh_socks sh; sh_net := sh_net sh; sh_out := sh_out sh ++ out |}.

Definition transmit (ps : list Packet) (sh : Shared) : Shared :=
  {| sh_clock := sh_clock sh; sh_running := sh_running sh; sh_stats := sh_stats sh;
     sh_socks := sh_socks sh; sh_net := sh_net sh ++ ps; sh_out := sh_out sh |}.

Definition goto (b : Body) (t : Thread) : Thread :=
  {| th_body := b; th_wake := th_wake t; th_sent := th_sent t; th_errors := th_errors t |}.

(** [time.sleep(ms / 1000)] *)
Definition sleep (now ms : Z) (t : Thread) : Thread :=
  {| th_body := th_body t; th_wake := now + ms; th_sent := th_sent t; th_errors := th_errors t |}.

(** [thread_stats['sent'] += 1] and [thread_stats['errors'] += 1] *)
Definition bump_sent (t : Thread) : Thread :=
  {| th_body := th_body t; th_wake := th_wake t; th_sent := th_sent t + 1; th_errors := th_errors t |}.

Definition bump_errors (t : Thread) : Thread :=
  {| th_body := th_body t; th_wake := th_wake t; th_sent := th_sent t; th_errors := th_errors t + 1 |}.

Definition new_thread (b : Body) (now : Z) : Thread :=
  {| th_body := b; th_wake := now; th_sent := 0; th_errors := 0 |}.

(** The payload of a bounded byte segment that [sendall] got out before
    raising: nothing when no byte left. *)
Definition segment (ty : SockType) (port : Z) (data : list Z) : list Packet :=
  match data with [] => [] | _ => [mkPacket ty port data] end.

Section Steps.

Context (cfg : AttackConfig).

(** [bytes(random.getrandbits(8) for _ in range(self.config.packet_size))] *)
Definition random_data (bits : nat -> Z) : list Z :=
  map (fun i => Z.land (bits i) 255) (seq 0 (Z.to_nat (packet_size cfg))).

Definition verbose_out (o : Output) : list Output := if verbose cfg then [o] else [].

(** One step of [send_tcp_packets(port)] at [pc]. *)
Definition tcp_step (port : Z) (pc : TcpPc) (e : Env) (sh : Shared) (t : Thread) : Shared * Thread :=
  let go pc' t := goto (BTcp port pc') t in
  match pc with
  | TLoop s =>
      (* returning frees the frame and the socket [sock] still refers to *)
      if sh_running sh then (sh, go (TCreate s) t)
      else (set_socks (sock_release s (sh_socks sh)) sh, go TDone t)
  | TCreate s =>
      (* the assignment drops the previous socket's last reference *)
      match create_socket (verbose cfg) "tcp" (env_outcome e) (sh_socks sh) with
      | (Some fd, tbl, out) => (emit out (set_socks (sock_release s tbl) sh), go (TConnect fd) t)
      | (None, tbl, out) => (emit out (set_socks (sock_release s tbl) sh), go (TLoop None) t)
      end
  | TConnect fd =>
      (* the call blocks the thread for [dt] ms *)
      match sock_connect (target_ip cfg) port (env_outcome e) (env_delay e) fd (sh_socks sh) with
      | (Succeeds, tbl, dt) => (set_socks tbl sh, sleep (sh_clock sh) dt (go (TSend fd) t))
      | (Raises, tbl, dt) => (set_socks tbl sh, sleep (sh_clock sh) dt (bump_errors (go (TErrLoad fd) t)))
      end
  | TSend fd =>
      let data := random_data (env_bits e) in
      match sock_sendall (env_outcome e) (env_delay e) fd (sh_socks sh) with
      | (Succeeds, dt) =>
          (transmit [mkPacket SOCK_STREAM port data] sh, sleep (sh_clock sh) dt (bump_sent (go (TIncLoad fd) t)))
      | (Raises, dt) => (transmit (segment SOCK_STREAM port (firstn (env_partial e) data)) sh,
                         sleep (sh_clock sh) dt (bump_errors (go (TErrLoad fd) t)))
      end
  | TIncLoad fd => (sh, go (TIncStore fd (load F_tcp_sent (sh_stats sh))) t)
  | TIncStore fd r =>
      (set_stats (store F_tcp_sent r (sh_stats sh)) sh, sleep (sh_clock sh) 10 (go (TClose fd) t))
  | TClose fd => (set_socks (sock_close fd (sh_socks sh)) sh, go (TLoop (Some fd)) t)
  | TErrLoad fd => (sh, go (TErrStore fd (load F_errors (sh_stats sh))) t)
  | TErrStore fd r =>
      (emit (verbose_out (O_tcp_error port)) (set_stats (store F_errors r (sh_stats sh)) sh),
       sleep (sh_clock sh) 100 (go (TLoop (Some fd)) t))
  | TDone => (sh, t)
  end.

(** One step of [send_udp_packets(port)] at [pc]. *)
Definition udp_step (port : Z) (pc : UdpPc) (e : Env) (sh : Shared) (t : Thread) : Shared * Thread :=
  let go pc' t := goto (BUdp port pc') t in
  match pc with
  | UCreate =>
      match create_socket (verbose cfg) "udp" (env_outcome e) (sh_socks sh) with
      | (Some fd, tbl, out) => (emit out (set_socks tbl sh), go (ULoop fd) t)
      | (None, tbl, out) => (emit out (set_socks tbl sh), go UDone t)
      end
  | ULoop fd => (sh, go (if sh_running sh then USend fd else UClose fd) t)
  | USend fd =>
      let data := random_data (env_bits e) in
      match sock_sendto port (env_outcome e) (env_delay e) fd (sh_socks sh) with
      | (Succeeds, dt) =>
          (transmit [mkPacket SOCK_DGRAM port data] sh, sleep (sh_clock sh) dt (bump_sent (go (UIncLoad fd) t)))
      | (Raises, dt) => (sh, sleep (sh_clock sh) dt (bump_errors (go (UErrLoad fd) t)))
      end
  | UIncLoad fd => (sh, go (UIncStore fd (load F_udp_sent (sh_stats sh))) t)
  | UIncStore fd r =>
      (set_stats (store F_udp_sent r (sh_stats sh)) sh, sleep (sh_clock sh) 1 (go (ULoop fd) t))
  | UErrLoad fd => (sh, go (UErrStore fd (load F_errors (sh_stats sh))) t)
  | UErrStore fd r =>
      (emit (verbose_out (O_udp_error port)) (set_stats (store F_errors r (sh_stats sh)) sh),
       sleep (sh_clock sh) 100 (go (ULoop fd) t))
  | UClose fd => (set_socks (sock_close fd (sh_socks sh)) sh, go UDone t)
  | UDone => (sh, t)
  end.

(** One step of [print_stats]: the status line needs the start time; a
    [TypeError] on [None] would end the thread. *)
Definition stats_step (pc : RepPc) (sh : Shared) (t : Thread) : Shared * Thread :=
  match pc with
  | RLoop => (sh, goto (BStats (if sh_running sh then RPrint else RDone)) t)
  | RPrint =>
      match status_line (sh_stats sh) (sh_clock sh) with
      | Some (a, b, c, d) => (emit [O_status a b c d] sh, sleep (sh_clock sh) 1000 (goto (BStats RLoop) t))
      | None => (sh, goto (BStats RDone) t)
      end
  | RDone => (sh, t)
  end.

Definition finished (b : Body) : bool :=
  match b with
  | BTcp _ TDone | BUdp _ UDone | BStats RDone => true
  | _ => false
  end.

(** A thread can step when it has not returned and its sleep is over. *)
Definition thread_step (e : Env) (sh : Shared) (t : Thread) : option (Shared * Thread) :=
  if finished (th_body t) || negb (th_wake t <=? sh_clock sh) then None
  else Some (match th_body t with
             | BTcp port pc => tcp_step port pc e sh t
             | BUdp port pc => udp_step port pc e sh t
             | BStats pc => stats_step pc sh t
             end).

(** [n] steps of one thread, each with its environment; [None] when
    the thread cannot step (it returned, or its sleep is not over). *)
Fixpoint thread_run (es : list Env) (sh : Shared) (t : Thread) : option (Shared * Thread) :=
  match es with
  | [] => Some (sh, t)
  | e :: es' => match thread_step e sh t with
                | Some (sh', t') => thread_run es' sh' t'
                | None => None
                end
  end.

(** Once [self.running] is false, how many more steps a thread takes
    before it returns: the length of the path to the loop test and out. *)
Definition exit_measure (t : Thread) : nat :=
  match th_body t with
  | BTcp _ pc => match pc with
                 | TLoop _ => 1 | TCreate _ => 7 | TConnect _ => 6 | TSend _ => 5
                 | TIncLoad _ => 4 | TIncStore _ _ => 3 | TClose _ => 2
                 | TErrLoad _ => 3 | TErrStore _ _ => 2 | TDone => 0 end
  | BUdp _ pc => match pc with
                 | UCreate => 6 | ULoop _ => 2 | USend _ => 5 | UIncLoad _ => 4
                 | UIncStore _ _ => 3 | UErrLoad _ => 4 | UErrStore _ _ => 3
                 | UClose _ => 1 | UDone => 0 end
  | BStats pc => match pc with RLoop => 1 | RPrint => 2 | RDone => 0 end
  end.

End Steps.

(** The sender threads, as opposed to the reporter. *)
Definition is_sender (b : Body) : bool := match b with BStats _ => false | _ => true end.

(** The longest time a thread may still spend on its way out once the
    flag is false, in blocking calls and sleeps: a TCP [connect] and a
    [sendall] of at most 5 s each (their timeout) followed by the backoff
    or the 10 ms sleep, a UDP [sendto] of at most [D] ms (the longest the
    network makes it wait: the socket has no timeout) followed by the
    backoff or the 1 ms sleep, the reporter's 1 s sleep; nothing once it
    has slept. *)
Definition exit_sleep (D : Z) (b : Body) : Z :=
  match b with
  | BTcp _ pc => match pc with
                 | TCreate _ | TConnect _ => 10100
                 | TSend _ => 5100
                 | TErrLoad _ | TErrStore _ _ => 100
                 | TIncLoad _ | TIncStore _ _ => 10
                 | TLoop _ | TClose _ | TDone => 0 end
  | BUdp _ pc => match pc with
                 | USend _ => D + 100
                 | UErrLoad _ | UErrStore _ _ => 100
                 | UIncLoad _ | UIncStore _ _ => 1
                 | UCreate | ULoop _ | UClose _ | UDone => 0 end
  | BStats pc => match pc with RPrint => 1000 | RLoop | RDone => 0 end
  end.

(** The most time a TCP sender or the reporter can still spend on its
    way out; a UDP sender's depends on the network. *)
Definition exit_bound (b : Body) : Z :=
  match b with BTcp _ _ => 10100 | BUdp _ _ => 100 | BStats _ => 1000 end.

Definition is_udp (b : Body) : bool := match b with BUdp _ _ => true | _ => false end.

(** ** What a thread contributes to one counter key

    [pend f b]: the thread has done its local [thread_stats] update for
    key [f] and not yet stored the shared one; [reg f b]: it has loaded
    [r] and is about to store [r + 1]; [contrib f t]: the thread-local
    count the key should add up to over all threads. *)
Definition pend (f : Field) (b : Body) : bool :=
  match f, b with
  | F_tcp_sent, BTcp _ (TIncLoad _ | TIncStore _ _) => true
  | F_udp_sent, BUdp _ (UIncLoad _ | UIncStore _ _) => true
  | F_errors, (BTcp _ (TErrLoad _ | TErrStore _ _) | BUdp _ (UErrLoad _ | UErrStore _ _)) => true
  | _, _ => false
  end.

Definition reg (f : Field) (b : Body) : option Z :=
  match f, b with
  | F_tcp_sent, BTcp _ (TIncStore _ r) => Some r
  | F_udp_sent, BUdp _ (UIncStore _ r) => Some r
  | F_errors, (BTcp _ (TErrStore _ r) | BUdp _ (UErrStore _ r)) => Some r
  | _, _ => None
  end.

Definition contrib (f : Field) (t : Thread) : Z :=
  match f, th_body t with
  | F_tcp_sent, BTcp _ _ => th_sent t
  | F_udp_sent, BUdp _ _ => th_sent t
  | F_errors, (BTcp _ _ | BUdp _ _) => th_errors t
  | _, _ => 0
  end.

Definition pendZ (f : Field) (t : Thread) : Z := if pend f (th_body t) then 1 else 0.

(** How many payloads of a socket type are on the wire. *)
Definition n_type (ty : SockType) (l : list Packet) : Z :=
  Z.of_nat (length (filter (fun p => pk_type p = ty) l)).

(** The four ways a thread step can touch key [f], with [v] and [v'] the
    shared value before and after. *)
Inductive field_effect (f : Field) (v : Z) (t t' : Thread) (v' : Z) : Prop :=
| fe_neutral :
    v' = v -> pend f (th_body t') = pend f (th_body t) -> contrib f t' = contrib f t ->
    reg f (th_body t') = reg f (th_body t) -> field_effect f v t t' v'
| fe_enter :
    v' = v -> pend f (th_body t) = false -> pend f (th_body t') = true ->
    contrib f t' = contrib f t + 1 -> reg f (th_body t') = None -> field_effect f v t t' v'
| fe_load :
    v' = v -> pend f (th_body t) = true -> pend f (th_body t') = true ->
    contrib f t' = contrib f t -> reg f (th_body t) = None -> reg f (th_body t') = Some v ->
    field_effect f v t t' v'
| fe_store r :
    reg f (th_body t) = Some r -> v' = r + 1 -> pend f (th_body t) = true ->
    pend f (th_body t') = false -> contrib f t' = contrib f t -> reg f (th_body t') = None ->
    field_effect f v t t' v'.

(** The socket a thread is using: the one its local [sock] refers to
    from creation to the end of the iteration (TCP) or of the loop
    (UDP); every such socket is open. *)
Definition held (b : Body) : option nat :=
  match b with
  | BTcp _ (TConnect fd | TSend fd | TIncLoad fd | TIncStore fd _ | TClose fd | TErrLoad fd | TErrStore fd _) =>
      Some fd
  | BUdp _ (ULoop fd | USend fd | UIncLoad fd | UIncStore fd _ | UErrLoad fd | UErrStore fd _ | UClose fd) => Some fd
  | _ => None
  end.

(** The socket the local [sock] refers to, used or not: at the TCP loop
    test it is the previous iteration's, closed after a success, still
    open after an error. *)
Definition sock_ref (b : Body) : option nat :=
  match b with
  | BTcp _ (TLoop s | TCreate s) => s
  | _ => held b
  end.

Definition body_type (b : Body) : SockType :=
  match b with BUdp _ _ => SOCK_DGRAM | _ => SOCK_STREAM end.

(** Closing the socket [fd], seen through the sockets' shapes. *)
Definition close_shape (fd : nat) (l : list (SockType * bool)) : list (SockType * bool) :=
  alter (fun p => (p.1, false)) fd l.

(** The four ways a thread step can touch the socket table, seen through
    the sockets' types and open flags: nothing changes, a socket is
    created for [sock], a socket is created and the one [sock] referred
    to is released, or the socket [sock] refers to is closed. *)
Inductive sock_effect (tbl tbl' : list Socket) (b b' : Body) : Prop :=
| se_keep :
    so_shape <$> tbl' = so_shape <$> tbl -> sock_ref b' = sock_ref b ->
    (forall fd, held b' = Some fd -> held b = Some fd) -> sock_effect tbl tbl' b b'
| se_create :
    sock_ref b = None -> sock_ref b' = Some (length tbl) -> held b' = Some (length tbl) ->
    so_shape <$> tbl' = (so_shape <$> tbl) ++ [(body_type b, true)] -> sock_effect tbl tbl' b b'
| se_replace fd :
    sock_ref b = Some fd -> held b = None -> sock_ref b' = Some (length tbl) -> held b' = Some (length tbl) ->
    so_shape <$> tbl' = close_shape fd ((so_shape <$> tbl) ++ [(body_type b, true)]) -> sock_effect tbl tbl' b b'
| se_close fd :
    sock_ref b = Some fd -> held b' = None -> (sock_ref b' = None \/ sock_ref b' = Some fd) ->
    so_shape <$> tbl' = close_shape fd (so_shape <$> tbl) -> sock_effect tbl tbl' b b'.

(** ** Lemmas *)

Section Lemmas.
Context (cfg : AttackConfig).

Lemma thread_step_Some e sh t r :
  thread_step cfg e sh t = Some r ->
  finished (th_body t) = false /\ th_wake t <= sh_clock sh /\
  r = match th_body t with
      | BTcp port pc => tcp_step cfg port pc e sh t
      | BUdp port pc => udp_step cfg port pc e sh t
      | BStats pc => stats_step pc sh t
      end.
Proof.
  unfold thread_step. destruct (finished _) eqn:Ef; simpl; [done|].
  destruct (th_wake t <=? sh_clock sh) eqn:Ew; simpl; intros H; simplify_eq.
  repeat split; cj_lia.
Qed.

Lemma thread_step_enabled e sh t :
  finished (th_body t) = false -> th_wake t <= sh_clock sh ->
  exists r, thread_step cfg e sh t = Some r.
Proof.
  intros Hf Hw. unfold thread_step. rewrite Hf.
  destruct (Z.leb_spec (th_wake t) (sh_clock sh)); [|lia]. simpl. by eexists.
Qed.

Lemma length_random_data bits : length (random_data cfg bits) = Z.to_nat (packet_size cfg).
Proof. unfold random_data. by rewrite length_map, length_seq. Qed.

Lemma random_data_bytes bits : Forall (fun b => 0 <= b <= 255) (random_data cfg bits).
Proof.
  unfold random_data. apply Forall_map, Forall_forall. intros i _.
  change (Z.land (bits i) 255) with (Z.land (bits i) (Z.ones 8)). rewrite Z.land_ones by lia.
  pose proof (Z.mod_pos_bound (bits i) (2 ^ 8) ltac:(lia)). lia.
Qed.

(** Every thread step has one of the four effects on every key.  The
    store of one key leaves the others alone by the [CounterStore] laws. *)
Lemma thread_step_field f e sh t sh' t' :
  thread_step cfg e sh t = Some (sh', t') ->
  field_effect f (get f (sh_stats sh)) t t' (get f (sh_stats sh')).
Proof.
  intros Hs. apply thread_step_Some in Hs as (Hf & _ & Hs).
  destruct t as [[port pc|port pc|pc] w se er]; simpl in *;
    destruct pc; simpl in *; try discriminate;
    repeat (case_match; simpl in Hs); simplify_eq/=;
    destruct f; unfold pend, reg, contrib, load; simpl;
    first [ by apply fe_neutral | by apply fe_enter | by apply fe_load
          | by eapply fe_store ].
Qed.

Lemma n_type_app ty l1 l2 : n_type ty (l1 ++ l2) = n_type ty l1 + n_type ty l2.
Proof. unfold n_type. rewrite filter_app, length_app. lia. Qed.

Lemma n_type_nonneg ty l : 0 <= n_type ty l.
Proof. unfold n_type. lia. Qed.

Lemma n_type_one ty ty' port data : n_type ty [mkPacket ty' port data] = if decide (ty' = ty) then 1 else 0.
Proof. unfold n_type. rewrite filter_cons. simpl. by case_decide. Qed.

(** What a thread step puts on the wire: for UDP exactly one datagram per
    successful [sendto], for TCP at least one stream payload per
    successful [sendall] (a failing [sendall] may also leave a segment). *)
Lemma thread_step_net e sh t sh' t' :
  thread_step cfg e sh t = Some (sh', t') ->
  exists ps, sh_net sh' = sh_net sh ++ ps /\
    n_type SOCK_DGRAM ps = contrib F_udp_sent t' - contrib F_udp_sent t /\
    contrib F_tcp_sent t' - contrib F_tcp_sent t <= n_type SOCK_STREAM ps.
Proof.
  intros Hs. apply thread_step_Some in Hs as (Hf & _ & Hs).
  destruct t as [[port pc|port pc|pc] w se er]; simpl in *;
    destruct pc; simpl in *; try discriminate;
    repeat (case_match; simpl in Hs); simplify_eq/=;
    try (exists []; rewrite app_nil_r; unfold n_type; simpl; split; [done|lia]);
    eexists; (split; [reflexivity|]); unfold contrib; simpl;
    rewrite ?n_type_one; simpl; try lia.
  all: match goal with |- context [segment ?ty ?p ?d] =>
         destruct d; simpl; unfold n_type; simpl; lia end.
Qed.

(** Threads print errors and status lines, never the interrupt notice
    or a line of the summary. *)
Definition quiet (o : Output) : bool :=
  match o with
  | O_stopping | O_completed | O_total _ _ | O_duration _ | O_rate _ => false
  | _ => true
  end.

Lemma create_socket_quiet v proto o tbl x tbl' out :
  create_socket v proto o tbl = (x, tbl', out) -> Forall (fun o => quiet o = true) out.
Proof. destruct o, v; simpl; intros H; simplify_eq; repeat constructor. Qed.

Lemma thread_step_out e sh t sh' t' :
  thread_step cfg e sh t = Some (sh', t') ->
  exists l, sh_out sh' = sh_out sh ++ l /\ Forall (fun o => quiet o = true) l.
Proof.
  intros Hs. apply thread_step_Some in Hs as (Hf & _ & Hs).
  unfold verbose_out in Hs.
  destruct t as [[port pc|port pc|pc] w se er]; simpl in *;
    destruct pc; simpl in *; try discriminate;
    repeat (case_match; simpl in Hs); simplify_eq/=;
    first [ exists []; split; [by rewrite app_nil_r | by constructor]
          | eexists; split; [reflexivity|];
            first [ by repeat constructor | by eapply create_socket_quiet
                  | unfold verbose_out; case_match; by repeat constructor ] ].
Qed.

(** Every thread step has one of the four effects on the socket table;
    only the TCP sender drops a socket without closing it. *)
Lemma close_shape_app fd tbl x :
  so_shape <$> sock_close fd (tbl ++ [x]) = close_shape fd ((so_shape <$> tbl) ++ [so_shape x]).
Proof. unfold close_shape. by rewrite sock_close_shape, fmap_app. Qed.

(** Every thread step has one of the four effects on the socket table. *)
Lemma thread_step_sock e sh t sh' t' :
  thread_step cfg e sh t = Some (sh', t') ->
  sock_effect (sh_socks sh) (sh_socks sh') (th_body t) (th_body t') /\
  body_type (th_body t') = body_type (th_body t).
Proof.
  intros Hs. apply thread_step_Some in Hs as (Hf & _ & Hs).
  destruct t as [[port pc|port pc|pc] w se er]; simpl in *;
    destruct pc as [s|s| | | | | | | |] || destruct pc || idtac; simpl in *; try discriminate;
    try (unfold create_socket in Hs; destruct (env_outcome e); simpl in Hs);
    repeat (case_match; simpl in Hs); simplify_eq/=; try destruct s as [fd0|]; simpl;
    (split; [|done]);
    try first [ by apply se_keep; [| |intros ? ?; simplify_eq/=]
          | by eapply se_create; [| | |rewrite fmap_app]
          | by eapply se_replace; [| | | |apply close_shape_app]
          | by eapply se_close; [| |first [by left|by right]|apply sock_close_shape] ].
  all: match goal with
       | H : sock_connect ?a ?b ?c ?d ?f ?tb = (_, ?l, _) |- _ =>
           pose proof (sock_connect_shape a b c d f tb) as Hsh; rewrite H in Hsh; simpl in Hsh
       end; by apply se_keep; [| |intros ? ?; simplify_eq/=].
Qed.

Lemma thread_step_clock e sh t sh' t' :
  thread_step cfg e sh t = Some (sh', t') ->
  sh_clock sh' = sh_clock sh /\ sh_running sh' = sh_running sh /\
  start_time (sh_stats sh') = start_time (sh_stats sh) /\ th_wake t <= sh_clock sh.
Proof.
  intros Hs. apply thread_step_Some in Hs as (Hf & Hw & Hs).
  destruct t as [[port pc|port pc|pc] w se er]; simpl in *;
    destruct pc; simpl in *; try discriminate;
    repeat (case_match; simpl in Hs); simplify_eq/=;
    rewrite ?start_time_set; repeat split; first [lia | congruence].
Qed.

(** The socket a thread uses has the thread's type. *)
Definition socket_typed (tbl : list Socket) (b : Body) : Prop :=
  forall fd s, held b = Some fd -> tbl !! fd = Some s -> so_type s = body_type b.

(** Name the blocking time of the socket call of a step and its bounds. *)
Ltac call_facts Hto :=
  match goal with
  | Hs : context [sock_connect ?a ?b ?c ?d ?f ?tb] |- _ =>
      let E := fresh "E" in let Hb := fresh "Hb" in
      destruct (sock_connect a b c d f tb) as [[[] ?] ?] eqn:E;
      pose proof (sock_connect_time a b c d f tb Hto) as Hb; rewrite E in Hb; simpl in Hb
  | Hs : context [sock_sendall ?c ?d ?f ?tb] |- _ =>
      let E := fresh "E" in let Hb := fresh "Hb" in
      destruct (sock_sendall c d f tb) as [[] ?] eqn:E;
      pose proof (sock_sendall_time c d f tb Hto) as Hb; rewrite E in Hb; simpl in Hb
  | Hs : context [sock_sendto ?p ?c ?d ?f ?tb] |- _ =>
      let E := fresh "E" in let Hb := fresh "Hb" in
      destruct (sock_sendto p c d f tb) as [[] ?] eqn:E;
      pose proof (sock_sendto_time p c d f tb Hto) as Hb; rewrite E in Hb; simpl in Hb
  end.

(** The sockets keep their timeouts. *)
Lemma thread_step_timeouts e sh t sh' t' :
  thread_step cfg e sh t = Some (sh', t') -> Forall timeout_ok (sh_socks sh) -> Forall timeout_ok (sh_socks sh').
Proof.
  intros Hs Hto. apply thread_step_Some in Hs as (_ & _ & Hs).
  destruct t as [[port pc|port pc|pc] w se er]; simpl in *; destruct pc; simpl in *;
    repeat (case_match; simpl in Hs); simplify_eq/=; try done;
    first [ by apply sock_close_timeouts | by apply sock_release_timeouts
          | match goal with
            | H : create_socket ?v ?p ?o ?tb = (_, ?l, _) |- _ =>
                apply sock_release_timeouts || idtac; exact (create_socket_timeouts v p o tb _ l _ H Hto)
            | H : sock_connect ?a ?b ?c ?d ?f ?tb = (_, ?l, _) |- _ =>
                pose proof (sock_connect_timeouts a b c d f tb Hto) as Hc; rewrite H in Hc; exact Hc
            end ].
Qed.

(** Once the flag is false, the time still to wait plus the time still
    possible on the way out never grows, provided the network answers a
    UDP send within [D] ms: a TCP call blocks at most its 5 s timeout. *)
Lemma thread_step_wake D e sh t sh' t' :
  thread_step cfg e sh t = Some (sh', t') -> 0 <= D -> env_delay e <= D ->
  Forall timeout_ok (sh_socks sh) -> socket_typed (sh_socks sh) (th_body t) ->
  sh_running sh = false ->
  Z.max 0 (th_wake t' - sh_clock sh) + exit_sleep D (th_body t') <= exit_sleep D (th_body t).
Proof.
  intros Hs HD He Hto Hty Hr. apply thread_step_Some in Hs as (Hf & Hw & Hs).
  destruct t as [[port pc|port pc|pc] w se er]; simpl in *;
    destruct pc; simpl in *; rewrite ?Hr in Hs; simpl in Hs; try discriminate;
    try call_facts Hto; repeat (case_match; simpl in Hs); simplify_eq/=;
    try (destruct Hb as [Hb1 Hb2]; try specialize (Hb2 (fun s Hs => Hty _ s eq_refl Hs))); lia.
Qed.

(** Whatever the flag, a TCP sender or the reporter can still spend at
    most 10.1 s, respectively 1 s, in waits and blocking calls before its
    next loop test. *)
Lemma thread_step_wake_bound e sh t sh' t' :
  thread_step cfg e sh t = Some (sh', t') -> is_udp (th_body t) = false ->
  Forall timeout_ok (sh_socks sh) -> socket_typed (sh_socks sh) (th_body t) ->
  Z.max 0 (th_wake t' - sh_clock sh) + exit_sleep 0 (th_body t') <= exit_bound (th_body t').
Proof.
  intros Hs Hu Hto Hty. apply thread_step_Some in Hs as (Hf & Hw & Hs).
  destruct t as [[port pc|port pc|pc] w se er]; simpl in *; try discriminate;
    destruct pc; simpl in *; try discriminate;
    try call_facts Hto; repeat (case_match; simpl in Hs); simplify_eq/=;
    try (destruct Hb as [Hb1 Hb2]; specialize (Hb2 (fun s Hs => Hty _ s eq_refl Hs))); lia.
Qed.

(** Once the flag is false every step brings a thread closer to its
    return. *)
Lemma exit_measure_step e sh t sh' t' :
  sh_running sh = false -> thread_step cfg e sh t = Some (sh', t') ->
  (exit_measure t' < exit_measure t)%nat.
Proof.
  intros Hr Hs. apply thread_step_Some in Hs as (Hf & _ & Hs).
  destruct t as [[port pc|port pc|pc] w se er]; simpl in *;
    destruct pc; simpl in *; rewrite ?Hr in Hs; simpl in Hs; try discriminate;
    repeat (case_match; simpl in Hs); simplify_eq/=; unfold exit_measure; simpl; lia.
Qed.

Lemma exit_measure_le t : (exit_measure t <= 7)%nat.
Proof. destruct t as [[port []|port []|[]] w se er]; unfold exit_measure; simpl; lia. Qed.

Lemma exit_measure_zero t : exit_measure t = 0%nat -> finished (th_body t) = true.
Proof. by destruct t as [[port []|port []|[]] w se er]. Qed.

Lemma exit_sleep_bound D b : 0 <= D -> 0 <= exit_sleep D b.
Proof. destruct b as [port []|port []|[]]; simpl; lia. Qed.

Lemma exit_sleep_le_bound b : is_udp b = false -> exit_sleep 0 b <= exit_bound b.
Proof. destruct b as [port []|port []|[]]; simpl; done || lia. Qed.

Lemma exit_sleep_udp_free D b : is_udp b = false -> exit_sleep D b = exit_sleep 0 b.
Proof. by destruct b as [port []|port []|[]]. Qed.

Lemma lookup_snoc_length {A} (l : list A) x : (l ++ [x]) !! length l = Some x.
Proof. rewrite lookup_app_r by lia. by rewrite Nat.sub_diag. Qed.

Lemma thread_step_unfold e sh t :
  finished (th_body t) = false -> th_wake t <= sh_clock sh ->
  thread_step cfg e sh t = Some (match th_body t with
                                 | BTcp port pc => tcp_step cfg port pc e sh t
                                 | BUdp port pc => udp_step cfg port pc e sh t
                                 | BStats pc => stats_step pc sh t
                                 end).
Proof.
  intros Hf Hw. unfold thread_step. rewrite Hf. destruct (Z.leb_spec (th_wake t) (sh_clock sh)); [done|lia].
Qed.

End Lemmas.

(** ** Properties *)

(** C35: a payload is exactly [packet_size] bytes, each an integer in
    0..255, as [bytes(random.getrandbits(8) for _ in range(size))]
    builds it; for a valid configuration it is never empty. *)
Theorem random_data_spec (cfg : AttackConfig) (bits : nat -> Z) :
  Z.of_nat (length (random_data cfg bits)) = Z.max 0 (packet_size cfg) /\
  Forall (fun b => 0 <= b <= 255) (random_data cfg bits) /\
  (valid_config cfg -> random_data cfg bits <> []).
Proof.
  rewrite length_random_data. split; [lia|]. split; [apply random_data_bytes|].
  intros [Hs _] Hnil. pose proof (length_random_data cfg bits) as Hl.
  rewrite Hnil in Hl. simpl in Hl. lia.
Qed.

(** C23: the two senders treat a failed [create_socket] differently.  The
    TCP sender goes straight back to its loop test: no error is counted,
    nothing is slept, the shared statistics are untouched, and the socket
    of the previous iteration, whose last reference the assignment
    [sock = None] drops, is closed.  The UDP
    sender returns: its thread ends, again without counting an error and
    without any socket to close. *)
Theorem create_failure_asymmetry (cfg : AttackConfig) (e : Env) (sh sh' : Shared)
    (t t' : Thread) (port : Z) :
  env_outcome e = Raises ->
  (forall s, th_body t = BTcp port (TCreate s) -> thread_step cfg e sh t = Some (sh', t') ->
   th_body t' = BTcp port (TLoop None) /\ th_errors t' = th_errors t /\ th_wake t' = th_wake t /\
   sh_stats sh' = sh_stats sh /\ sh_socks sh' = sock_release s (sh_socks sh)) /\
  (th_body t = BUdp port UCreate -> thread_step cfg e sh t = Some (sh', t') ->
   th_body t' = BUdp port UDone /\ th_errors t' = th_errors t /\
   sh_stats sh' = sh_stats sh /\ sh_socks sh' = sh_socks sh).
Proof.
  intros Ho. split; [intros s|]; intros Hb Hs; apply thread_step_Some in Hs as (_ & _ & Hs);
    rewrite Hb in Hs; simpl in Hs; rewrite Ho in Hs; simpl in Hs; by simplify_eq.
Qed.

(** C32: the configuration's ports are not range-checked, and a port
    outside 0..65535 can never be reached: every [connect] of the TCP
    sender and every [sendto] of the UDP sender raises, whatever the
    network does, so the thread counts an error and nothing is sent. *)
Theorem bad_port_always_errors (cfg : AttackConfig) (e : Env) (sh sh' : Shared)
    (t t' : Thread) (port : Z) (fd : nat) :
  port_ok port = false ->
  (th_body t = BTcp port (TConnect fd) -> thread_step cfg e sh t = Some (sh', t') ->
   th_body t' = BTcp port (TErrLoad fd) /\ th_errors t' = th_errors t + 1 /\ sh_net sh' = sh_net sh) /\
  (th_body t = BUdp port (USend fd) -> thread_step cfg e sh t = Some (sh', t') ->
   th_body t' = BUdp port (UErrLoad fd) /\ th_errors t' = th_errors t + 1 /\ sh_net sh' = sh_net sh).
Proof.
  intros Hp. split; intros Hb Hs; apply thread_step_Some in Hs as (_ & _ & Hs);
    rewrite Hb in Hs; simpl in Hs.
  - unfold sock_connect in Hs.
    destruct (sh_socks sh !! fd); simpl in Hs; rewrite ?Hp, ?andb_false_r in Hs;
      simpl in Hs; by simplify_eq/=.
  - unfold sock_sendto in Hs.
    destruct (sh_socks sh !! fd); simpl in Hs; rewrite ?Hp, ?andb_false_r in Hs;
      simpl in Hs; by simplify_eq/=.
Qed.

(** C34: the TCP sender's error path never closes its socket.  A
    [connect] or [sendall] that raises sends the thread to the except
    clause with every socket as it was; counting the error, printing
    and the 100 ms backoff leave the socket table alone and bring the
    thread back to its loop test with [sock] still referring to the
    socket.  Only then does the interpreter close it: when the thread
    returns at the loop test, or when the next [sock =
    self.create_socket('tcp')] drops its last reference, whatever
    [create_socket] returns. *)
Theorem tcp_error_keeps_socket (cfg : AttackConfig) (e : Env) (sh sh' : Shared) (t t' : Thread)
    (port : Z) (fd : nat) :
  thread_step cfg e sh t = Some (sh', t') ->
  ((th_body t = BTcp port (TConnect fd) \/ th_body t = BTcp port (TSend fd)) ->
   th_body t' = BTcp port (TErrLoad fd) -> so_shape <$> sh_socks sh' = so_shape <$> sh_socks sh) /\
  (forall r, th_body t = BTcp port (TErrLoad fd) \/ th_body t = BTcp port (TErrStore fd r) ->
   sh_socks sh' = sh_socks sh /\
   ((exists r', th_body t' = BTcp port (TErrStore fd r')) \/ th_body t' = BTcp port (TLoop (Some fd)))) /\
  (th_body t = BTcp port (TLoop (Some fd)) ->
   sh_socks sh' = if sh_running sh then sh_socks sh else sock_close fd (sh_socks sh)) /\
  (th_body t = BTcp port (TCreate (Some fd)) -> exists l, sh_socks sh' = sock_close fd (sh_socks sh ++ l)).
Proof.
  intros Hs. apply thread_step_Some in Hs as (_ & _ & Hs). split; [|split; [|split]].
  - intros [Hb|Hb] Hb'; rewrite Hb in Hs; simpl in Hs.
    + pose proof (sock_connect_shape (target_ip cfg) port (env_outcome e) (env_delay e) fd (sh_socks sh)) as Hsh.
      destruct (sock_connect _ _ _ _ _ _) as [[[] tbl] dt]; injection Hs as Hs1 Hs2; subst sh' t'; simpl in *; [discriminate|done].
    + destruct (sock_sendall _ _ _ _) as [[] dt]; by injection Hs as Hs1 Hs2; subst sh' t'.
  - intros r [Hb|Hb]; rewrite Hb in Hs; simpl in Hs; injection Hs as Hs1 Hs2; subst sh' t'; simpl; split; eauto.
  - intros Hb. rewrite Hb in Hs. simpl in Hs. destruct (sh_running sh); by injection Hs as Hs1 Hs2; subst sh' t'.
  - intros Hb. rewrite Hb in Hs. simpl in Hs.
    destruct (create_socket _ _ _ _) as [[[fd'|] tbl] out] eqn:Ec; injection Hs as Hs1 Hs2; subst sh' t'; simpl.
    + destruct (create_socket_fresh _ _ _ _ _ _ _ Ec) as (_ & _ & _ & s0 & -> & _). by exists [s0].
    + destruct (create_socket_none _ _ _ _ _ _ Ec) as (-> & _). exists []. by rewrite app_nil_r.
Qed.

(** C24: once [self.running] is false every thread is on its way out:
    each step it takes strictly decreases [exit_measure], which is zero
    exactly on returned threads, so a worker returns within at most seven
    of its own steps (one iteration plus its sleep). *)
Theorem exit_measure_decreases (cfg : AttackConfig) (e : Env) (sh sh' : Shared) (t t' : Thread) :
  sh_running sh = false -> thread_step cfg e sh t = Some (sh', t') ->
  (exit_measure t' < exit_measure t)%nat /\ (exit_measure t <= 7)%nat /\
  sh_running sh' = false.
Proof.
  intros Hr Hs. split; [by apply (exit_measure_step cfg e sh t sh' t')|].
  split; [apply exit_measure_le|]. destruct (thread_step_clock cfg e _ _ _ _ Hs) as (_ & -> & _). done.
Qed.

(** The socket [create_socket('tcp')] returns, once connected. *)
Definition connected_tcp (ip : string) (port : Z) : Socket :=
  {| so_type := SOCK_STREAM; so_timeout := Some 5000; so_reuseaddr := true;
     so_peer := Some (ip, port); so_open := true |}.

(** C10: one iteration of [send_tcp_packets] against a network that
    accepts everything at once: six steps take the thread from the loop test to
    the close; the assignment of [create_socket]'s result releases the
    socket of the previous iteration, the new socket (the next
    descriptor) is connected to the target, exactly one payload of
    [packet_size] bytes is on the wire, the local and the shared count
    are each one higher, and the thread sleeps 10 ms; the next step, once
    the clock allows it, closes that socket and returns to the loop test
    with [sock] still referring to it. *)
Theorem tcp_iteration_success (cfg : AttackConfig) (e : Env) (sh : Shared) (t : Thread)
    (port : Z) (s : option nat) :
  env_outcome e = Succeeds -> env_delay e = 0 -> th_body t = BTcp port (TLoop s) -> sh_running sh = true ->
  th_wake t <= sh_clock sh -> port_ok port = true ->
  (forall p, s = Some p -> (p < length (sh_socks sh))%nat) ->
  let fd := length (sh_socks sh) in
  exists sh1 t1, thread_run cfg (repeat e 6) sh t = Some (sh1, t1) /\
    th_body t1 = BTcp port (TClose fd) /\ th_wake t1 = sh_clock sh + 10 /\
    th_sent t1 = th_sent t + 1 /\ th_errors t1 = th_errors t /\
    tcp_sent (sh_stats sh1) = tcp_sent (sh_stats sh) + 1 /\ errors (sh_stats sh1) = errors (sh_stats sh) /\
    sh_net sh1 = sh_net sh ++ [mkPacket SOCK_STREAM port (random_data cfg (env_bits e))] /\
    sh_socks sh1 = sock_release s (sh_socks sh) ++ [connected_tcp (target_ip cfg) port] /\
    forall sh2, th_wake t1 <= sh_clock sh2 ->
      exists t3, thread_step cfg e sh2 t1 = Some (set_socks (sock_close fd (sh_socks sh2)) sh2, t3) /\
        th_body t3 = BTcp port (TLoop (Some fd)).
Proof.
  intros Ho Hd Hb Hr Hw Hp Hs. cbv zeta.
  destruct t as [b w se er]; simpl in *; subst b.
  assert (Hrel : forall x, sock_release s (sh_socks sh ++ [x]) = sock_release s (sh_socks sh) ++ [x]).
  { intros x. destruct s as [p|]; [|done]. simpl. unfold sock_close.
    rewrite alter_app_l; [done|]. by apply Hs. }
  assert (Hlen : length (sock_release s (sh_socks sh)) = length (sh_socks sh)).
  { destruct s; [apply length_sock_close|done]. }
  (* the six steps, one by one *)
  simpl. rewrite thread_step_unfold by (simpl; done || lia). simpl. rewrite Hr.
  rewrite thread_step_unfold by (simpl; done || lia). simpl.
  unfold create_socket. rewrite Ho. simpl. rewrite Hrel.
  rewrite thread_step_unfold by (simpl; done || lia). simpl.
  unfold sock_connect. simpl. rewrite lookup_app_r, Hlen, Nat.sub_diag by lia. simpl.
  rewrite Hp, Ho, Hd. simpl.
  rewrite thread_step_unfold by (simpl; done || lia). simpl.
  unfold sock_sendall. simpl. rewrite list_lookup_insert_eq by (rewrite length_app; simpl; lia).
  simpl. rewrite Ho, Hd. simpl.
  rewrite thread_step_unfold by (simpl; done || lia). simpl.
  rewrite thread_step_unfold by (simpl; done || lia). simpl.
  eexists _, _. split; [reflexivity|]. simpl.
  do 6 (split; [first [reflexivity | lia]|]).
  split; [reflexivity|].
  split; [by rewrite insert_app_r_alt, Hlen, Nat.sub_diag by lia|].
  intros sh2 Hw2. rewrite thread_step_unfold by (simpl; done || lia). simpl.
  by eexists.
Qed.

(** C13: one iteration of the loop of [send_udp_packets] on an open
    socket (without a timeout, as [create_socket('udp')] makes it)
    against a network that accepts everything at once: four steps take
    the thread from the loop test back to it, with exactly one datagram
    of [packet_size] bytes on the wire, the local and the shared count
    each one higher, the socket table unchanged and a 1 ms sleep. *)
Theorem udp_iteration_success (cfg : AttackConfig) (e : Env) (sh : Shared) (t : Thread)
    (port : Z) (fd : nat) (s : Socket) :
  env_outcome e = Succeeds -> env_delay e = 0 -> th_body t = BUdp port (ULoop fd) -> sh_running sh = true ->
  th_wake t <= sh_clock sh -> port_ok port = true ->
  sh_socks sh !! fd = Some s -> so_open s = true -> so_timeout s = None ->
  exists sh1 t1, thread_run cfg (repeat e 4) sh t = Some (sh1, t1) /\
    th_body t1 = BUdp port (ULoop fd) /\ th_wake t1 = sh_clock sh + 1 /\
    th_sent t1 = th_sent t + 1 /\ th_errors t1 = th_errors t /\
    udp_sent (sh_stats sh1) = udp_sent (sh_stats sh) + 1 /\ errors (sh_stats sh1) = errors (sh_stats sh) /\
    sh_net sh1 = sh_net sh ++ [mkPacket SOCK_DGRAM port (random_data cfg (env_bits e))] /\
    sh_socks sh1 = sh_socks sh.
Proof.
  intros Ho Hd Hb Hr Hw Hp Hs Hopen Hto.
  destruct t as [b w se er]; simpl in *; subst b.
  simpl. rewrite thread_step_unfold by (simpl; done || lia). simpl. rewrite Hr.
  rewrite thread_step_unfold by (simpl; done || lia). simpl.
  unfold sock_sendto, call_time. rewrite Hs, Hopen, Hp, Hto, Hd, Ho. simpl.
  rewrite thread_step_unfold by (simpl; done || lia). simpl.
  rewrite thread_step_unfold by (simpl; done || lia). simpl.
  eexists _, _. split; [reflexivity|]. simpl.
  repeat split; lia.
Qed.

(** ** Witnesses, on the default configuration (ports 80 and 554,
    1024-byte payloads). *)

Definition sh_at (now : Z) (running : bool) (tbl : list Socket) : Shared :=
  {| sh_clock := now; sh_running := running; sh_stats := stats_init;
     sh_socks := tbl; sh_net := []; sh_out := [] |}.

Definition env_fail : Env := mkEnv Raises (fun _ => 0) 0 0.
Definition env_succeed : Env := mkEnv Succeeds (fun i => Z.of_nat i) 0 0.

Definition open_tcp_socket : Socket :=
  {| so_type := SOCK_STREAM; so_timeout := Some 5000; so_reuseaddr := true;
     so_peer := None; so_open := true |}.

Definition open_udp_socket : Socket :=
  {| so_type := SOCK_DGRAM; so_timeout := None; so_reuseaddr := true;
     so_peer := None; so_open := true |}.

Lemma random_data_spec_witness :
  length (random_data sample_config (fun i => Z.of_nat i * 7)) = 1024%nat /\
  random_data sample_config (fun i => Z.of_nat i * 7) <> [].
Proof.
  split; [vm_compute; reflexivity|].
  apply (random_data_spec sample_config (fun i => Z.of_nat i * 7)). unfold valid_config; simpl; lia.
Defined.

Lemma create_failure_asymmetry_witness :
  exists sh' t', thread_step sample_config env_fail (sh_at 0 true [open_tcp_socket])
                   (new_thread (BTcp 80 (TCreate (Some 0%nat))) 0) = Some (sh', t') /\
    th_body t' = BTcp 80 (TLoop None) /\ th_errors t' = 0 /\
    sh_socks sh' = sock_release (Some 0%nat) [open_tcp_socket].
Proof.
  destruct (thread_step sample_config env_fail (sh_at 0 true [open_tcp_socket])
              (new_thread (BTcp 80 (TCreate (Some 0%nat))) 0)) as [[sh' t']|] eqn:E;
    [|vm_compute in E; discriminate].
  exists sh', t'. split; [reflexivity|].
  destruct (proj1 (create_failure_asymmetry sample_config env_fail (sh_at 0 true [open_tcp_socket]) sh'
                     (new_thread (BTcp 80 (TCreate (Some 0%nat))) 0) t' 80 eq_refl) (Some 0%nat) eq_refl E)
    as (Hb & He & _ & _ & Hso).
  split; [exact Hb|]. split; [rewrite He; reflexivity|]. exact Hso.
Defined.

Lemma bad_port_always_errors_witness :
  exists sh' t', thread_step sample_config env_succeed (sh_at 0 true [open_tcp_socket])
                   (new_thread (BTcp 70000 (TConnect 0)) 0) = Some (sh', t') /\
    th_body t' = BTcp 70000 (TErrLoad 0) /\ th_errors t' = 1.
Proof.
  destruct (thread_step sample_config env_succeed (sh_at 0 true [open_tcp_socket])
              (new_thread (BTcp 70000 (TConnect 0)) 0)) as [[sh' t']|] eqn:E;
    [|vm_compute in E; discriminate].
  exists sh', t'. split; [reflexivity|].
  destruct (proj1 (bad_port_always_errors sample_config env_succeed (sh_at 0 true [open_tcp_socket]) sh'
                     (new_thread (BTcp 70000 (TConnect 0)) 0) t' 70000 0 eq_refl) eq_refl E)
    as (Hb & He & _).
  split; [exact Hb|]. rewrite He. reflexivity.
Defined.

Lemma exit_measure_decreases_witness :
  exists sh' t', thread_step sample_config env_succeed (sh_at 0 false []) (new_thread (BUdp 80 (USend 0)) 0)
                   = Some (sh', t') /\ (exit_measure t' < 5)%nat.
Proof.
  destruct (thread_step sample_config env_succeed (sh_at 0 false []) (new_thread (BUdp 80 (USend 0)) 0))
    as [[sh' t']|] eqn:E; [|vm_compute in E; discriminate].
  exists sh', t'. split; [reflexivity|].
  exact (proj1 (exit_measure_decreases sample_config env_succeed (sh_at 0 false []) sh'
                 (new_thread (BUdp 80 (USend 0)) 0) t' eq_refl E)).
Defined.

(** A second iteration, after an error left socket 0 open: the new
    socket is 1, and socket 0 is closed when [sock] is rebound. *)
Lemma tcp_iteration_success_witness :
  exists sh1 t1, thread_run sample_config (repeat env_succeed 6) (sh_at 0 true [open_tcp_socket])
                   (new_thread (BTcp 80 (TLoop (Some 0%nat))) 0) = Some (sh1, t1) /\
    th_body t1 = BTcp 80 (TClose 1) /\ tcp_sent (sh_stats sh1) = 1 /\
    option_map so_open (sh_socks sh1 !! 0%nat) = Some false.
Proof.
  destruct (tcp_iteration_success sample_config env_succeed (sh_at 0 true [open_tcp_socket])
              (new_thread (BTcp 80 (TLoop (Some 0%nat))) 0) 80 (Some 0%nat)
              eq_refl eq_refl eq_refl eq_refl (Z.le_refl 0) eq_refl ltac:(intros p [= <-]; simpl; lia))
    as (sh1 & t1 & H1 & H2 & _ & _ & _ & H6 & _ & _ & H9 & _).
  exists sh1, t1. split; [exact H1|]. split; [exact H2|]. split; [rewrite H6; reflexivity|].
  rewrite H9. reflexivity.
Defined.

Lemma udp_iteration_success_witness :
  exists sh1 t1, thread_run sample_config (repeat env_succeed 4) (sh_at 0 true [open_udp_socket])
                   (new_thread (BUdp 554 (ULoop 0)) 0) = Some (sh1, t1) /\
    th_body t1 = BUdp 554 (ULoop 0) /\ udp_sent (sh_stats sh1) = 1.
Proof.
  destruct (udp_iteration_success sample_config env_succeed (sh_at 0 true [open_udp_socket])
              (new_thread (BUdp 554 (ULoop 0)) 0) 554 0 open_udp_socket
              eq_refl eq_refl eq_refl eq_refl (Z.le_refl 0) eq_refl eq_refl eq_refl eq_refl)
    as (sh1 & t1 & H1 & H2 & _ & _ & _ & H6 & _).
  exists sh1, t1. split; [exact H1|]. split; [exact H2|]. rewrite H6. reflexivity.
Defined.

(** A [connect] refused by the network: socket 0 stays open. *)
Lemma tcp_error_keeps_socket_witness :
  exists sh' t', thread_step sample_config env_fail (sh_at 0 true [open_tcp_socket])
                   (new_thread (BTcp 80 (TConnect 0)) 0) = Some (sh', t') /\
    th_body t' = BTcp 80 (TErrLoad 0) /\ so_shape <$> sh_socks sh' = [(SOCK_STREAM, true)].
Proof.
  destruct (thread_step sample_config env_fail (sh_at 0 true [open_tcp_socket])
              (new_thread (BTcp 80 (TConnect 0)) 0)) as [[sh' t']|] eqn:E; [|vm_compute in E; discriminate].
  assert (Hb : th_body t' = BTcp 80 (TErrLoad 0)) by (vm_compute in E; by injection E as _ <-).
  exists sh', t'. split; [reflexivity|]. split; [exact Hb|].
  exact (proj1 (tcp_error_keeps_socket sample_config env_fail _ _ _ _ 80 0 E) (or_introl eq_refl) Hb).
Defined.

End Worker.
