(* ===== verification/System.v ===== *)
(** * System: [start], [stop] and the interleaving of all threads

    Models [PacketSender.start] (src/camjammer.py lines 116-158) and
    [PacketSender.stop] (lines 160-171) as the main thread's program, and
    the whole process as a state machine: the main thread, the pool of
    threads it spawned, the shared state of the Worker component.  A step
    is a step of one thread chosen by the scheduler (CPython's GIL lets
    any runnable thread go next), a step of the main thread, a
    [KeyboardInterrupt] delivered to the main thread (CPython runs the
    signal handler in the main thread between two of its bytecodes, so it
    can arrive at any position of [start] or [stop]), or the clock moving
    forward.  [stop] runs as several positions of the main thread:
    clearing the flag ([M_Stop]), reading the clock ([M_Elapsed]), one
    position per print ([M_Print], each print reading the live
    counters) and the return ([M_Return]); the duration path's [stop]
    is inside the [try], the except clause's [stop] is not.  [step] is the relation and [exec] the same
    step as an executable function of the scheduler's choice, so that
    concrete interleavings run by [vm_compute].

    The threads are daemon threads and are never joined: when the main
    thread returns ([M_Exit]) the interpreter exits and kills them.  The
    relation still lets them step after [M_Exit]; every invariant of the
    Invariants component holds a fortiori for runs cut at the exit.
    This file also proves what the main thread alone does from the
    start: it spawns exactly the Distributor's plan. *)

From stdpp Require Import base list decidable strings relations.
From Stdlib Require Import ZArith QArith Lia.
From S2P Require Import Prelude Config Distributor Stats Socket Worker.

Open Scope Z_scope.
Import Config Distributor Stats Socket Worker.

Module System.

(** Positions of the main thread in [start] and [stop]. *)
Inductive MainPc :=
| M_Banner                       (* the four prints of lines 118-121 *)
| M_SetRunning                   (* self.running = True *)
| M_SetStart                     (* self.stats['start_time'] = time.time() *)
| M_Spawn (plan : list Worker)   (* the two spawning loops, targets left *)
| M_SpawnStats                   (* stats_thread.start() *)
| M_Wait                         (* if self.config.duration: *)
| M_Sleep                        (* time.sleep(self.config.duration) *)
| M_Poll                         (* while self.running: time.sleep(0.1) *)
| M_Stop (handler : bool)        (* stop(): self.running = False; [handler]: called by the except clause *)
| M_Elapsed (handler : bool)     (* stop(): elapsed = time.time() - self.stats['start_time'] *)
| M_Print (handler : bool) (el : Q) (l : SummaryLine)  (* stop(): the print of line [l] *)
| M_Return (handler : bool)      (* stop() has returned into start *)
| M_Exit                         (* start returned; the process exits *)
| M_Crash                        (* an uncaught exception ended the main thread *)
| M_Abort (m : MainPc).          (* an uncaught KeyboardInterrupt ended it at [m] *)

Record World := mkWorld {
  w_sh : Shared;
  w_main : MainPc;
  w_main_wake : Z;
  w_pool : list Thread;
  w_threads : list nat           (* self.threads: the sender threads' indices *)
}.

(** The scheduler's choices. *)
Inductive Choice :=
| C_thread (i : nat) (e : Env)
| C_main
| C_interrupt
| C_tick (dt : Z).

Definition set_running (b : bool) (sh : Shared) : Shared :=
  {| sh_clock := sh_clock sh; sh_running := b; sh_stats := sh_stats sh;
     sh_socks := sh_socks sh; sh_net := sh_net sh; sh_out := sh_out sh |}.

Definition advance (dt : Z) (sh : Shared) : Shared :=
  {| sh_clock := sh_clock sh + dt; sh_running := sh_running sh; sh_stats := sh_stats sh;
     sh_socks := sh_socks sh; sh_net := sh_net sh; sh_out := sh_out sh |}.

Definition with_sh (sh : Shared) (w : World) : World :=
  {| w_sh := sh; w_main := w_main w; w_main_wake := w_main_wake w;
     w_pool := w_pool w; w_threads := w_threads w |}.

Definition with_main (m : MainPc) (wake : Z) (sh : Shared) (w : World) : World :=
  {| w_sh := sh; w_main := m; w_main_wake := wake; w_pool := w_pool w; w_threads := w_threads w |}.

Definition spawn (t : Thread) (sender : bool) (m : MainPc) (w : World) : World :=
  {| w_sh := w_sh w; w_main := m; w_main_wake := w_main_wake w;
     w_pool := w_pool w ++ [t];
     w_threads := if sender then w_threads w ++ [length (w_pool w)] else w_threads w |}.

Definition upd_thread (i : nat) (sh : Shared) (t : Thread) (w : World) : World :=
  {| w_sh := sh; w_main := w_main w; w_main_wake := w_main_wake w;
     w_pool := <[i := t]> (w_pool w); w_threads := w_threads w |}.

(** [threading.Thread(target=self.send_tcp_packets, args=(port,))] and
    its UDP twin, at the entry of the target. *)
Definition body_of (x : Worker) : Body :=
  match x with
  | TcpWorker p => BTcp p (TLoop None)
  | UdpWorker p => BUdp p UCreate
  end.

(** The positions inside the [try] of lines 147-155, whose
    [except KeyboardInterrupt] catches an interrupt: the duration test,
    both waits, and the whole [stop] the duration path calls, up to its
    return into [start].  The spawning loops come before the [try], and
    the [stop] of the except clause is outside it. *)
Definition in_try (m : MainPc) : bool :=
  match m with
  | M_Wait | M_Sleep | M_Poll | M_Stop false | M_Elapsed false | M_Print false _ _
  | M_Return false => true
  | _ => false
  end.

Section Sys.

Context (cfg : AttackConfig).

(** [PacketSender(config)]: [running = False], no threads, zero counters,
    no start time (lines 20-29), and [start] about to run. *)
Definition init_world (now : Z) : World :=
  {| w_sh := {| sh_clock := now; sh_running := false; sh_stats := stats_init;
                sh_socks := []; sh_net := []; sh_out := [] |};
     w_main := M_Banner; w_main_wake := now; w_pool := []; w_threads := [] |}.

(** One step of the main thread. *)
Definition main_step (w : World) : option World :=
  let sh := w_sh w in
  let now := sh_clock sh in
  if negb (w_main_wake w <=? now) then None else
  match w_main w with
  | M_Banner =>
      Some (with_main M_SetRunning now (emit [O_banner (target_ip cfg) (ports cfg) (duration cfg)] sh) w)
  | M_SetRunning => Some (with_main M_SetStart now (set_running true sh) w)
  | M_SetStart =>
      Some (with_main (M_Spawn (launch_plan cfg)) now (set_stats (set_start now (sh_stats sh)) sh) w)
  | M_Spawn (x :: xs) => Some (spawn (new_thread (body_of x) now) true (M_Spawn xs) w)
  | M_Spawn [] => Some (with_main M_SpawnStats now sh w)
  | M_SpawnStats => Some (spawn (new_thread (BStats RLoop) now) false M_Wait w)
  | M_Wait =>
      (* [if self.config.duration]: [None] and [0] are false *)
      match duration cfg with
      | Some d =>
          if d =? 0 then Some (with_main M_Poll now sh w)
          else if d <? 0 then Some (with_main M_Crash now sh w)   (* ValueError from time.sleep *)
          else Some (with_main M_Sleep (now + d * 1000) sh w)
      | None => Some (with_main M_Poll now sh w)
      end
  | M_Sleep => Some (with_main (M_Stop false) now sh w)
  | M_Poll =>
      if sh_running sh then Some (with_main M_Poll (now + 100) sh w)
      else Some (with_main M_Exit now sh w)
  | M_Stop h => Some (with_main (M_Elapsed h) now (set_running false sh) w)
  | M_Elapsed h =>
      match start_time (sh_stats sh) with
      | Some t0 => Some (with_main (M_Print h (elapsed_secs t0 now) L_completed) now sh w)
      | None => Some (with_main M_Crash now sh w)                (* TypeError *)
      end
  | M_Print h el l =>
      let '(o, nxt) := print_line l el (sh_stats sh) in
      Some (with_main (from_option (M_Print h el) (M_Return h) nxt) now (emit o sh) w)
  | M_Return _ => Some (with_main M_Exit now sh w)
  | M_Exit | M_Crash | M_Abort _ => None
  end.

(** A [KeyboardInterrupt] delivered to the main thread, which wakes it
    from [time.sleep].  Inside the [try]: [except KeyboardInterrupt:
    print("\nStopping attack..."); self.stop()] (lines 156-158).
    Anywhere else it is not caught and ends the main thread with a
    traceback.  Once the main thread has ended there is nothing to
    interrupt. *)
Definition interrupt (w : World) : option World :=
  let sh := w_sh w in
  match w_main w with
  | M_Exit | M_Crash | M_Abort _ => None
  | m => Some (if in_try m then with_main (M_Stop true) (sh_clock sh) (emit [O_stopping] sh) w
               else with_main (M_Abort m) (sh_clock sh) sh w)
  end.

Definition exec (c : Choice) (w : World) : option World :=
  match c with
  | C_thread i e =>
      match w_pool w !! i with
      | Some t => match thread_step cfg e (w_sh w) t with
                  | Some (sh', t') => Some (upd_thread i sh' t' w)
                  | None => None
                  end
      | None => None
      end
  | C_main => main_step w
  | C_interrupt => interrupt w
  | C_tick dt => if 0 <? dt then Some (with_sh (advance dt (w_sh w)) w) else None
  end.

Fixpoint run (cs : list Choice) (w : World) : option World :=
  match cs with
  | [] => Some w
  | c :: cs' => match exec c w with Some w' => run cs' w' | None => None end
  end.

Inductive step : World -> World -> Prop :=
| step_thread w i e t sh' t' :
    w_pool w !! i = Some t -> thread_step cfg e (w_sh w) t = Some (sh', t') ->
    step w (upd_thread i sh' t' w)
| step_main w w' : main_step w = Some w' -> step w w'
| step_interrupt w w' : interrupt w = Some w' -> step w w'
| step_tick w dt : 0 < dt -> step w (with_sh (advance dt (w_sh w)) w).

Definition reachable (w : World) : Prop := exists now, rtc step (init_world now) w.

End Sys.

(** ** Lemmas on runs *)

Section Lemmas.
Context (cfg : AttackConfig).

Lemma exec_step c w w' : exec cfg c w = Some w' -> step cfg w w'.
Proof.
  destruct c as [i e| | |dt]; simpl.
  - destruct (w_pool w !! i) as [t|] eqn:Et; [|done].
    destruct (thread_step cfg e (w_sh w) t) as [[sh' t']|] eqn:Es; [|done].
    intros [= <-]. by eapply step_thread.
  - apply step_main.
  - by apply step_interrupt.
  - destruct (Z.ltb_spec 0 dt); [intros [= <-]; by constructor|done].
Qed.

Lemma step_exec w w' : step cfg w w' -> exists c, exec cfg c w = Some w'.
Proof.
  intros Hstep. destruct Hstep as [w0 k e t sh' t' Ht Hs|w0 w1 Hm|w0 w1 Hi|w0 dt Hdt].
  - exists (C_thread k e). simpl. by rewrite Ht, Hs.
  - by exists C_main.
  - by exists C_interrupt.
  - exists (C_tick dt). simpl. destruct (Z.ltb_spec 0 dt); [done|lia].
Qed.

(** What an interrupt does: it leaves the threads alone, wakes the
    main thread, and either enters the except clause or ends the main
    thread where it was. *)
Lemma interrupt_spec w w' :
  interrupt w = Some w' ->
  w_pool w' = w_pool w /\ w_threads w' = w_threads w /\ w_main_wake w' = sh_clock (w_sh w) /\
  w_main w <> M_Exit /\
  ((in_try (w_main w) = true /\ w_main w' = M_Stop true /\ w_sh w' = emit [O_stopping] (w_sh w)) \/
  (in_try (w_main w) = false /\ w_main w' = M_Abort (w_main w) /\ w_sh w' = w_sh w)).
Proof.
  unfold interrupt. destruct (w_main w) as [| | |xs| | | | |[]|[]|[] el l|[]| | |m] eqn:Em; intros Hi; simplify_eq/=;
    (split; [done|]); (split; [done|]); (split; [done|]); (split; [done|]); first [by left | by right].
Qed.

Lemma interrupt_frame w w' :
  interrupt w = Some w' ->
  w_pool w' = w_pool w /\ sh_stats (w_sh w') = sh_stats (w_sh w) /\
  sh_socks (w_sh w') = sh_socks (w_sh w) /\ sh_net (w_sh w') = sh_net (w_sh w) /\
  sh_clock (w_sh w') = sh_clock (w_sh w) /\ sh_running (w_sh w') = sh_running (w_sh w).
Proof. intros Hi. by destruct (interrupt_spec w w' Hi) as (-> & _ & _ & _ & [(_ & _ & ->)|(_ & _ & ->)]). Qed.

Lemma run_app a b w0 w1 : run cfg a w0 = Some w1 -> run cfg (a ++ b) w0 = run cfg b w1.
Proof.
  revert w0. induction a as [|c a IH]; intros w0; simpl; [by intros [= ->]|].
  destruct (exec cfg c w0); [apply IH|done].
Qed.

Lemma run_rtc cs w w' : run cfg cs w = Some w' -> rtc (step cfg) w w'.
Proof.
  revert w. induction cs as [|c cs IH]; simpl; intros w.
  - intros [= <-]. apply rtc_refl.
  - destruct (exec cfg c w) as [w1|] eqn:E; [|done].
    intros H. eapply rtc_l; [by apply (exec_step c)|]. by apply IH.
Qed.

Lemma reach_by_run cs now w : run cfg cs (init_world now) = Some w -> reachable cfg w.
Proof. intros H. exists now. by eapply run_rtc. Qed.

(** The spawning loops run one target per main step. *)
Lemma run_spawn xs w :
  w_main w = M_Spawn xs -> w_main_wake w <= sh_clock (w_sh w) ->
  run cfg (repeat C_main (length xs)) w =
  Some {| w_sh := w_sh w; w_main := M_Spawn []; w_main_wake := w_main_wake w;
          w_pool := w_pool w ++ map (fun x => new_thread (body_of x) (sh_clock (w_sh w))) xs;
          w_threads := w_threads w ++ seq (length (w_pool w)) (length xs) |}.
Proof.
  revert w. induction xs as [|x xs IH]; intros w Hm Hw; simpl.
  - destruct w; simpl in *; subst. by rewrite !app_nil_r.
  - unfold main_step. rewrite Hm. destruct (Z.leb_spec (w_main_wake w) (sh_clock (w_sh w))); [|lia].
    simpl. rewrite IH by (simpl; first [done | lia]). simpl. rewrite <- !app_assoc, length_app. simpl.
    do 3 f_equal. by rewrite Nat.add_1_r.
Qed.

(** [stop] run with no other step in between: it clears the flag, takes
    the elapsed time and prints its six lines, all reading the counters
    of that instant, and returns into [start]. *)
Lemma run_stop h w t0 :
  w_main w = M_Stop h -> w_main_wake w <= sh_clock (w_sh w) ->
  start_time (sh_stats (w_sh w)) = Some t0 ->
  run cfg (repeat C_main 8) w =
  Some (with_main (M_Return h) (sh_clock (w_sh w))
          (emit (print_from 6 L_completed (elapsed_secs t0 (sh_clock (w_sh w))) (sh_stats (w_sh w)))
                (set_running false (w_sh w))) w).
Proof.
  destruct w as [sh m wk pool ths]; simpl. intros -> Hwk Ht0.
  unfold main_step; simpl. rewrite (proj2 (Z.leb_le _ _) Hwk).
  repeat (simpl; rewrite ?Ht0; rewrite Z.leb_refl). simpl.
  unfold with_main, emit, set_running; simpl. rewrite <- !app_assoc, !app_nil_r. reflexivity.
Qed.

Lemma main_step_socks w w' : main_step cfg w = Some w' -> sh_socks (w_sh w') = sh_socks (w_sh w).
Proof.
  unfold main_step. destruct (w_main_wake w <=? sh_clock (w_sh w)); simpl; [|done].
  intros Hm. destruct (w_main w) as [| | |[|x xs]| | | | |h|h|h el l|h| | |m]; simplify_eq;
    repeat (case_match; simplify_eq); done.
Qed.

Lemma lookup_upd_pool (pool : list Thread) k t t' j :
  pool !! k = Some t -> <[k:=t']> pool !! j = if decide (j = k) then Some t' else pool !! j.
Proof.
  intros Hk. case_decide; subst.
  - apply list_lookup_insert_eq. by eapply lookup_lt_Some.
  - by apply list_lookup_insert_ne.
Qed.

End Lemmas.

(** ** The start-up of [start] *)

(** The main thread's run of [start] up to the duration test. *)
Definition boot_run (cfg : AttackConfig) : list Choice :=
  repeat C_main (3 + length (launch_plan cfg) + 2).

(** Runs [start] symbolically up to the duration test and leaves the
    world's components to be compared. *)
Ltac boot_tac cfg now :=
  unfold boot_run; rewrite !repeat_app, <- !app_assoc;
  let w3 := fresh "w3" in
  set (w3 := {| w_sh := set_stats (set_start now stats_init)
                  (set_running true (emit [O_banner (target_ip cfg) (ports cfg) (duration cfg)]
                     {| sh_clock := now; sh_running := false; sh_stats := stats_init;
                        sh_socks := []; sh_net := []; sh_out := [] |}));
                w_main := M_Spawn (launch_plan cfg); w_main_wake := now; w_pool := []; w_threads := [] |});
  let H3 := fresh "H3" in
  assert (H3 : run cfg (repeat C_main 3) (init_world now) = Some w3) by
    (simpl; unfold main_step; simpl; rewrite !Z.leb_refl; simpl; rewrite !Z.leb_refl; simpl;
     rewrite !Z.leb_refl; reflexivity);
  eexists; rewrite (run_app cfg _ _ _ _ H3);
  rewrite (run_app cfg _ _ _ _ (run_spawn cfg (launch_plan cfg) w3 eq_refl ltac:(simpl; lia)));
  simpl; unfold main_step; simpl; rewrite !Z.leb_refl; simpl; rewrite !Z.leb_refl; simpl;
  split; [reflexivity|]; simpl.

(** After [start]'s loops the main thread waits on the duration, with the
    flag set, the start time recorded and the pool the plan plus the
    reporter. *)
Lemma boot_wait (cfg : AttackConfig) (now : Z) :
  exists w, run cfg (boot_run cfg) (init_world now) = Some w /\
    w_main w = M_Wait /\ sh_running (w_sh w) = true /\
    start_time (sh_stats (w_sh w)) = Some now /\
    sh_clock (w_sh w) = now /\ w_main_wake w = now /\
    w_pool w = map (fun x => new_thread (body_of x) now) (launch_plan cfg) ++ [new_thread (BStats RLoop) now] /\
    sh_stats (w_sh w) = set_start now stats_init /\
    sh_out (w_sh w) = [O_banner (target_ip cfg) (ports cfg) (duration cfg)].
Proof. boot_tac cfg now. repeat split. Qed.

(** C4: [start] spawns exactly the Distributor's plan: after the
    banner, the flag, the start time and the two loops, the pool holds one
    thread per planned target, in order and at its entry point, then the
    reporter; [self.threads] lists the senders only; [running] is true and
    the start time is the clock. *)
Theorem start_spawns_plan (cfg : AttackConfig) (now : Z) :
  exists w, run cfg (boot_run cfg) (init_world now) = Some w /\
    w_main w = M_Wait /\ sh_running (w_sh w) = true /\
    start_time (sh_stats (w_sh w)) = Some now /\
    sh_clock (w_sh w) = now /\ w_main_wake w = now /\
    w_pool w = map (fun x => new_thread (body_of x) now) (launch_plan cfg) ++ [new_thread (BStats RLoop) now] /\
    w_threads w = seq 0 (length (launch_plan cfg)).
Proof. boot_tac cfg now. repeat split. Qed.

(** C33: a negative duration crashes [start] after all senders were
    spawned: [time.sleep] raises [ValueError], [stop] never runs, the
    flag stays true and no summary is printed. *)
Theorem negative_duration_crashes (cfg : AttackConfig) (now d : Z) :
  duration cfg = Some d -> d < 0 ->
  exists w, run cfg (boot_run cfg ++ [C_main]) (init_world now) = Some w /\
    w_main w = M_Crash /\ sh_running (w_sh w) = true /\
    length (w_pool w) = S (length (launch_plan cfg)).
Proof.
  intros Hd Hneg. destruct (boot_wait cfg now) as (w & Hw & Hm & Hr & _ & Hc & Hwk & Hp & _).
  rewrite (run_app cfg _ _ _ _ Hw). simpl. unfold main_step. rewrite Hm, Hd, Hc, Hwk, Z.leb_refl.
  simpl. destruct (Z.eqb_spec d 0); [lia|]. destruct (Z.ltb_spec d 0); [|lia].
  eexists. split; [reflexivity|]. simpl. split; [done|]. split; [done|].
  rewrite Hp, length_app, length_map. simpl. lia.
Qed.

End System.
