(* ===== verification/Main.v ===== *)
(** * Main: the command-line entry point

  Models [main] (src/camjammer.py lines 173-212) as the composition the
  code performs: the validation of the Config component, which prints a
  message and exits with status 1, or the construction of the
  configuration, [sender = PacketSender(config)] (the System component's
  initial world at the current clock) and [sender.start()] (the System
  component run under a schedule).  The theorem follows one command line
  through all components: a rejected command line starts nothing, an
  accepted one launches the Distributor's plan within twice the budget. *)

From stdpp Require Import base list strings.
From Stdlib Require Import ZArith Lia.
From S2P Require Import Prelude Config Distributor Stats Socket Worker System.

Open Scope Z_scope.
Import Config Distributor Stats Socket Worker System.

Module Main.

(** What a run of [main] comes to: [sys.exit] with its status and
    message, or a started [PacketSender] with its configuration and the
    world the schedule reaches ([None] when the schedule is not one the
    program can follow). *)
Inductive MainRun :=
| MExit (code : Z) (msg : string)
| MStarted (c : AttackConfig) (w : option World).

(** [main] after [parser.parse_args()]: validation, then
    [PacketSender(config)] at the clock [now] and [sender.start()]. *)
Definition main (a : Args) (now : Z) (cs : list Choice) : MainRun :=
  match validate a with
  | Exit code msg => MExit code msg
  | Run c => MStarted c (run c cs (init_world now))
  end.

(** ** Properties *)

(** C5: end to end, from the command line to the running senders.  A
    command line with a size outside 1..65535 or a non-positive thread
    count exits with status 1 whatever the schedule, before any core
    component starts.  An accepted one starts [PacketSender] on exactly the
    command line's values; once [start] has run its loops, [running] is
    set and the pool holds [2 * len(ports) * min(5, T // len(ports))]
    senders and the reporter, at most [2 * T + 1] threads for the
    budget [T] given with [-t]. *)
Theorem main_end_to_end (a : Args) (now : Z) :
  (~ valid_args a -> forall cs, exists msg, main a now cs = MExit 1 msg) /\
  (valid_args a -> exists w,
     main a now (boot_run (config_of_args a)) = MStarted (config_of_args a) (Some w) /\
     sh_running (w_sh w) = true /\
     length (w_pool w) = S (2 * length (a_ports a) *
                            Z.to_nat (Z.min 5 (a_threads a / Z.of_nat (length (a_ports a)))))%nat /\
     Z.of_nat (length (w_pool w)) <= 2 * a_threads a + 1).
Proof.
  unfold main. split.
  - intros Hv cs. destruct (validate_cases a) as [[_ ?]|[[-> _]|[-> _]]]; [done|by eexists..].
  - intros Hv. destruct (validate_cases a) as [[-> _]|[[_ ?]|[_ [? ?]]]];
      [|unfold valid_args in *; lia..].
    destruct (boot_wait (config_of_args a) now) as (w & Hw & _ & Hr & _ & _ & _ & Hp & _).
    pose proof (plan_within_budget (config_of_args a) ltac:(unfold valid_args in Hv; simpl; lia)).
    exists w. rewrite Hw, Hp, length_app, length_map. simpl.
    unfold launch_plan in *. rewrite length_app, !length_spawn_loop in *.
    repeat split; [done|unfold threads_per_port; simpl; lia|simpl in *; lia].
Qed.

(** ** Witness: the default command line [192.0.2.1 -p 80 554 -t 20]. *)

Lemma main_end_to_end_witness :
  valid_args sample_args /\
  exists w, main sample_args 0 (boot_run sample_config) = MStarted sample_config (Some w) /\
    length (w_pool w) = 21%nat.
Proof.
  assert (Hv : valid_args sample_args) by (unfold valid_args; simpl; lia).
  split; [exact Hv|].
  destruct (proj2 (main_end_to_end sample_args 0) Hv) as (w & Hm & _ & Hl & _).
  exists w. split; [exact Hm|]. rewrite Hl. reflexivity.
Defined.

End Main.
