(* ===== verification/Invariants.v ===== *)
(** * Invariants: what holds in every reachable state of the process

    The invariants of the System component's step relation, each with
    its preservation proof by rule induction over [step] (a thread step,
    a main step, an interrupt, the clock), and the theorems they give:
    the counters never over-count and are exact when the increments are
    exclusive; sockets are owned and never leaked; [self.running], the
    start time and the summary lines follow the main thread; the number
    of summaries begun ([completions], the "Attack completed!" lines)
    is at most two, bounded by where the main thread is ([summary_inv]);
    the time a thread can still be asleep or blocked is bounded
    ([wake_inv]).  The Worker
    component's classification lemmas ([thread_step_field],
    [thread_step_net], [thread_step_sock], [thread_step_out],
    [thread_step_clock]) are all a thread step is used through. *)

From stdpp Require Import base list decidable strings relations.
From Stdlib Require Import ZArith QArith Lia.
From S2P Require Import Prelude Config Distributor Stats Socket Worker System.

Open Scope Z_scope.
Import Config Distributor Stats Socket Worker System.

Module Invariants.

(** ** The invariants *)

Section Inv.
Context (cfg : AttackConfig).

(** The shared counter invariant of key [f]: with [P] the threads between
    their local update and their shared store, and [S] the sum of the
    thread-local counts, the shared value plus [P] never exceeds [S], and
    neither does any value a thread has loaded and not yet stored. *)
Definition counter_inv (f : Field) (w : World) : Prop :=
  let v := get f (sh_stats (w_sh w)) in
  let P := sumZ_with (pendZ f) (w_pool w) in
  let S := sumZ_with (contrib f) (w_pool w) in
  0 <= v /\ v + P <= S /\
  forall i t r, w_pool w !! i = Some t -> reg f (th_body t) = Some r -> 0 <= r /\ r + P <= S.

(** The thread-local counts against the wire: every UDP [sent] is one
    datagram out, every TCP [sent] at least one stream payload out. *)
Definition net_inv (w : World) : Prop :=
  sumZ_with (contrib F_udp_sent) (w_pool w) = n_type SOCK_DGRAM (sh_net (w_sh w)) /\
  sumZ_with (contrib F_tcp_sent) (w_pool w) <= n_type SOCK_STREAM (sh_net (w_sh w)).

(** Threads that have loaded key [f] and not yet stored it. *)
Definition regZ (f : Field) (t : Thread) : Z := if reg f (th_body t) is Some _ then 1 else 0.

(** The increments of [f] are mutually exclusive: at most one thread is
    between the load and the store, as a lock around [+=] would ensure. *)
Definition excl (f : Field) (w : World) : Prop := sumZ_with (regZ f) (w_pool w) <= 1.

#[export] Instance excl_dec f w : Decision (excl f w).
Proof. unfold excl. apply _. Defined.

(** The steps of [step] that keep the increments of [f] exclusive. *)
Definition step_excl (f : Field) (w w' : World) : Prop := step cfg w w' /\ excl f w'.

(** Runs of the scheduler that check exclusivity after every step. *)
Fixpoint run_excl (f : Field) (cs : list Choice) (w : World) : option World :=
  match cs with
  | [] => Some w
  | c :: cs' => match exec cfg c w with
                | Some w' => if decide (excl f w') then run_excl f cs' w' else None
                | None => None
                end
  end.

(** The invariant of exclusive runs: the counter is exact, and the value
    a thread holds between load and store is the current one. *)
Definition exact_inv (f : Field) (w : World) : Prop :=
  get f (sh_stats (w_sh w)) + sumZ_with (pendZ f) (w_pool w) = sumZ_with (contrib f) (w_pool w) /\
  excl f w /\
  forall i t r, w_pool w !! i = Some t -> reg f (th_body t) = Some r -> r = get f (sh_stats (w_sh w)).

(** [self.running] as a function of the main thread's position: set
    before the start time is taken, cleared by [stop]; unknown only at
    the entry of the except clause's [stop], which an interrupt reaches
    either before or after the duration path's [stop] cleared it. *)
Fixpoint running_in (m : MainPc) : option bool :=
  match m with
  | M_Banner | M_SetRunning | M_Elapsed _ | M_Print _ _ _ | M_Return _ | M_Exit => Some false
  | M_Stop true => None
  | M_Abort m' => running_in m'
  | _ => Some true
  end.

(** The start time has been taken. *)
Fixpoint started (m : MainPc) : bool :=
  match m with
  | M_Banner | M_SetRunning | M_SetStart => false
  | M_Abort m' => started m'
  | _ => true
  end.

(** What an uninterrupted run knows about the duration at each position. *)
Definition timed_ok (w : World) : Prop :=
  let st := start_time (sh_stats (w_sh w)) in
  match w_main w with
  | M_Sleep => exists d t0, duration cfg = Some d /\ 0 < d /\ st = Some t0 /\ t0 + d * 1000 <= w_main_wake w
  | M_Stop false | M_Elapsed false =>
      exists d t0, duration cfg = Some d /\ 0 < d /\ st = Some t0 /\ t0 + d * 1000 <= sh_clock (w_sh w)
  | M_Print false el _ => exists d, duration cfg = Some d /\ 0 < d /\ (inject_Z d <= el)%Q
  | M_Return false => exists d, duration cfg = Some d /\ 0 < d
  | M_Stop true | M_Elapsed true | M_Print true _ _ | M_Return true => False
  | M_Poll => duration cfg = None \/ duration cfg = Some 0
  | M_Exit => exists d, duration cfg = Some d /\ 0 < d
  | _ => True
  end.

Definition main_inv (w : World) : Prop :=
  from_option (fun b => sh_running (w_sh w) = b) True (running_in (w_main w)) /\
  (started (w_main w) = false -> start_time (sh_stats (w_sh w)) = None /\ w_pool w = []) /\
  (started (w_main w) = true -> exists t0, start_time (sh_stats (w_sh w)) = Some t0 /\ t0 <= sh_clock (w_sh w)) /\
  (w_main w = M_Crash -> exists d, duration cfg = Some d /\ d < 0) /\
  (O_stopping ∉ sh_out (w_sh w) ->
     timed_ok w /\
     forall o, o ∈ sh_out (w_sh w) -> summary_line o = true ->
       exists d, duration cfg = Some d /\ 0 < d /\
         forall el, o = O_duration el -> (inject_Z d <= el)%Q).

(** Ownership of sockets.  The shapes (type, open flag) of the socket
    table; the socket each thread's [sock] refers to exists and has the
    thread's type; the sockets threads are using are open; no two
    threads refer to the same socket; and every open socket is referred
    to by some thread, so none is leaked beyond a thread's [sock]. *)
Definition shapes (w : World) : list (SockType * bool) := so_shape <$> sh_socks (w_sh w).

Definition socks_typed (w : World) : Prop :=
  forall i t fd, w_pool w !! i = Some t -> sock_ref (th_body t) = Some fd ->
    exists o, shapes w !! fd = Some (body_type (th_body t), o).

Definition socks_open (w : World) : Prop :=
  forall i t fd, w_pool w !! i = Some t -> held (th_body t) = Some fd ->
    shapes w !! fd = Some (body_type (th_body t), true).

Definition socks_unique (w : World) : Prop :=
  forall i j ti tj fd, i <> j -> w_pool w !! i = Some ti -> w_pool w !! j = Some tj ->
    sock_ref (th_body ti) = Some fd -> sock_ref (th_body tj) = Some fd -> False.

Definition socks_owned (w : World) : Prop :=
  forall fd ty, shapes w !! fd = Some (ty, true) ->
    exists i t, w_pool w !! i = Some t /\ sock_ref (th_body t) = Some fd.

Definition sock_inv (w : World) : Prop :=
  socks_typed w /\ socks_open w /\ socks_unique w /\ socks_owned w.

(** The summaries begun so far: the "Attack completed!" lines. *)
Definition is_completed (o : Output) : bool := match o with O_completed => true | _ => false end.

Definition completions (out : list Output) : nat := length (List.filter is_completed out).

(** The most summaries begun when the main thread is at [m]: none before
    the first [stop] has printed its first line, one during the duration
    path's [stop] and during the except clause's until it prints, two
    after that. *)
Fixpoint summary_bound (m : MainPc) : nat :=
  match m with
  | M_Stop true | M_Elapsed true | M_Crash => 1
  | M_Print h _ l => (if h then 1 else 0) + (match l with L_completed => 0 | _ => 1 end)
  | M_Return h => if h then 2 else 1
  | M_Exit => 2
  | M_Abort m' => summary_bound m'
  | _ => 0
  end.

(** The main thread is inside [stop]. *)
Definition in_stop (m : MainPc) : bool :=
  match m with M_Stop _ | M_Elapsed _ | M_Print _ _ _ | M_Return _ => true | _ => false end.

(** What the main thread has printed: the lines no sender or reporter prints. *)
Definition main_lines (out : list Output) : list Output := List.filter (fun o => negb (quiet o)) out.

(** The main thread is in the [stop] of the except clause. *)
Fixpoint handler (m : MainPc) : bool :=
  match m with
  | M_Stop h | M_Elapsed h | M_Print h _ _ | M_Return h => h
  | M_Abort m' => handler m'
  | _ => false
  end.

(** The summaries begun are within the bound of the main thread's
    position, at most one is begun without a caught interrupt, and the
    except clause is only entered by one. *)
Definition summary_inv (w : World) : Prop :=
  (completions (sh_out (w_sh w)) <= summary_bound (w_main w))%nat /\
  (O_stopping ∉ sh_out (w_sh w) -> (completions (sh_out (w_sh w)) <= 1)%nat) /\
  (handler (w_main w) = true -> O_stopping ∈ sh_out (w_sh w)).

(** The sockets carry the timeouts [create_socket] gave them. *)
Definition timeout_inv (w : World) : Prop := Forall timeout_ok (sh_socks (w_sh w)).

(** A TCP sender or the reporter is never further than [exit_bound]
    from its next loop test: the time it still waits (a sleep or a
    blocking call) plus the waits and blocking calls still possible on
    its way there. *)
Definition wake_inv (w : World) : Prop :=
  forall i t, w_pool w !! i = Some t -> is_udp (th_body t) = false ->
    Z.max 0 (th_wake t - sh_clock (w_sh w)) + exit_sleep 0 (th_body t) <= exit_bound (th_body t).

End Inv.

(** ** Preservation *)

Section Lemmas.
Context (cfg : AttackConfig).

(** A spawned thread adds nothing to any count. *)
Lemma body_of_neutral f x now :
  pendZ f (new_thread (body_of x) now) = 0 /\ contrib f (new_thread (body_of x) now) = 0 /\
  reg f (th_body (new_thread (body_of x) now)) = None.
Proof. by destruct x, f. Qed.

Lemma stats_thread_neutral f now :
  pendZ f (new_thread (BStats RLoop) now) = 0 /\ contrib f (new_thread (BStats RLoop) now) = 0 /\
  reg f (th_body (new_thread (BStats RLoop) now)) = None.
Proof. by destruct f. Qed.

(** The heart of the lost-update bound: a thread step preserves the
    counter invariant, whatever its effect on the key. *)
Lemma thread_counter_inv f w i t sh' t' :
  w_pool w !! i = Some t -> field_effect f (get f (sh_stats (w_sh w))) t t' (get f (sh_stats sh')) ->
  counter_inv f w -> counter_inv f (upd_thread i sh' t' w).
Proof.
  intros Ht Heff (Hv & Hle & Hregs). unfold counter_inv, upd_thread; simpl.
  rewrite (sumZ_with_insert (pendZ f) (w_pool w) i t' t Ht), (sumZ_with_insert (contrib f) (w_pool w) i t' t Ht).
  assert (Hlen : (i < length (w_pool w))%nat) by (by eapply lookup_lt_Some).
  assert (Hothers : forall j t2 r, <[i:=t']> (w_pool w) !! j = Some t2 -> j <> i ->
            reg f (th_body t2) = Some r -> 0 <= r /\ r + sumZ_with (pendZ f) (w_pool w) <= sumZ_with (contrib f) (w_pool w)).
  { intros j t2 r Hj Hne. rewrite list_lookup_insert_ne in Hj by done. by apply (Hregs j). }
  unfold pendZ in *.
  destruct Heff as [Hv' Hp Hc Hr|Hv' Hp Hp' Hc Hr|Hv' Hp Hp' Hc Hr Hr'|r Hr Hv' Hp Hp' Hc Hr'];
    rewrite Hv'; rewrite ?Hp, ?Hp', ?Hc in *.
  - split; [done|]. split; [lia|]. intros j t2 r2 Hj Hr2.
    destruct (decide (j = i)) as [->|Hne]; [|by specialize (Hothers j t2 r2 Hj Hne Hr2); lia].
    rewrite list_lookup_insert_eq in Hj by done. injection Hj as <-.
    rewrite Hr in Hr2. specialize (Hregs i t r2 Ht Hr2). lia.
  - split; [done|]. split; [lia|]. intros j t2 r2 Hj Hr2.
    destruct (decide (j = i)) as [->|Hne]; [|by specialize (Hothers j t2 r2 Hj Hne Hr2); lia].
    rewrite list_lookup_insert_eq in Hj by done. injection Hj as <-. congruence.
  - split; [done|]. split; [lia|]. intros j t2 r2 Hj Hr2.
    destruct (decide (j = i)) as [->|Hne]; [|by specialize (Hothers j t2 r2 Hj Hne Hr2); lia].
    rewrite list_lookup_insert_eq in Hj by done. injection Hj as <-.
    rewrite Hr' in Hr2. injection Hr2 as <-. lia.
  - specialize (Hregs i t r Ht Hr). split; [lia|]. split; [lia|]. intros j t2 r2 Hj Hr2.
    destruct (decide (j = i)) as [->|Hne]; [|by specialize (Hothers j t2 r2 Hj Hne Hr2); lia].
    rewrite list_lookup_insert_eq in Hj by done. injection Hj as <-. congruence.
Qed.

(** The main thread never touches a counter and only ever appends a
    fresh thread that counts for nothing. *)
Lemma main_step_pool w w' :
  main_step cfg w = Some w' ->
  (forall f, get f (sh_stats (w_sh w')) = get f (sh_stats (w_sh w))) /\
  (w_pool w' = w_pool w \/
   exists t, w_pool w' = w_pool w ++ [t] /\
     forall f, pendZ f t = 0 /\ contrib f t = 0 /\ reg f (th_body t) = None).
Proof.
  unfold main_step. destruct (w_main_wake w <=? sh_clock (w_sh w)); simpl; [|done].
  intros Hm. destruct (w_main w) as [| | |[|x xs]| | | | |h|h|h el l|h| | |m]; simplify_eq;
    repeat (case_match; simplify_eq); try done;
    simpl; split; try (intros f; by rewrite ?get_set_start); try (by left).
  - right. eexists; split; [done|]. intros f. apply body_of_neutral.
  - right. eexists; split; [done|]. intros f. apply stats_thread_neutral.
Qed.

Lemma main_step_counter_inv f w w' :
  main_step cfg w = Some w' -> counter_inv f w -> counter_inv f w'.
Proof.
  intros Hm Hinv. destruct (main_step_pool w w' Hm) as [Hget [Hp|(t & Hp & Ht)]];
    destruct Hinv as (Hv & Hle & Hregs); unfold counter_inv; rewrite Hget, Hp.
  - auto.
  - destruct (Ht f) as (Hpt & Hct & Hrt). rewrite !sumZ_with_app; simpl. rewrite Hpt, Hct.
    split; [done|]. split; [lia|]. intros i t' r Hi Hr'. apply lookup_app_Some in Hi as [Hi|[_ Hi]].
    + specialize (Hregs i t' r Hi Hr'). lia.
    + apply list_lookup_singleton_Some in Hi as [_ <-]. congruence.
Qed.

Lemma step_counter_inv f w w' : step cfg w w' -> counter_inv f w -> counter_inv f w'.
Proof.
  intros Hstep. destruct Hstep as [w0 k e t sh' t' Ht Hs|w0 w1 Hm|w0 w1 Hi|w0 dt Hdt].
  - apply (thread_counter_inv f w0 k t sh' t' Ht). by eapply thread_step_field.
  - by apply main_step_counter_inv.
  - destruct (interrupt_frame _ _ Hi) as (Hp & Hst & _). unfold counter_inv. by rewrite Hp, Hst.
  - done.
Qed.

Lemma counter_inv_init f now : counter_inv f (init_world now).
Proof.
  unfold counter_inv. destruct f; simpl; (split; [lia|split; [lia|]]);
    intros ? ? ? Hi; by rewrite lookup_nil in Hi.
Qed.

Lemma reachable_counter_inv f w : reachable cfg w -> counter_inv f w.
Proof.
  intros [now Hr]. eapply (rtc_preserved _ (counter_inv f)); [|exact Hr|apply counter_inv_init].
  intros w1 w2. apply step_counter_inv.
Qed.

Lemma step_net_inv w w' : step cfg w w' -> net_inv w -> net_inv w'.
Proof.
  intros Hstep. destruct Hstep as [w0 k e t sh' t' Ht Hs|w0 w1 Hm|w0 w1 Hi|w0 dt Hdt]; try done.
  - intros [Hu Ht']. apply thread_step_net in Hs as (ps & Hnet & Hdg & Hst).
    unfold net_inv, upd_thread; simpl.
    rewrite !(sumZ_with_insert _ (w_pool w0) k t' t Ht), Hnet, !n_type_app. lia.
  - revert Hm. unfold main_step. destruct (w_main_wake w0 <=? sh_clock (w_sh w0)); simpl; [|done].
    intros Hm Hinv.
    destruct (w_main w0) as [| | |[|x xs]| | | | |h|h|h el l|h| | |m]; simplify_eq;
      repeat (case_match; simplify_eq); try done;
      unfold net_inv, spawn in *; simpl; rewrite ?sumZ_with_app; simpl; try (destruct x); simpl; lia.
  - destruct (interrupt_frame _ _ Hi) as (Hp & _ & _ & Hn & _). unfold net_inv. by rewrite Hp, Hn.
Qed.

Lemma reachable_net_inv w : reachable cfg w -> net_inv w.
Proof.
  intros [now Hr]. eapply (rtc_preserved _ net_inv); [|exact Hr|].
  - intros w1 w2. apply step_net_inv.
  - unfold net_inv, n_type. simpl. lia.
Qed.

Lemma regZ_nonneg f (l : list Thread) : forall t, t ∈ l -> 0 <= regZ f t.
Proof. intros t _. unfold regZ. by destruct (reg f (th_body t)). Qed.

Lemma run_excl_rtc f cs w w' :
  run_excl cfg f cs w = Some w' -> rtc (step_excl cfg f) w w'.
Proof.
  revert w. induction cs as [|c cs IH]; simpl; intros w.
  - intros [= <-]. apply rtc_refl.
  - destruct (exec cfg c w) as [w1|] eqn:E; [|done].
    case_decide; [|done]. intros Hrun. eapply rtc_l; [|by apply IH].
    split; [by apply (exec_step cfg c)|done].
Qed.

Lemma thread_exact_inv f w k t sh' t' :
  w_pool w !! k = Some t -> field_effect f (get f (sh_stats (w_sh w))) t t' (get f (sh_stats sh')) ->
  excl f (upd_thread k sh' t' w) -> exact_inv f w -> exact_inv f (upd_thread k sh' t' w).
Proof.
  intros Ht Heff Hex' (Hv & Hex & Hregs). unfold exact_inv, upd_thread in *; simpl in *.
  rewrite (sumZ_with_insert (pendZ f) (w_pool w) k t' t Ht), (sumZ_with_insert (contrib f) (w_pool w) k t' t Ht).
  assert (Hlen : (k < length (w_pool w))%nat) by (by eapply lookup_lt_Some).
  split; [|split; [done|]].
  - unfold pendZ in *. destruct Heff as [Hv' Hp Hc Hr|Hv' Hp Hp' Hc Hr|Hv' Hp Hp' Hc Hr Hr'|r Hr Hv' Hp Hp' Hc Hr'];
      rewrite ?Hp, ?Hp', ?Hc in *; try lia.
    specialize (Hregs k t r Ht Hr). lia.
  - intros j t2 r2 Hj Hr2. destruct (decide (j = k)) as [->|Hne].
    + rewrite list_lookup_insert_eq in Hj by done. injection Hj as <-.
      destruct Heff as [Hv' Hp Hc Hr|Hv' Hp Hp' Hc Hr|Hv' Hp Hp' Hc Hr Hr'|r Hr Hv' Hp Hp' Hc Hr'];
        try congruence.
      rewrite Hv'. rewrite Hr in Hr2. by apply (Hregs k t).
    + rewrite list_lookup_insert_ne in Hj by done.
      specialize (Hregs j t2 r2 Hj Hr2) as Hold.
      destruct Heff as [Hv' Hp Hc Hr|Hv' Hp Hp' Hc Hr|Hv' Hp Hp' Hc Hr Hr'|r Hr Hv' Hp Hp' Hc Hr'];
        try congruence.
      (* the storing thread and a second one both held a value *)
      exfalso. pose proof (sumZ_with_two (regZ f) (w_pool w) k j t t2
          (regZ_nonneg f _) ltac:(congruence) Ht Hj) as H2.
        assert (regZ f t = 1) by (unfold regZ; by rewrite Hr).
        assert (regZ f t2 = 1) by (unfold regZ; by rewrite Hr2).
        unfold excl in Hex. lia.
Qed.

Lemma step_exact_inv f w w' : step_excl cfg f w w' -> exact_inv f w -> exact_inv f w'.
Proof.
  intros [Hstep Hex']. destruct Hstep as [w0 k e t sh' t' Ht Hs|w0 w1 Hm|w0 w1 Hi|w0 dt Hdt]; try done.
  - apply (thread_exact_inv f w0 k t sh' t' Ht); [by eapply thread_step_field|done].
  - intros (Hv & Hex & Hregs). destruct (main_step_pool w0 w1 Hm) as [Hget [Hp|(t & Hp & Ht)]];
      unfold exact_inv; rewrite Hget, Hp; [auto|].
    destruct (Ht f) as (Hpt & Hct & Hrt). rewrite !sumZ_with_app; simpl. rewrite Hpt, Hct.
    split; [lia|]. split; [done|].
    intros i t' r Hi Hr'. apply lookup_app_Some in Hi as [Hi|[_ Hi]]; [by apply (Hregs i t')|].
    apply list_lookup_singleton_Some in Hi as [_ <-]. congruence.
  - destruct (interrupt_frame _ _ Hi) as (Hp & Hst & _). unfold exact_inv, excl. by rewrite Hp, Hst.
Qed.

Lemma out_extend (out l : list Output) :
  Forall (fun o => quiet o = true) l ->
  (O_stopping ∉ out ++ l -> O_stopping ∉ out) /\
  (forall o, o ∈ out ++ l -> summary_line o = true -> o ∈ out).
Proof.
  intros Hq. rewrite Forall_forall in Hq. split.
  - intros Hn Hin. apply Hn, elem_of_app. by left.
  - intros o [Ho|Ho]%elem_of_app Hs; [done|]. specialize (Hq _ Ho). by destruct o.
Qed.

Lemma thread_main_inv w k t sh' t' e :
  w_pool w !! k = Some t -> thread_step cfg e (w_sh w) t = Some (sh', t') ->
  main_inv cfg w -> main_inv cfg (upd_thread k sh' t' w).
Proof.
  intros Ht Hs (Hrun & Hns & Hs0 & Hcr & Hnoint).
  destruct (thread_step_clock cfg e _ _ _ _ Hs) as (Hc & Hr & Hst & _).
  destruct (thread_step_out cfg e _ _ _ _ Hs) as (l & Hout & Hq).
  destruct (out_extend (sh_out (w_sh w)) l Hq) as [Hstop Hsum].
  unfold main_inv, timed_ok, upd_thread in *; simpl in *. rewrite Hc, Hr, Hst, Hout.
  split; [done|]. split.
  { intros Hf. destruct (Hns Hf) as [_ Hp]. rewrite Hp, lookup_nil in Ht. done. }
  split; [done|]. split; [done|].
  intros Hn. destruct (Hnoint (Hstop Hn)) as [Ht0 Hr0]. split; [done|].
  intros o Hin Hl. exact (Hr0 o (Hsum o Hin Hl) Hl).
Qed.

Lemma main_main_inv w w' : main_step cfg w = Some w' -> main_inv cfg w -> main_inv cfg w'.
Proof.
  unfold main_step. destruct (Z.leb_spec (w_main_wake w) (sh_clock (w_sh w))) as [Hwake|]; simpl; [|done].
  intros Hm (Hrun & Hns & Hs0 & Hcr & Hnoint).
  unfold main_inv, timed_ok in *.
  destruct (w_main w) as [| | |[|x xs]| | | | |[]|[]|[] el l|[]| | |m] eqn:Em; simplify_eq/=;
    try (do 4 (split; [done|]); done).
  - (* banner *)
    do 4 (split; [done|]). intros [Hn _]%not_elem_of_app. split; [by apply Hnoint|].
    intros o [Ho|Ho%list_elem_of_singleton]%elem_of_app; [by apply Hnoint|by subst].
  - (* the start time *)
    do 2 (split; [done|]). split; [intros _; eexists; split; [done|lia]|].
    split; [done|]. intros Hn. destruct (Hnoint Hn) as [_ H]. split; [done|]. done.
  - (* the duration test *)
    destruct (Hs0 eq_refl) as (t0 & Ht0 & Hle).
    destruct (duration cfg) as [d|] eqn:Ed; simplify_eq/=.
    + destruct (Z.eqb_spec d 0) as [->|Hd0]; simplify_eq/=.
      * do 4 (split; [done|]). intros Hn. split; [by right|by apply Hnoint].
      * destruct (Z.ltb_spec d 0) as [Hlt|Hge]; simplify_eq/=.
        -- do 3 (split; [done|]). split; [intros _; by exists d|].
           intros Hn. split; [done|by apply Hnoint].
        -- do 4 (split; [done|]). intros Hn. split; [|by apply Hnoint].
           exists d, t0. repeat split; try done; lia.
    + do 4 (split; [done|]). intros Hn. split; [by left|by apply Hnoint].
  - (* the sleep ends *)
    do 4 (split; [done|]).
    intros Hn. destruct (Hnoint Hn) as [(d & t0 & Hd & Hpos & Ht0 & Hw) Hr]. split; [|done].
    exists d, t0. repeat split; try done; lia.
  - (* polling *)
    destruct (sh_running (w_sh w)) eqn:Er; simplify_eq/=. do 4 (split; [done|]). done.
  - (* elapsed, in the except clause *)
    destruct (Hs0 eq_refl) as (t0 & Ht0 & _). rewrite Ht0 in Hm. simplify_eq/=.
    do 4 (split; [done|]). intros Hn. by destruct (Hnoint Hn).
  - (* elapsed, on the duration path *)
    destruct (Hs0 eq_refl) as (t0 & Ht0 & _). rewrite Ht0 in Hm. simplify_eq/=.
    do 4 (split; [done|]). intros Hn. destruct (Hnoint Hn) as [(d & t1 & Hd & Hpos & Ht1 & Hclk) Hsum].
    rewrite Ht0 in Ht1. injection Ht1 as <-. split; [|done].
    exists d. split; [done|]. split; [done|]. by apply elapsed_ge.
  - (* a print of the except clause *)
    destruct (print_line l el _) as [o nxt] eqn:Ep. simplify_eq/=.
    do 4 (split; [by destruct nxt|]). intros [Hn _]%not_elem_of_app. by destruct (Hnoint Hn).
  - (* a print of the duration path *)
    destruct (print_line l el _) as [o nxt] eqn:Ep. simplify_eq/=.
    do 4 (split; [by destruct nxt|]). intros [Hn _]%not_elem_of_app.
    destruct (Hnoint Hn) as [(d & Hd & Hpos & Hle) Hsum].
    split; [destruct nxt; simpl; eauto|].
    intros o' [Ho|Ho]%elem_of_app Hl; [by apply Hsum|].
    exists d. split; [done|]. split; [done|]. intros el' ->.
    rewrite (proj2 (print_line_lines l el _ _ ltac:(by rewrite Ep)) el' eq_refl). done.
  - (* the except clause's stop returns *)
    do 4 (split; [done|]). intros Hn. by destruct (Hnoint Hn).
Qed.

Lemma step_main_inv w w' : step cfg w w' -> main_inv cfg w -> main_inv cfg w'.
Proof.
  intros Hstep. destruct Hstep as [w0 k e t sh' t' Ht Hs|w0 w1 Hm|w0 w1 Hi|w0 dt Hdt].
  - by apply (thread_main_inv w0 k t sh' t' e).
  - by apply main_main_inv.
  - intros (Hrun & Hns & Hs0 & Hcr & Hnoint).
    destruct (interrupt_spec _ _ Hi) as (Hp & _ & _ & _ & [(Htry & Hm & Hsh)|(Htry & Hm & Hsh)]);
      unfold main_inv, timed_ok; rewrite Hm, Hsh, Hp; simpl.
    + assert (Hst : started (w_main w0) = true) by (revert Htry; by destruct (w_main w0) as [| | | | | | | |[]|[]|[] ? ?|[]| | |]).
      split; [done|]. split; [done|]. split; [intros _; by apply Hs0|]. split; [done|].
      intros Hn. exfalso. apply Hn, elem_of_app. right. by left.
    + do 3 (split; [done|]). split; [done|]. intros Hn. split; [done|]. by apply Hnoint.
  - intros (Hrun & Hns & Hs0 & Hcr & Hnoint). unfold main_inv, timed_ok in *; simpl in *.
    split; [done|]. split; [done|]. split.
    { intros Hst. destruct (Hs0 Hst) as (t0 & ? & ?). exists t0. split; [done|lia]. }
    split; [done|]. intros Hn. destruct (Hnoint Hn) as [Hto Hr]. split; [|done].
    destruct (w_main w0) as [| | | | | | | |[]|[]|[] ? ?|[]| | |]; try done; destruct Hto as (d & t0 & ? & ? & ? & ?); exists d, t0; repeat split; try done; lia.
Qed.

Lemma reachable_main_inv w : reachable cfg w -> main_inv cfg w.
Proof.
  intros [now Hr]. eapply (rtc_preserved _ (main_inv cfg)); [|exact Hr|].
  - intros w1 w2. apply step_main_inv.
  - unfold main_inv, timed_ok; simpl. repeat split; try done.
    intros r Hin. by apply not_elem_of_nil in Hin.
Qed.

Lemma main_step_held w w' :
  main_step cfg w = Some w' ->
  w_pool w' = w_pool w \/ exists t, w_pool w' = w_pool w ++ [t] /\ sock_ref (th_body t) = None.
Proof.
  unfold main_step. destruct (w_main_wake w <=? sh_clock (w_sh w)); simpl; [|done].
  intros Hm. destruct (w_main w) as [| | |[|x xs]| | | | |h|h|h el l|h| | |m]; simplify_eq;
    repeat (case_match; simplify_eq); try (by left); right; eexists; split; try done.
  by destruct x.
Qed.

Lemma held_ref b fd : held b = Some fd -> sock_ref b = Some fd.
Proof. destruct b as [p pc|p pc|pc]; [destruct pc|destruct pc|]; simpl; congruence. Qed.

Lemma lookup_close_shape fd (l : list (SockType * bool)) x :
  close_shape fd l !! x = if decide (x = fd) then (fun p => (p.1, false)) <$> l !! x else l !! x.
Proof. unfold close_shape. rewrite list_lookup_alter. repeat case_decide; subst; congruence. Qed.

Lemma shape_new (tbl : list Socket) y : ((so_shape <$> tbl) ++ [y]) !! length tbl = Some y.
Proof. rewrite <- (length_fmap so_shape tbl). apply lookup_snoc_length. Qed.

Lemma shape_old (tbl : list Socket) y x :
  (x < length tbl)%nat -> ((so_shape <$> tbl) ++ [y]) !! x = (so_shape <$> tbl) !! x.
Proof. intros. apply lookup_app_l. by rewrite length_fmap. Qed.

Lemma ref_lt w i t fd :
  socks_typed w -> w_pool w !! i = Some t -> sock_ref (th_body t) = Some fd ->
  (fd < length (sh_socks (w_sh w)))%nat.
Proof.
  intros Ha Hi Hr. destruct (Ha i t fd Hi Hr) as [o Ho].
  apply lookup_lt_Some in Ho. unfold shapes in Ho. by rewrite length_fmap in Ho.
Qed.

(** A thread step keeps each of the four parts of [sock_inv]. *)
Section ThreadSock.

Context (w : World) (k : nat) (t : Thread) (sh' : Shared) (t' : Thread) (e : Env).

Hypothesis Hk : w_pool w !! k = Some t.

Hypothesis Hs : thread_step cfg e (w_sh w) t = Some (sh', t').

Hypothesis Hinv : sock_inv w.

(** Another thread's socket is not the stepping thread's. *)
Lemma other_ref j tj x fd :
  j <> k -> w_pool w !! j = Some tj -> sock_ref (th_body tj) = Some x ->
  sock_ref (th_body t) = Some fd -> x <> fd.
Proof. destruct Hinv as (_ & _ & Hu & _). intros Hne Hj Hx Hfd ->. by apply (Hu j k tj t fd). Qed.

Lemma thread_socks_typed : socks_typed (upd_thread k sh' t' w).
Proof.
  pose proof Hinv as (Ha & _ & _ & _). destruct (thread_step_sock cfg e _ _ _ _ Hs) as [Heff Hty].
  unfold socks_typed, socks_open, socks_unique, socks_owned, shapes in *.
  unfold socks_typed, shapes, upd_thread; simpl. intros j tj x Hj Hr.
  rewrite (lookup_upd_pool _ k t t') in Hj by done.
  destruct (decide (j = k)) as [->|Hne].
  - injection Hj as <-. rewrite Hty.
    destruct Heff as [Hsh Hr' _|_ Hr' _ Hsh|fd Hr0 _ Hr' _ Hsh|fd Hr0 _ Hr' Hsh]; rewrite Hsh, ?Hr' in *.
    + by apply (Ha k t).
    + injection Hr as <-. rewrite shape_new. by eexists.
    + injection Hr as <-. pose proof (ref_lt w k t fd Ha Hk Hr0).
      rewrite lookup_close_shape, decide_False by lia. rewrite shape_new. by eexists.
    + destruct Hr' as [Hr'|Hr']; rewrite Hr' in Hr; [done|injection Hr as <-].
      destruct (Ha k t fd Hk Hr0) as [o Ho]. rewrite lookup_close_shape, decide_True, Ho by done.
      by eexists.
  - destruct (Ha j tj x Hj Hr) as [o Ho]. pose proof (ref_lt w j tj x Ha Hj Hr).
    destruct Heff as [Hsh _ _|_ _ _ Hsh|fd _ _ _ _ Hsh|fd _ _ _ Hsh]; rewrite Hsh;
      rewrite ?lookup_close_shape, ?shape_old by done;
      repeat case_decide; rewrite ?Ho; by eexists.
Qed.

Lemma thread_socks_open : socks_open (upd_thread k sh' t' w).
Proof.
  pose proof Hinv as (Ha & Ho & _ & _). destruct (thread_step_sock cfg e _ _ _ _ Hs) as [Heff Hty].
  unfold socks_typed, socks_open, socks_unique, socks_owned, shapes in *.
  unfold socks_open, shapes, upd_thread; simpl. intros j tj x Hj Hh.
  rewrite (lookup_upd_pool _ k t t') in Hj by done.
  destruct (decide (j = k)) as [->|Hne].
  - injection Hj as <-. rewrite Hty.
    destruct Heff as [Hsh _ Hh'|_ _ Hh' Hsh|fd Hr0 _ _ Hh' Hsh|fd _ Hh' _ Hsh]; rewrite Hsh, ?Hh' in *.
    + by apply (Ho k t), Hh'.
    + injection Hh as <-. apply shape_new.
    + injection Hh as <-. pose proof (ref_lt w k t fd Ha Hk Hr0).
      rewrite lookup_close_shape, decide_False by lia. apply shape_new.
    + done.
  - pose proof (Ho j tj x Hj Hh) as Hx. pose proof (ref_lt w j tj x Ha Hj (held_ref _ _ Hh)).
    destruct Heff as [Hsh _ _|_ _ _ Hsh|fd Hr0 _ _ _ Hsh|fd Hr0 _ _ Hsh]; rewrite Hsh;
      rewrite ?lookup_close_shape, ?shape_old by done; try done;
      (rewrite decide_False; [done|]); by apply (other_ref j tj x fd Hne Hj (held_ref _ _ Hh)).
Qed.

Lemma thread_socks_unique : socks_unique (upd_thread k sh' t' w).
Proof.
  pose proof Hinv as (Ha & _ & Hu & _). destruct (thread_step_sock cfg e _ _ _ _ Hs) as [Heff _].
  unfold socks_typed, socks_open, socks_unique, socks_owned, shapes in *.
  unfold socks_unique, upd_thread; simpl.
  (* the stepping thread's new socket is none of the others' *)
  assert (Hnew : forall j tj x, j <> k -> w_pool w !! j = Some tj -> sock_ref (th_body tj) = Some x ->
                   sock_ref (th_body t') = Some x -> False).
  { intros j tj x Hne Hj Hx Hx'. pose proof (ref_lt w j tj x Ha Hj Hx).
    destruct Heff as [_ Hr' _|_ Hr' _ _|fd Hr0 _ Hr' _ _|fd Hr0 _ Hr' _].
    - rewrite Hr' in Hx'. by apply (Hu j k tj t x).
    - rewrite Hr' in Hx'. injection Hx' as Hx'. lia.
    - rewrite Hr' in Hx'. injection Hx' as Hx'. lia.
    - destruct Hr' as [Hr'|Hr']; rewrite Hr' in Hx'; [done|]. injection Hx' as <-. by apply (Hu j k tj t fd). }
  intros i j ti tj x Hij Hi Hj Hxi Hxj.
  rewrite (lookup_upd_pool _ k t t') in Hi, Hj by done.
  destruct (decide (i = k)) as [->|Hik], (decide (j = k)) as [->|Hjk]; try done.
  - injection Hi as <-. by apply (Hnew j tj x).
  - injection Hj as <-. by apply (Hnew i ti x).
  - by apply (Hu i j ti tj x).
Qed.

Lemma thread_socks_owned : socks_owned (upd_thread k sh' t' w).
Proof.
  pose proof Hinv as (Ha & _ & _ & Hw). destruct (thread_step_sock cfg e _ _ _ _ Hs) as [Heff _].
  unfold socks_typed, socks_open, socks_unique, socks_owned, shapes in *.
  unfold socks_owned, shapes, upd_thread; simpl. intros x ty Hx.
  assert (Hlen : (k < length (w_pool w))%nat) by (by eapply lookup_lt_Some).
  (* the stepping thread owns its new socket; other owners are untouched *)
  assert (Hself : sock_ref (th_body t') = Some x -> exists i ti, <[k:=t']> (w_pool w) !! i = Some ti /\
                    sock_ref (th_body ti) = Some x).
  { intros Hr. exists k, t'. by rewrite list_lookup_insert_eq. }
  assert (Hold : shapes w !! x = Some (ty, true) -> sock_ref (th_body t) <> Some x ->
                 exists i ti, <[k:=t']> (w_pool w) !! i = Some ti /\ sock_ref (th_body ti) = Some x).
  { intros Hx0 Hnk. destruct (Hw x ty Hx0) as (i & ti & Hi & Hri).
    destruct (decide (i = k)) as [->|Hne]; [rewrite Hk in Hi; injection Hi as ->; done|].
    exists i, ti. by rewrite list_lookup_insert_ne. }
  unfold shapes in Hold.
  destruct Heff as [Hsh Hr' _|Hr0 Hr' _ Hsh|fd Hr0 _ Hr' _ Hsh|fd Hr0 _ Hr' Hsh]; rewrite Hsh in Hx.
  - destruct (Hw x ty Hx) as (i & ti & Hi & Hri).
    destruct (decide (i = k)) as [->|Hne].
    + apply Hself. rewrite Hk in Hi. injection Hi as <-. congruence.
    + exists i, ti. by rewrite list_lookup_insert_ne.
  - apply lookup_app_Some in Hx as [Hx|[Hge Hx]]; [apply Hold; congruence|].
    apply Hself. rewrite Hr'. rewrite length_fmap in Hge, Hx.
    apply list_lookup_singleton_Some in Hx as [Heq _]. f_equal. lia.
  - rewrite lookup_close_shape in Hx. case_decide as Hxf.
    + subst x. rewrite shape_old in Hx by (by apply (ref_lt w k t fd Ha Hk Hr0)).
      destruct ((so_shape <$> sh_socks (w_sh w)) !! fd); simpl in Hx; congruence.
    + apply lookup_app_Some in Hx as [Hx|[Hge Hx]]; [apply Hold; congruence|].
      apply Hself. rewrite Hr'. rewrite length_fmap in Hge, Hx.
      apply list_lookup_singleton_Some in Hx as [Heq _]. f_equal. lia.
  - rewrite lookup_close_shape in Hx. case_decide as Hxf.
    + subst x. destruct ((so_shape <$> sh_socks (w_sh w)) !! fd); simpl in Hx; congruence.
    + apply Hold; congruence.
Qed.

End ThreadSock.

Lemma thread_sock_inv w k t sh' t' e :
  w_pool w !! k = Some t -> thread_step cfg e (w_sh w) t = Some (sh', t') ->
  sock_inv w -> sock_inv (upd_thread k sh' t' w).
Proof.
  intros Hk Hs Hinv. split; [|split; [|split]].
  - by apply (thread_socks_typed w k t sh' t' e).
  - by apply (thread_socks_open w k t sh' t' e).
  - by apply (thread_socks_unique w k t sh' t' e).
  - by apply (thread_socks_owned w k t sh' t' e).
Qed.

(** A spawned thread refers to no socket. *)
Lemma sock_inv_spawn w t :
  sock_ref (th_body t) = None -> sock_inv w ->
  sock_inv {| w_sh := w_sh w; w_main := w_main w; w_main_wake := w_main_wake w;
              w_pool := w_pool w ++ [t]; w_threads := w_threads w |}.
Proof.
  intros Hnew (Ha & Ho & Hu & Hw).
  assert (Hnh : held (th_body t) = None)
    by (destruct (held (th_body t)) eqn:E; [by rewrite (held_ref _ _ E) in Hnew|done]).
  unfold sock_inv, socks_typed, socks_open, socks_unique, socks_owned, shapes; simpl.
  split; [|split; [|split]].
  - intros i ti fd Hi Hr. apply lookup_app_Some in Hi as [Hi|[_ Hi]]; [by apply (Ha i)|].
    apply list_lookup_singleton_Some in Hi as [_ <-]. congruence.
  - intros i ti fd Hi Hh. apply lookup_app_Some in Hi as [Hi|[_ Hi]]; [by apply (Ho i)|].
    apply list_lookup_singleton_Some in Hi as [_ <-]. congruence.
  - intros i j ti tj fd Hij Hi Hj Hri Hrj.
    apply lookup_app_Some in Hi as [Hi|[_ Hi]];
      [|apply list_lookup_singleton_Some in Hi as [_ <-]; congruence].
    apply lookup_app_Some in Hj as [Hj|[_ Hj]];
      [|apply list_lookup_singleton_Some in Hj as [_ <-]; congruence].
    by apply (Hu i j ti tj fd).
  - intros fd ty Hfd. destruct (Hw fd ty Hfd) as (i & ti & Hi & Hr). exists i, ti.
    split; [|done]. by apply lookup_app_l_Some.
Qed.

Lemma step_sock_inv w w' : step cfg w w' -> sock_inv w -> sock_inv w'.
Proof.
  intros Hstep. destruct Hstep as [w0 k e t sh' t' Ht Hs|w0 w1 Hm|w0 w1 Hi|w0 dt Hdt]; try done.
  - by apply (thread_sock_inv w0 k t sh' t' e).
  - intros Hinv. assert (Hsh : shapes w1 = shapes w0) by (unfold shapes; by rewrite (main_step_socks cfg w0 w1 Hm)).
    destruct (main_step_held w0 w1 Hm) as [Hp|(t & Hp & Hnew)].
    + destruct Hinv as (Ha & Ho & Hu & Hw).
      unfold sock_inv, socks_typed, socks_open, socks_unique, socks_owned in *. rewrite Hp, Hsh. done.
    + pose proof (sock_inv_spawn w0 t Hnew Hinv) as Hsp. revert Hsp.
      unfold sock_inv, socks_typed, socks_open, socks_unique, socks_owned, shapes in *; simpl.
      rewrite (main_step_socks cfg w0 w1 Hm), Hp. done.
  - destruct (interrupt_frame _ _ Hi) as (Hp & _ & Hso & _).
    unfold sock_inv, socks_typed, socks_open, socks_unique, socks_owned, shapes. by rewrite Hp, Hso.
Qed.

Lemma reachable_sock_inv w : reachable cfg w -> sock_inv w.
Proof.
  intros [now Hr]. eapply (rtc_preserved _ sock_inv); [|exact Hr|].
  - intros w1 w2. apply step_sock_inv.
  - unfold sock_inv, socks_typed, socks_open, socks_unique, socks_owned, shapes; simpl.
    split; [|split; [|split]].
    + intros ? ? ? Hi. by rewrite lookup_nil in Hi.
    + intros ? ? ? Hi. by rewrite lookup_nil in Hi.
    + intros ? ? ? ? ? ? Hi. by rewrite lookup_nil in Hi.
    + intros ? ? Hfd. by rewrite lookup_nil in Hfd.
Qed.

Lemma completions_app out l : completions (out ++ l) = (completions out + completions l)%nat.
Proof. unfold completions. by rewrite List.filter_app, length_app. Qed.

Lemma completions_quiet out l : Forall (fun o => quiet o = true) l -> completions (out ++ l) = completions out.
Proof.
  intros Hq. rewrite completions_app.
  enough (completions l = 0%nat) as -> by lia.
  induction Hq as [|o l Ho _ IH]; [done|]. unfold completions in *. by destruct o.
Qed.

Lemma main_lines_quiet out l : Forall (fun o => quiet o = true) l -> main_lines (out ++ l) = main_lines out.
Proof.
  intros Hq. unfold main_lines. rewrite List.filter_app.
  enough (List.filter (fun o => negb (quiet o)) l = []) as -> by apply app_nil_r.
  induction Hq as [|o l Ho _ IH]; [done|]. simpl. by rewrite Ho.
Qed.

Lemma summary_bound_le m : (summary_bound m <= 2)%nat.
Proof. induction m as [| | | | | | | |[]|[]|[] ? []|[]| | |]; simpl; done || lia. Qed.

(** The positions an interrupt is caught at have begun at most one summary. *)
Lemma in_try_bound m : in_try m = true -> (summary_bound m <= 1)%nat.
Proof. destruct m as [| | | | | | | |[]|[]|[] ? []|[]| | |]; simpl; done || lia. Qed.

(** An interrupt outside the [try] and outside the except clause comes
    during start-up, before any summary. *)
Lemma interrupt_startup_bound w w' :
  interrupt w = Some w' -> in_try (w_main w) = false -> handler (w_main w) = false ->
  summary_bound (w_main w) = 0%nat.
Proof. unfold interrupt. destruct (w_main w) as [| | | | | | | |[]|[]|[] ? ?|[]| | |]; done. Qed.

(** What one main step prints: never the interrupt notice, at most the
    first line of a summary, within the bound of the new position. *)
Lemma main_step_out w w' :
  main_step cfg w = Some w' ->
  exists o, sh_out (w_sh w') = sh_out (w_sh w) ++ o /\ (O_stopping ∉ o) /\
    (completions o + summary_bound (w_main w) <= summary_bound (w_main w'))%nat /\
    (handler (w_main w') = true -> handler (w_main w) = true) /\
    (completions o <> 0%nat -> completions o = 1%nat /\
                              (handler (w_main w) = true \/ summary_bound (w_main w) = 0%nat)).
Proof.
  unfold main_step. destruct (w_main_wake w <=? sh_clock (w_sh w)); simpl; [|done].
  intros Hm. destruct (w_main w) as [| | |[|x xs]| | | | |h|h|h el l|h| | |m]; simplify_eq;
    try (destruct l; simpl in Hm; try destruct (Qle_bool el 0)); simplify_eq;
    repeat (case_match; simplify_eq); simpl;
    (first [exists []; rewrite app_nil_r; split; [reflexivity|] | eexists; split; [reflexivity|]]);
    (split; [intros Hin; apply list_elem_of_In in Hin; simpl in Hin; intuition discriminate|]);
    unfold completions; simpl; try destruct h; repeat split; intros; simpl in *;
    first [lia | done | split; [done|]; first [by left | by right]].
Qed.

Lemma step_summary_inv w w' : step cfg w w' -> summary_inv w -> summary_inv w'.
Proof.
  intros Hstep (Hb & Hno & Hh). destruct Hstep as [w0 k e t sh' t' Ht Hs|w0 w1 Hm|w0 w1 Hi|w0 dt Hdt].
  - destruct (thread_step_out cfg e _ _ _ _ Hs) as (l & Hout & Hq).
    destruct (out_extend (sh_out (w_sh w0)) l Hq) as [Hstop _].
    unfold summary_inv, upd_thread; simpl. rewrite Hout, completions_quiet by done.
    split; [done|]. split; [intros Hn; by apply Hno, Hstop|].
    intros Hh'. apply elem_of_app. left. by apply Hh.
  - destruct (main_step_out w0 w1 Hm) as (o & Hout & _ & Hle & Hhd & Hc).
    unfold summary_inv. rewrite Hout, completions_app. split; [lia|]. split.
    + intros Hn. assert (Hn0 : O_stopping ∉ sh_out (w_sh w0)) by (intros ?; apply Hn, elem_of_app; by left).
      specialize (Hno Hn0). destruct (decide (completions o = 0%nat)) as [->|Hne]; [lia|].
      destruct (Hc Hne) as [Ho1 [Hh0|Hb0]]; [by destruct (Hn0 (Hh Hh0))|lia].
    + intros Hh1. apply elem_of_app. left. by apply Hh, Hhd.
  - destruct (interrupt_spec _ _ Hi) as (_ & _ & _ & Hne & [(Htry & Hm & Hsh)|(Htry & Hm & Hsh)]);
      unfold summary_inv; rewrite Hm, Hsh; [|done].
    simpl. rewrite completions_app. pose proof (in_try_bound _ Htry).
    change (completions [O_stopping]) with 0%nat. simpl.
    split; [lia|]. split; [intros Hn; exfalso; apply Hn, elem_of_app; right; by left|].
    intros _. apply elem_of_app. right. by left.
  - done.
Qed.

Lemma reachable_summary_inv w : reachable cfg w -> summary_inv w.
Proof.
  intros [now Hr]. eapply (rtc_preserved _ summary_inv); [|exact Hr|].
  - intros w1 w2. apply step_summary_inv.
  - unfold summary_inv, completions. simpl. split; [lia|]. split; [lia|done].
Qed.

(** Once the main thread has died of a [KeyboardInterrupt], nothing
    moves it, only the threads print, and nothing changes the flag. *)
Lemma step_abort m w w' :
  step cfg w w' -> w_main w = M_Abort m ->
  w_main w' = M_Abort m /\
  (exists l, sh_out (w_sh w') = sh_out (w_sh w) ++ l /\ Forall (fun o => quiet o = true) l) /\
  sh_running (w_sh w') = sh_running (w_sh w).
Proof.
  intros Hstep Hm. destruct Hstep as [w0 k e t sh' t' Ht Hs|w0 w1 Hmain|w0 w1 Hi|w0 dt Hdt].
  - destruct (thread_step_out cfg e _ _ _ _ Hs) as (l & Hout & Hq).
    destruct (thread_step_clock cfg e _ _ _ _ Hs) as (_ & Hr & _).
    unfold upd_thread; simpl. eauto.
  - unfold main_step in Hmain. rewrite Hm in Hmain. by case_match.
  - unfold interrupt in Hi. by rewrite Hm in Hi.
  - split; [done|]. split; [|done]. exists []. by rewrite app_nil_r.
Qed.

(** The main thread leaves the clock alone and spawns threads awake. *)
Lemma main_step_wake w w' :
  main_step cfg w = Some w' ->
  sh_clock (w_sh w') = sh_clock (w_sh w) /\
  (w_pool w' = w_pool w \/
   exists t, w_pool w' = w_pool w ++ [t] /\ th_wake t = sh_clock (w_sh w) /\ exit_sleep 0 (th_body t) = 0).
Proof.
  unfold main_step. destruct (w_main_wake w <=? sh_clock (w_sh w)); simpl; [|done].
  intros Hm. destruct (w_main w) as [| | |[|x xs]| | | | |h|h|h el l|h| | |m]; simplify_eq;
    repeat (case_match; simplify_eq); simpl; (split; [done|]); try (by left);
    right; eexists; (split; [done|]); (split; [done|]); try destruct x; done.
Qed.

Lemma step_timeout_inv w w' : step cfg w w' -> timeout_inv w -> timeout_inv w'.
Proof.
  intros Hstep Hto. destruct Hstep as [w0 k e t sh' t' Ht Hs|w0 w1 Hm|w0 w1 Hi|w0 dt Hdt].
  - by apply (thread_step_timeouts cfg e (w_sh w0) t sh' t').
  - unfold timeout_inv. by rewrite (main_step_socks cfg w0 w1 Hm).
  - destruct (interrupt_frame _ _ Hi) as (_ & _ & Hso & _). unfold timeout_inv. by rewrite Hso.
  - done.
Qed.

(** A thread of the pool uses a socket of its own type. *)
Lemma sock_inv_typed w i t :
  sock_inv w -> w_pool w !! i = Some t -> socket_typed (sh_socks (w_sh w)) (th_body t).
Proof.
  intros (Hty & _) Hi fd s Hh Hs. destruct (Hty i t fd Hi (held_ref _ _ Hh)) as [o Ho].
  unfold shapes in Ho. rewrite list_lookup_fmap, Hs in Ho. by injection Ho as <- _.
Qed.

Lemma step_wake_inv w w' :
  step cfg w w' -> sock_inv w -> timeout_inv w -> wake_inv w -> wake_inv w'.
Proof.
  intros Hstep Hsock Hto Hinv. destruct Hstep as [w0 k e t sh' t' Ht Hs|w0 w1 Hm|w0 w1 Hi|w0 dt Hdt].
  - destruct (thread_step_clock cfg e _ _ _ _ Hs) as (Hc & _).
    unfold wake_inv, upd_thread; simpl. rewrite Hc. intros j tj Hj Hu.
    rewrite (lookup_upd_pool _ k t t') in Hj by done.
    destruct (decide (j = k)); [injection Hj as <-|by apply (Hinv j)].
    assert (Hty := proj2 (thread_step_sock cfg e _ _ _ _ Hs)).
    apply (thread_step_wake_bound cfg e (w_sh w0) t sh' t' Hs); [|done|by eapply sock_inv_typed].
    unfold is_udp, body_type in *. by destruct (th_body t), (th_body t').
  - destruct (main_step_wake w0 w1 Hm) as [Hc [Hp|(t & Hp & Hw & Hz)]];
      unfold wake_inv; rewrite Hc, Hp; [done|].
    intros j tj Hj Hu. apply lookup_app_Some in Hj as [Hj|[_ Hj]]; [by apply (Hinv j)|].
    apply list_lookup_singleton_Some in Hj as [_ <-]. rewrite Hw, Hz.
    pose proof (exit_sleep_le_bound (th_body t) Hu) as Hb. rewrite Hz in Hb. lia.
  - destruct (interrupt_frame _ _ Hi) as (Hp & _ & _ & _ & Hc & _). unfold wake_inv. by rewrite Hp, Hc.
  - unfold wake_inv; simpl. intros j tj Hj Hu. specialize (Hinv j tj Hj Hu). lia.
Qed.

Lemma reachable_wake_inv w : reachable cfg w -> sock_inv w /\ timeout_inv w /\ wake_inv w.
Proof.
  intros [now Hr]. eapply (rtc_preserved _ (fun x => sock_inv x /\ timeout_inv x /\ wake_inv x)); [|exact Hr|].
  - intros w1 w2 Hs (Hsock & Hto & Hw). split; [by apply (step_sock_inv w1 w2)|].
    split; [by apply (step_timeout_inv w1 w2)|]. by apply (step_wake_inv w1 w2).
  - split; [|split].
    + apply (reachable_sock_inv (init_world now)). exists now. apply rtc_refl.
    + constructor.
    + intros i t Hi. simpl in Hi. by rewrite lookup_nil in Hi.
Qed.

Lemma sumZ_pendZ_nonneg f l : 0 <= sumZ_with (pendZ f) l.
Proof. apply sumZ_with_nonneg. intros t _. unfold pendZ. by destruct (pend f (th_body t)). Qed.

End Lemmas.

(** ** Properties of every interleaving *)

(** C1: whatever the interleaving, the shared counters never over-count
    and are never negative: [tcp_sent] is at most the number of
    successful [sendall] calls, which is at most the number of stream
    payloads that left the machine; [udp_sent] is at most the number of
    datagrams sent; [errors] is at most the number of failures the
    threads saw. *)
Theorem counters_never_overcount (cfg : AttackConfig) (w : World) :
  reachable cfg w ->
  let st := sh_stats (w_sh w) in
  (0 <= tcp_sent st <= sumZ_with (contrib F_tcp_sent) (w_pool w) /\
   sumZ_with (contrib F_tcp_sent) (w_pool w) <= n_type SOCK_STREAM (sh_net (w_sh w))) /\
  (0 <= udp_sent st <= sumZ_with (contrib F_udp_sent) (w_pool w) /\
   sumZ_with (contrib F_udp_sent) (w_pool w) = n_type SOCK_DGRAM (sh_net (w_sh w))) /\
  0 <= errors st <= sumZ_with (contrib F_errors) (w_pool w).
Proof.
  intros Hr; cbv zeta.
  destruct (reachable_counter_inv cfg F_tcp_sent w Hr) as (Ht0 & Ht1 & _).
  destruct (reachable_counter_inv cfg F_udp_sent w Hr) as (Hu0 & Hu1 & _).
  destruct (reachable_counter_inv cfg F_errors w Hr) as (He0 & He1 & _).
  destruct (reachable_net_inv cfg w Hr) as [Hn1 Hn2].
  pose proof (sumZ_pendZ_nonneg F_tcp_sent (w_pool w)).
  pose proof (sumZ_pendZ_nonneg F_udp_sent (w_pool w)).
  pose proof (sumZ_pendZ_nonneg F_errors (w_pool w)).
  simpl in *. repeat split; lia.
Qed.

(** C3: with the increments of a key made mutually exclusive (as the
    specification requires: an atomic increment or a lock), no update is
    lost: in every such run the shared value plus the pending increments
    is exactly the sum of the thread-local counts, so at quiescence
    [N] threads incrementing [M] times each leave exactly [N * M]. *)
Theorem exclusive_increments_exact (cfg : AttackConfig) (f : Field) (now : Z) (w : World) :
  rtc (step_excl cfg f) (init_world now) w ->
  get f (sh_stats (w_sh w)) + sumZ_with (pendZ f) (w_pool w) = sumZ_with (contrib f) (w_pool w).
Proof.
  intros Hr. enough (exact_inv f w) as [H _] by exact H.
  eapply (rtc_preserved _ (exact_inv f)); [|exact Hr|].
  - intros w1 w2. apply step_exact_inv.
  - unfold exact_inv, excl; destruct f; simpl; (split; [lia|split; [lia|]]);
      intros ? ? ? Hi; by rewrite lookup_nil in Hi.
Qed.

(** C20: sockets are never shared and never leak: in every reachable
    state, each socket a thread is using is open and of its protocol's
    type, no two threads' [sock] refer to the same socket, and every open
    socket is referred to by the [sock] of a thread of its type (the
    socket a failed TCP iteration leaves open stays in [sock] until the
    next assignment releases it). *)
Theorem socket_ownership (cfg : AttackConfig) (w : World) :
  reachable cfg w ->
  (forall i t fd, w_pool w !! i = Some t -> held (th_body t) = Some fd ->
     exists s, sh_socks (w_sh w) !! fd = Some s /\ so_open s = true /\ so_type s = body_type (th_body t)) /\
  (forall i j ti tj fd, i <> j -> w_pool w !! i = Some ti -> w_pool w !! j = Some tj ->
     sock_ref (th_body ti) = Some fd -> sock_ref (th_body tj) = Some fd -> False) /\
  (forall fd s, sh_socks (w_sh w) !! fd = Some s -> so_open s = true ->
     exists i t, w_pool w !! i = Some t /\ sock_ref (th_body t) = Some fd /\ so_type s = body_type (th_body t)).
Proof.
  intros Hr. destruct (reachable_sock_inv cfg w Hr) as (Ha & Ho & Hu & Hw).
  unfold socks_typed, socks_open, socks_unique, socks_owned, shapes in *.
  split; [|split; [exact Hu|]].
  - intros i t fd Hi Hh. specialize (Ho i t fd Hi Hh). rewrite list_lookup_fmap in Ho.
    destruct (sh_socks (w_sh w) !! fd) as [s|]; simpl in Ho; [|done].
    injection Ho as Hty Hop. by exists s.
  - intros fd s Hs Hop. destruct (Hw fd (so_type s)) as (i & t & Hi & Hh).
    { rewrite list_lookup_fmap, Hs. simpl. unfold so_shape. by rewrite Hop. }
    destruct (Ha i t fd Hi Hh) as [o Hty]. rewrite list_lookup_fmap, Hs in Hty. simpl in Hty.
    injection Hty as Hty _. by exists i, t.
Qed.

(** The descriptors of the open sockets. *)
Definition open_fds (tbl : list Socket) : list nat :=
  filter (fun fd => option_map so_open (tbl !! fd) = Some true) (seq 0 (length tbl)).

Lemma elem_of_open_fds tbl fd : fd ∈ open_fds tbl -> exists s, tbl !! fd = Some s /\ so_open s = true.
Proof.
  unfold open_fds. rewrite list_elem_of_filter. intros [Hop _].
  destruct (tbl !! fd) as [s|]; simpl in Hop; [|done]. injection Hop as Hop. by exists s.
Qed.

Lemma length_omap_le {A B} (f : A -> option B) (l : list A) : (length (omap f l) <= length l)%nat.
Proof. induction l as [|x l IH]; cbn; [lia|]. destruct (f x); cbn; lia. Qed.

(** C21: no socket leaks under CPython's reference counting: the open
    sockets never outnumber the threads, since each is the one some
    thread's [sock] refers to. *)
Theorem open_sockets_bounded (cfg : AttackConfig) (w : World) :
  reachable cfg w -> (length (open_fds (sh_socks (w_sh w))) <= length (w_pool w))%nat.
Proof.
  intros Hr. destruct (reachable_sock_inv cfg w Hr) as (_ & _ & _ & Hw).
  unfold socks_owned, shapes in Hw.
  transitivity (length (omap (fun t => sock_ref (th_body t)) (w_pool w))); [|apply length_omap_le].
  apply NoDup_incl_length.
  - apply NoDup_ListNoDup, NoDup_filter, NoDup_seq.
  - intros fd Hin. apply list_elem_of_In in Hin. apply elem_of_open_fds in Hin as (s & Hs & Hop).
    destruct (Hw fd (so_type s)) as (i & t & Hi & Hr').
    { rewrite list_lookup_fmap, Hs. simpl. unfold so_shape. by rewrite Hop. }
    apply list_elem_of_In, list_elem_of_omap. exists t. split; [|done]. by eapply list_elem_of_lookup_2.
Qed.

(** C19: [self.running] follows the main thread: false until line 123,
    true until [stop] clears it, false ever after (at the entry of the
    except clause's [stop] it may be either); once the start time is
    taken it stays set (so [stop]'s subtraction never fails); and the main
    thread can only die of an exception other than [KeyboardInterrupt]
    when the duration is negative. *)
Theorem running_follows_main (cfg : AttackConfig) (w : World) :
  reachable cfg w ->
  (forall b, running_in (w_main w) = Some b -> sh_running (w_sh w) = b) /\
  (started (w_main w) = true -> exists t0, start_time (sh_stats (w_sh w)) = Some t0) /\
  (w_main w = M_Crash -> exists d, duration cfg = Some d /\ d < 0).
Proof.
  intros Hr. destruct (reachable_main_inv cfg w Hr) as (Hrun & _ & Hs0 & Hcr & _).
  split; [intros b Hb; by rewrite Hb in Hrun|]. split; [|done].
  intros Hst. destruct (Hs0 Hst) as (t0 & ? & _). eauto.
Qed.

(** C26: the reporter never dies of the [TypeError] its status line
    could raise: in every reachable state the start time is set when it
    prints, and it prints the live counters with a non-negative elapsed
    time, then sleeps one second. *)
Theorem reporter_prints_status (cfg : AttackConfig) (w : World) (i : nat) (t : Thread) (e : Env)
    (sh' : Shared) (t' : Thread) :
  reachable cfg w -> w_pool w !! i = Some t -> th_body t = BStats RPrint ->
  thread_step cfg e (w_sh w) t = Some (sh', t') ->
  let st := sh_stats (w_sh w) in
  th_body t' = BStats RLoop /\ th_wake t' = sh_clock (w_sh w) + 1000 /\
  exists t0, start_time st = Some t0 /\ 0 <= sh_clock (w_sh w) - t0 /\
    sh_out sh' = sh_out (w_sh w) ++ [O_status (tcp_sent st) (udp_sent st) (errors st) (sh_clock (w_sh w) - t0)].
Proof.
  intros Hr Hi Hb Hs. cbv zeta. destruct (reachable_main_inv cfg w Hr) as (_ & Hns & Hs0 & _).
  assert (Hst : started (w_main w) = true).
  { destruct (started (w_main w)) eqn:E; [done|]. destruct (Hns eq_refl) as [_ Hp].
    by rewrite Hp, lookup_nil in Hi. }
  destruct (Hs0 Hst) as (t0 & Ht0 & Hle).
  apply thread_step_Some in Hs as (_ & _ & Hs). rewrite Hb in Hs. simpl in Hs.
  unfold status_line in Hs. rewrite Ht0 in Hs. injection Hs as Hsh Ht'. subst sh' t'. simpl.
  split; [done|]. split; [done|]. exists t0. split; [done|]. split; [lia|done].
Qed.

(** C7: a run with a positive duration [d] that is not interrupted
    prints its summary only after [d] seconds: every "Total duration"
    line it printed reports at least [d] seconds. *)
Theorem duration_respected (cfg : AttackConfig) (w : World) (d : Z) (el : Q) :
  reachable cfg w -> duration cfg = Some d -> 0 < d ->
  O_stopping ∉ sh_out (w_sh w) -> O_duration el ∈ sh_out (w_sh w) ->
  (inject_Z d <= el)%Q.
Proof.
  intros Hr Hd Hpos Hn Hin. destruct (reachable_main_inv cfg w Hr) as (_ & _ & _ & _ & Hnoint).
  destruct (Hnoint Hn) as [_ Hsum]. destruct (Hsum _ Hin eq_refl) as (d' & Hd' & _ & Hle).
  rewrite Hd in Hd'. injection Hd' as <-. by apply Hle.
Qed.

(** C8: without a duration, or with [-d 0] (0 is false for
    [if self.config.duration]), the main thread never stops by itself:
    unless interrupted it never enters [stop], never returns, and prints
    no line of a summary. *)
Theorem unbounded_without_duration (cfg : AttackConfig) (w : World) :
  reachable cfg w -> duration cfg = None \/ duration cfg = Some 0 ->
  O_stopping ∉ sh_out (w_sh w) ->
  in_stop (w_main w) = false /\ w_main w <> M_Exit /\
  forall o, o ∈ sh_out (w_sh w) -> summary_line o = false.
Proof.
  intros Hr Hd Hn. destruct (reachable_main_inv cfg w Hr) as (_ & _ & _ & _ & Hnoint).
  destruct (Hnoint Hn) as [Hto Hsum]. unfold timed_ok in Hto.
  assert (Hno : forall d, duration cfg = Some d -> 0 < d -> False)
    by (intros d Hd' Hpos; destruct Hd as [Hd|Hd]; rewrite Hd in Hd'; injection Hd' as <- || discriminate; lia).
  split; [|split].
  - destruct (w_main w) as [| | | | | | | |[]|[]|[] ? ?|[]| | |]; try done;
      exfalso; destruct Hto as [d Hto]; apply (Hno d);
      repeat match goal with H : ex _ |- _ => destruct H | H : _ /\ _ |- _ => destruct H end; done.
  - intros Hm; rewrite Hm in Hto. destruct Hto as (d & ? & ?). by apply (Hno d).
  - intros o Hin. destruct (summary_line o) eqn:Hl; [|done].
    destruct (Hsum o Hin Hl) as (d & ? & ? & _). exfalso. by apply (Hno d).
Qed.

(** C11: at most two summaries are ever begun, and two only after a
    caught interrupt: without one, [stop] runs once; a Ctrl+C that
    arrives while the duration path's [stop] prints, or after it has
    printed and before [start] returns, is inside the [try], so the
    except clause runs [stop] a second time; an interrupt during that
    second [stop] is uncaught. *)
Theorem summary_at_most_twice (cfg : AttackConfig) (w : World) :
  reachable cfg w ->
  (completions (sh_out (w_sh w)) <= 2)%nat /\
  (O_stopping ∉ sh_out (w_sh w) -> (completions (sh_out (w_sh w)) <= 1)%nat).
Proof.
  intros Hr. destruct (reachable_summary_inv cfg w Hr) as (Hb & Hno & _).
  pose proof (summary_bound_le (w_main w)). split; [lia|done].
Qed.

(** C14: a [KeyboardInterrupt] outside the [try] (during the banner,
    the spawning loops, or the except clause's own [stop]) ends the main
    thread where it was: from then on the main thread prints nothing
    (no summary line, no notice) and [running] keeps its value; an
    interrupt during start-up leaves no summary at all, so the senders
    already spawned keep sending until the process exits. *)
Theorem interrupt_outside_try_aborts (cfg : AttackConfig) (w w' w'' : World) :
  reachable cfg w -> in_try (w_main w) = false -> interrupt w = Some w' -> rtc (step cfg) w' w'' ->
  w_main w'' = M_Abort (w_main w) /\
  main_lines (sh_out (w_sh w'')) = main_lines (sh_out (w_sh w)) /\
  (handler (w_main w) = false -> completions (sh_out (w_sh w'')) = 0%nat) /\
  sh_running (w_sh w'') = sh_running (w_sh w).
Proof.
  intros Hr Htry Hi Hrtc.
  destruct (interrupt_spec w w' Hi) as (_ & _ & _ & Hne & [(Ht & _)|(_ & Hm & Hsh)]); [congruence|].
  assert (Hinv : w_main w'' = M_Abort (w_main w) /\
                 (exists l, sh_out (w_sh w'') = sh_out (w_sh w) ++ l /\ Forall (fun o => quiet o = true) l) /\
                 sh_running (w_sh w'') = sh_running (w_sh w)).
  { eapply (rtc_preserved _ (fun x => w_main x = M_Abort (w_main w) /\
              (exists l, sh_out (w_sh x) = sh_out (w_sh w) ++ l /\ Forall (fun o => quiet o = true) l) /\
              sh_running (w_sh x) = sh_running (w_sh w))); [|exact Hrtc|].
    - intros x y Hxy (Hmx & (l & Hl & Hq) & Hrx).
      destruct (step_abort cfg _ x y Hxy Hmx) as (Hmy & (l' & Hl' & Hq') & Hry).
      split; [done|]. split; [|congruence]. exists (l ++ l').
      rewrite Hl', Hl, app_assoc. split; [done|]. by apply Forall_app.
    - rewrite Hm, Hsh. split; [done|]. split; [exists []; by rewrite app_nil_r|done]. }
  destruct Hinv as (Hm'' & (l & Hl & Hq) & Hr'').
  split; [done|]. split; [by rewrite Hl, main_lines_quiet|]. split; [|done].
  intros Hh. rewrite Hl, completions_quiet by done.
  destruct (reachable_summary_inv cfg w Hr) as (Hb & _).
  rewrite (interrupt_startup_bound w w' Hi Htry Hh) in Hb. lia.
Qed.

(** C17: the duration path stops on time: after [start] has spawned
    its threads, the main thread sleeps exactly [d] seconds and, scheduled
    at its wake-up, runs [stop] to the end whatever the senders do not do:
    [running] is cleared, and after the banner the console holds exactly
    one summary, which reports [d] elapsed seconds. *)
Theorem timed_run_stops (cfg : AttackConfig) (now d : Z) :
  duration cfg = Some d -> 0 < d ->
  exists w, run cfg (boot_run cfg ++ [C_main; C_tick (d * 1000)] ++ repeat C_main 10) (init_world now) = Some w /\
    w_main w = M_Exit /\ sh_running (w_sh w) = false /\ sh_clock (w_sh w) = now + d * 1000 /\
    exists r, sh_out (w_sh w) = O_banner (target_ip cfg) (ports cfg) (duration cfg) :: summary_output r /\
      (sum_elapsed r == inject_Z d)%Q.
Proof.
  intros Hd Hpos. destruct (boot_wait cfg now) as (w & Hw & Hm & Hr & Hst0 & Hc & Hwk & _ & Hst & Hout).
  assert (H3 : run cfg [C_main; C_tick (d * 1000); C_main] w =
               Some (with_main (M_Stop false) (now + d * 1000) (advance (d * 1000) (w_sh w)) w)).
  { simpl. unfold main_step. rewrite Hm, Hd, Hc, Hwk, Z.leb_refl. simpl.
    destruct (Z.eqb_spec d 0); [lia|]. destruct (Z.ltb_spec d 0); [lia|]. simpl.
    destruct (Z.ltb_spec 0 (d * 1000)); [|lia]. simpl. rewrite Hc, Z.leb_refl. reflexivity. }
  rewrite (run_app cfg _ _ _ _ Hw).
  change ([C_main; C_tick (d * 1000)] ++ repeat C_main 10)
    with ([C_main; C_tick (d * 1000); C_main] ++ repeat C_main 8 ++ [C_main]).
  rewrite (run_app cfg _ _ _ _ H3).
  set (ws := with_main (M_Stop false) (now + d * 1000) (advance (d * 1000) (w_sh w)) w).
  destruct (stop_summary_started (sh_stats (w_sh w)) (sh_clock (w_sh ws)) now Hst0) as [r Hr0].
  rewrite (run_app cfg _ _ _ _ (run_stop cfg false ws now eq_refl ltac:(simpl; lia) Hst0)).
  change (sh_stats (w_sh ws)) with (sh_stats (w_sh w)).
  rewrite (print_from_summary _ _ _ r Hst0 Hr0).
  simpl. unfold main_step. simpl. rewrite Z.leb_refl. simpl.
  eexists. split; [reflexivity|]. simpl. split; [done|]. split; [done|]. split; [lia|].
  exists r. rewrite Hout. split; [done|].
  destruct (stop_summary_elapsed _ _ r now Hst0 Hr0) as [-> _]. simpl. rewrite Hc.
  unfold elapsed_secs, Qeq, Qdiv, Qmult, Qinv; simpl. lia.
Qed.

End Invariants.
