(* ===== verification/Scenarios.v ===== *)
(** * Scenarios: concrete interleavings of the process

    The scenario of the specification: one port (80), budget 2, 16-byte
    payloads, duration 1 s ([demo_cfg]).  [start] spawns two TCP senders
    (threads 0 and 1), two UDP senders (2 and 3) and the reporter (4);
    the network accepts everything ([env_ok]) unless a step says
    otherwise ([env_fail]).  Each run is a list of scheduler choices that
    the kernel executes with [vm_compute]: the lost update and the
    backwards counter, [stop] without a join, the summary printed twice
    by an interrupt during the duration path's [stop], and the
    witnesses of the theorems of System and Invariants. *)

From stdpp Require Import base list decidable strings relations.
From Stdlib Require Import ZArith QArith Lia.
From S2P Require Import Prelude Config Distributor Stats Socket Worker System Invariants.

Open Scope Z_scope.
Import Config Distributor Stats Socket Worker System Invariants.

Module Scenarios.

Definition demo_cfg : AttackConfig :=
  {| target_ip := "192.0.2.1"%string; ports := [80]; packet_size := 16;
     max_threads := 2; duration := Some 1; verbose := false |}.

Definition env_ok : Env := mkEnv Succeeds (fun i => Z.of_nat i) 0 0.

(** [start] up to the wait: banner, flag, start time, four sender
    threads, the end of the loops, the reporter. *)
Definition boot : list Choice := repeat C_main 9.

(** One TCP iteration of thread [i] up to its pending [+=]: loop test,
    [create_socket], [connect], [sendall], and the local count. *)
Definition tcp_until_load (i : nat) : list Choice := repeat (C_thread i env_ok) 4.

(** Threads 0 and 1 both send, both load 0, both store 1. *)
Definition lost_update_run : list Choice :=
  boot ++ tcp_until_load 0 ++ tcp_until_load 1 ++
  [C_thread 0 env_ok; C_thread 1 env_ok; C_thread 0 env_ok; C_thread 1 env_ok].

(** Thread 0 loads 0 and is preempted; thread 1 completes two
    increments (with the 10 ms sleep between its iterations); the state
    just before thread 0's stale store. *)
Definition stale_store_run : list Choice :=
  boot ++ tcp_until_load 0 ++ [C_thread 0 env_ok] ++
  tcp_until_load 1 ++ [C_thread 1 env_ok; C_thread 1 env_ok; C_tick 10; C_thread 1 env_ok] ++
  tcp_until_load 1 ++ [C_thread 1 env_ok; C_thread 1 env_ok].

Definition lost_world : World :=
  match run demo_cfg lost_update_run (init_world 0) with Some w => w | None => init_world 0 end.

Lemma counters_never_overcount_witness :
  reachable demo_cfg lost_world /\
  tcp_sent (sh_stats (w_sh lost_world)) <= n_type SOCK_STREAM (sh_net (w_sh lost_world)).
Proof.
  assert (H : reachable demo_cfg lost_world)
    by (apply (reach_by_run demo_cfg lost_update_run 0); vm_compute; reflexivity).
  split; [exact H|].
  destruct (counters_never_overcount demo_cfg lost_world H) as [[[_ H1] H2] _]. lia.
Defined.

(** C2: the shared [+=] loses updates.  There is an interleaving in
    which two TCP payloads were sent and both threads have finished their
    increments, yet [tcp_sent] is 1: the counters are not safe for
    concurrent increment. *)
Theorem lost_update :
  exists w, reachable demo_cfg w /\
    sumZ_with (pendZ F_tcp_sent) (w_pool w) = 0 /\
    n_type SOCK_STREAM (sh_net (w_sh w)) = 2 /\
    sumZ_with (contrib F_tcp_sent) (w_pool w) = 2 /\
    tcp_sent (sh_stats (w_sh w)) = 1.
Proof.
  eexists. split; [apply (reach_by_run demo_cfg lost_update_run 0); vm_compute; reflexivity|].
  vm_compute. repeat split.
Qed.

(** C22: the shared counters are not monotone.  A thread that loaded a
    value before others incremented writes its stale value back: one step
    takes [tcp_sent] from 2 down to 1. *)
Theorem counter_goes_backwards :
  exists w w', reachable demo_cfg w /\ step demo_cfg w w' /\
    tcp_sent (sh_stats (w_sh w)) = 2 /\ tcp_sent (sh_stats (w_sh w')) = 1.
Proof.
  do 2 eexists. split; [apply (reach_by_run demo_cfg stale_store_run 0); vm_compute; reflexivity|].
  split; [apply (exec_step demo_cfg (C_thread 0 env_ok)); vm_compute; reflexivity|].
  vm_compute. split; reflexivity.
Qed.

(** Both TCP senders do a full increment each, one after the other. *)
Definition serial_run : list Choice :=
  boot ++ tcp_until_load 0 ++ [C_thread 0 env_ok; C_thread 0 env_ok] ++
  tcp_until_load 1 ++ [C_thread 1 env_ok; C_thread 1 env_ok].

Definition serial_world : World :=
  match run_excl demo_cfg F_tcp_sent serial_run (init_world 0) with
  | Some w => w | None => init_world 0
  end.

Lemma exclusive_increments_exact_witness :
  rtc (step_excl demo_cfg F_tcp_sent) (init_world 0) serial_world /\
  tcp_sent (sh_stats (w_sh serial_world)) = 2 /\
  get F_tcp_sent (sh_stats (w_sh serial_world)) + sumZ_with (pendZ F_tcp_sent) (w_pool serial_world)
    = sumZ_with (contrib F_tcp_sent) (w_pool serial_world).
Proof.
  assert (H : rtc (step_excl demo_cfg F_tcp_sent) (init_world 0) serial_world)
    by (apply (run_excl_rtc demo_cfg F_tcp_sent serial_run); vm_compute; reflexivity).
  split; [exact H|]. split; [vm_compute; reflexivity|].
  exact (exclusive_increments_exact demo_cfg F_tcp_sent 0 serial_world H).
Defined.

(** Thread 0 has sent a payload and is about to count it when the
    duration ends: the main thread sleeps, stops, prints the summary and
    returns; then thread 0 stores its increment. *)
Definition no_join_run : list Choice :=
  boot ++ tcp_until_load 0 ++ [C_main; C_tick 1000] ++ repeat C_main 10.

Definition no_join_world : World :=
  match run demo_cfg no_join_run (init_world 0) with Some w => w | None => init_world 0 end.

Definition no_join_after : World :=
  match run demo_cfg [C_thread 0 env_ok; C_thread 0 env_ok] no_join_world with
  | Some w => w | None => no_join_world end.

(** C18: [stop] neither joins nor waits for the senders: a run can print
    its summary and return from [start] while a payload already sent is
    not yet counted, so the summary says "Total TCP packets: 0" with one
    TCP payload on the wire; the sender keeps going and the counter ends
    above the summary's total. *)
Theorem summary_without_join :
  reachable demo_cfg no_join_world /\ w_main no_join_world = M_Exit /\
  completions (sh_out (w_sh no_join_world)) = 1%nat /\
  O_total F_tcp_sent 0 ∈ sh_out (w_sh no_join_world) /\
  n_type SOCK_STREAM (sh_net (w_sh no_join_world)) = 1 /\
  rtc (step demo_cfg) no_join_world no_join_after /\
  tcp_sent (sh_stats (w_sh no_join_after)) = 1.
Proof.
  split; [apply (reach_by_run demo_cfg no_join_run 0); vm_compute; reflexivity|].
  split; [vm_compute; reflexivity|]. split; [vm_compute; reflexivity|].
  split; [apply (bool_decide_unpack _); vm_compute; reflexivity|].
  split; [vm_compute; reflexivity|].
  split; [apply (run_rtc demo_cfg [C_thread 0 env_ok; C_thread 0 env_ok]); vm_compute; reflexivity|].
  vm_compute. reflexivity.
Qed.

(** The duration ends and [stop] starts printing; a Ctrl+C arrives
    after its "Attack completed!" and "Total TCP packets" lines, inside
    the [try]; the except clause prints its notice and runs [stop]
    again, to the end. *)
Definition twice_run : list Choice :=
  boot ++ [C_main; C_tick 1000] ++ repeat C_main 5 ++ [C_interrupt] ++ repeat C_main 9.

Definition twice_world : World :=
  match run demo_cfg twice_run (init_world 0) with Some w => w | None => init_world 0 end.

(** C12: the summary can be printed twice.  An interrupt during the
    prints of the duration path's [stop] is caught by [except
    KeyboardInterrupt], which calls [stop] again: the run prints
    "Attack completed!" twice, the first summary cut after its TCP
    total, and returns normally. *)
Theorem summary_printed_twice :
  reachable demo_cfg twice_world /\ w_main twice_world = M_Exit /\
  completions (sh_out (w_sh twice_world)) = 2%nat /\ O_stopping ∈ sh_out (w_sh twice_world) /\
  length (List.filter (fun o => match o with O_duration _ => true | _ => false end)
                      (sh_out (w_sh twice_world))) = 1%nat.
Proof.
  split; [apply (reach_by_run demo_cfg twice_run 0); vm_compute; reflexivity|].
  split; [vm_compute; reflexivity|]. split; [vm_compute; reflexivity|].
  split; [apply (bool_decide_unpack _); vm_compute; reflexivity|].
  vm_compute. reflexivity.
Qed.

(** Thread 0 creates its socket and its [connect] fails. *)
Definition leak_run : list Choice :=
  boot ++ [C_thread 0 env_ok; C_thread 0 env_ok; C_thread 0 env_fail].

Definition leak_world : World :=
  match run demo_cfg leak_run (init_world 0) with Some w => w | None => init_world 0 end.

Definition cfg_with_duration (d : option Z) : AttackConfig :=
  {| target_ip := "192.0.2.1"%string; ports := [80]; packet_size := 16;
     max_threads := 2; duration := d; verbose := false |}.

Lemma running_follows_main_witness :
  reachable demo_cfg no_join_world /\ sh_running (w_sh no_join_world) = false.
Proof.
  assert (H : reachable demo_cfg no_join_world)
    by (apply (reach_by_run demo_cfg no_join_run 0); vm_compute; reflexivity).
  split; [exact H|]. apply (proj1 (running_follows_main demo_cfg no_join_world H) false).
  vm_compute. reflexivity.
Defined.

Lemma duration_respected_witness :
  O_duration (elapsed_secs 0 1000) ∈ sh_out (w_sh no_join_world) /\
  (inject_Z 1 <= elapsed_secs 0 1000)%Q.
Proof.
  assert (H : reachable demo_cfg no_join_world)
    by (apply (reach_by_run demo_cfg no_join_run 0); vm_compute; reflexivity).
  assert (Hin : O_duration (elapsed_secs 0 1000) ∈ sh_out (w_sh no_join_world))
    by (apply (bool_decide_unpack _); vm_compute; reflexivity).
  split; [exact Hin|].
  apply (duration_respected demo_cfg no_join_world 1 _ H eq_refl ltac:(lia)); [|exact Hin].
  apply (bool_decide_unpack _). vm_compute. reflexivity.
Defined.

Definition forever_world : World :=
  match run (cfg_with_duration (Some 0)) (boot_run (cfg_with_duration (Some 0)) ++ [C_main]) (init_world 0)
  with Some w => w | None => init_world 0 end.

Lemma unbounded_without_duration_witness :
  w_main forever_world = M_Poll /\ in_stop (w_main forever_world) = false.
Proof.
  assert (H : reachable (cfg_with_duration (Some 0)) forever_world)
    by (apply (reach_by_run _ (boot_run (cfg_with_duration (Some 0)) ++ [C_main]) 0); vm_compute; reflexivity).
  split; [vm_compute; reflexivity|].
  refine (proj1 (unbounded_without_duration (cfg_with_duration (Some 0)) forever_world H
                  (or_intror eq_refl) _)).
  vm_compute. intros Hin. apply list_elem_of_In in Hin. simpl in Hin. intuition discriminate.
Defined.

Lemma negative_duration_crashes_witness :
  exists w, run (cfg_with_duration (Some (-1))) (boot_run (cfg_with_duration (Some (-1))) ++ [C_main])
              (init_world 0) = Some w /\ w_main w = M_Crash.
Proof.
  destruct (negative_duration_crashes (cfg_with_duration (Some (-1))) 0 (-1) eq_refl ltac:(lia))
    as (w & Hw & Hm & _). eauto.
Defined.

Lemma socket_ownership_witness :
  reachable demo_cfg lost_world /\
  forall i j ti tj fd, i <> j -> w_pool lost_world !! i = Some ti -> w_pool lost_world !! j = Some tj ->
    sock_ref (th_body ti) = Some fd -> sock_ref (th_body tj) = Some fd -> False.
Proof.
  assert (H : reachable demo_cfg lost_world)
    by (apply (reach_by_run demo_cfg lost_update_run 0); vm_compute; reflexivity).
  split; [exact H|]. exact (proj1 (proj2 (socket_ownership demo_cfg lost_world H))).
Defined.

(** An interrupt while the spawning loop has started the first sender. *)
Definition startup_world : World :=
  match run demo_cfg (repeat C_main 4) (init_world 0) with Some w => w | None => init_world 0 end.

Definition aborted_world : World := with_main (M_Abort (w_main startup_world)) 0 (w_sh startup_world) startup_world.

Lemma summary_at_most_twice_witness :
  reachable demo_cfg twice_world /\ completions (sh_out (w_sh twice_world)) = 2%nat /\
  (completions (sh_out (w_sh twice_world)) <= 2)%nat.
Proof.
  assert (H : reachable demo_cfg twice_world)
    by (apply (reach_by_run demo_cfg twice_run 0); vm_compute; reflexivity).
  split; [exact H|]. split; [vm_compute; reflexivity|].
  exact (proj1 (summary_at_most_twice demo_cfg twice_world H)).
Defined.

Lemma interrupt_outside_try_aborts_witness :
  exists w'', run demo_cfg (repeat (C_thread 0 env_ok) 3) aborted_world = Some w'' /\
    w_main w'' = M_Abort (M_Spawn [TcpWorker 80; UdpWorker 80; UdpWorker 80]) /\
    completions (sh_out (w_sh w'')) = 0%nat /\ sh_running (w_sh w'') = true.
Proof.
  assert (Hr : reachable demo_cfg startup_world)
    by (apply (reach_by_run demo_cfg (repeat C_main 4) 0); vm_compute; reflexivity).
  assert (Hi : interrupt startup_world = Some aborted_world) by (vm_compute; reflexivity).
  destruct (run demo_cfg (repeat (C_thread 0 env_ok) 3) aborted_world) as [w''|] eqn:E;
    [|vm_compute in E; discriminate].
  destruct (interrupt_outside_try_aborts demo_cfg startup_world aborted_world w'' Hr
              ltac:(vm_compute; reflexivity) Hi (run_rtc demo_cfg _ _ _ E)) as (Hm & _ & Hs & Hrun).
  exists w''. split; [reflexivity|]. split; [exact Hm|]. split; [exact (Hs eq_refl)|].
  rewrite Hrun. vm_compute. reflexivity.
Defined.

Lemma timed_run_stops_witness :
  exists w, run demo_cfg (boot_run demo_cfg ++ [C_main; C_tick (1 * 1000)] ++ repeat C_main 10) (init_world 0) = Some w /\
    w_main w = M_Exit /\ sh_clock (w_sh w) = 1000.
Proof.
  destruct (timed_run_stops demo_cfg 0 1 eq_refl ltac:(lia)) as (w & Hw & Hm & _ & Hc & _).
  exists w. split; [exact Hw|]. split; [exact Hm|]. exact Hc.
Defined.

Lemma open_sockets_bounded_witness :
  reachable demo_cfg leak_world /\ open_fds (sh_socks (w_sh leak_world)) = [0%nat] /\
  (length (open_fds (sh_socks (w_sh leak_world))) <= length (w_pool leak_world))%nat.
Proof.
  assert (H : reachable demo_cfg leak_world)
    by (apply (reach_by_run demo_cfg leak_run 0); vm_compute; reflexivity).
  split; [exact H|]. split; [vm_compute; reflexivity|].
  exact (open_sockets_bounded demo_cfg leak_world H).
Defined.

(** The reporter (thread 4) has passed its loop test once. *)
Definition reporter_world : World :=
  match run demo_cfg (boot ++ [C_thread 4 env_ok]) (init_world 0) with Some w => w | None => init_world 0 end.

Lemma reporter_prints_status_witness :
  exists t sh' t', w_pool reporter_world !! 4%nat = Some t /\ th_body t = BStats RPrint /\
    thread_step demo_cfg env_ok (w_sh reporter_world) t = Some (sh', t') /\
    th_body t' = BStats RLoop.
Proof.
  assert (Hr : reachable demo_cfg reporter_world)
    by (apply (reach_by_run demo_cfg (boot ++ [C_thread 4 env_ok]) 0); vm_compute; reflexivity).
  destruct (w_pool reporter_world !! 4%nat) as [t|] eqn:Hi; [|vm_compute in Hi; discriminate].
  assert (Hb : th_body t = BStats RPrint) by (vm_compute in Hi; injection Hi as <-; reflexivity).
  destruct (thread_step demo_cfg env_ok (w_sh reporter_world) t) as [[sh' t']|] eqn:Hs;
    [|vm_compute in Hi; injection Hi as <-; vm_compute in Hs; discriminate].
  exists t, sh', t'. split; [done|]. split; [exact Hb|]. split; [exact Hs|].
  exact (proj1 (reporter_prints_status demo_cfg reporter_world 4 t env_ok sh' t' Hr Hi Hb Hs)).
Defined.

End Scenarios.
