(* ===== verification/Lifecycle.v ===== *)
(** * Lifecycle: the specification's state machine and its refinement

    The specification describes the run as [Idle -> Running -> Stopped]
    with [Stopped] terminal and one final summary on entering it.  This
    file states that machine abstractly ([LState], [lc_step]), maps every
    world of the System component onto it ([abs]: the phase read off the
    start time and [self.running], and the number of summaries begun, that
    is of "Attack completed!" lines), and proves that every step of the
    program (a thread step, a main step, an interrupt, time passing) is
    either invisible to the abstract machine or one of its transitions.
    The machine the program refines lets [Stopped] report twice: an
    interrupt that reaches the duration path's [stop] is caught and the
    except clause runs [stop] again (shown by a concrete run in Scenarios).
    Its own properties (nothing leaves [Stopped]; at most two reports)
    then carry over to the program. *)

From stdpp Require Import base list relations.
From Stdlib Require Import ZArith Lia.
From S2P Require Import Prelude Config Stats Socket Worker System Invariants Scenarios.

Open Scope Z_scope.
Import Config Stats Socket Worker System Invariants Scenarios.

Module Lifecycle.

(** ** The abstract machine *)

Inductive Phase := Idle | Running | Stopped.

#[export] Instance Phase_eq_dec : EqDecision Phase.
Proof. solve_decision. Defined.

Record LState := mkL { l_phase : Phase; l_printed : nat }.

(** The transitions of the specification: start, stop (clearing the
    running signal), and the final summary, which the program can print
    a second time (its [stop] can be run again by the except clause
    when an interrupt reaches the first one); the specification allows
    it once. *)
Inductive lc_step : LState -> LState -> Prop :=
| lc_start : lc_step (mkL Idle 0) (mkL Running 0)
| lc_stop n : lc_step (mkL Running n) (mkL Stopped n)
| lc_report n : (n < 2)%nat -> lc_step (mkL Stopped n) (mkL Stopped (S n)).

(** The states the abstract machine reaches from [Idle]. *)
Definition lc_reachable (s : LState) : Prop :=
  s = mkL Idle 0 \/ s = mkL Running 0 \/ exists n, s = mkL Stopped n /\ (n <= 2)%nat.

(** ** The abstraction of a world *)

(** [Idle] until [start] records the start time, then [Running] while
    [self.running] is set, [Stopped] once it is cleared. *)
Definition phase (w : World) : Phase :=
  match start_time (sh_stats (w_sh w)) with
  | None => Idle
  | Some _ => if sh_running (w_sh w) then Running else Stopped
  end.

Definition abs (w : World) : LState := mkL (phase w) (completions (sh_out (w_sh w))).

(** ** Lemmas *)

Lemma lc_reachable_rtc s : rtc lc_step (mkL Idle 0) s -> lc_reachable s.
Proof.
  intros Hr. eapply (rtc_preserved _ lc_reachable); [|exact Hr|by left].
  intros x y Hxy Hx. unfold lc_reachable in *.
  destruct Hxy as [|n|n Hn]; [by auto| |]; right; right; [exists n|exists (S n)]; split; try done;
    destruct Hx as [Hx|[Hx|(m & Hx & Hm)]]; simplify_eq; lia.
Qed.

Lemma lc_step_stopped s s' : lc_step s s' -> l_phase s = Stopped -> l_phase s' = Stopped.
Proof. by destruct 1. Qed.

(** The abstraction of a world is decided by three of its components. *)
Lemma abs_ext w w' :
  start_time (sh_stats (w_sh w')) = start_time (sh_stats (w_sh w)) ->
  sh_running (w_sh w') = sh_running (w_sh w) ->
  completions (sh_out (w_sh w')) = completions (sh_out (w_sh w)) -> abs w' = abs w.
Proof. intros Hs Hr Ho. unfold abs, phase. by rewrite Hs, Hr, Ho. Qed.

(** Case analysis on the matches of a hypothesis only. *)
Ltac case_match_in H :=
  match type of H with context [match ?x with _ => _ end] => destruct x eqn:? end.

Section Refinement.
Context (cfg : AttackConfig).

Lemma thread_abs w k t sh' t' e :
  thread_step cfg e (w_sh w) t = Some (sh', t') -> abs (upd_thread k sh' t' w) = abs w.
Proof.
  intros Hs. destruct (thread_step_clock cfg e _ _ _ _ Hs) as (_ & Hr & Hst & _).
  destruct (thread_step_out cfg e _ _ _ _ Hs) as (l & Hout & Hq).
  apply abs_ext; simpl; [done|done|]. by rewrite Hout, completions_quiet.
Qed.

Lemma interrupt_abs w w' : interrupt w = Some w' -> abs w' = abs w.
Proof.
  intros Hi. destruct (interrupt_frame w w' Hi) as (_ & Hst & _ & _ & _ & Hr).
  apply abs_ext; [by rewrite Hst|done|].
  destruct (interrupt_spec w w' Hi) as (_ & _ & _ & _ & [(_ & _ & ->)|(_ & _ & ->)]); [|done].
  simpl. by rewrite completions_app, Nat.add_0_r.
Qed.

(** The main thread's steps, under the invariants of reachable worlds. *)
Lemma main_abs w w' :
  main_inv cfg w -> summary_inv w -> main_step cfg w = Some w' ->
  abs w' = abs w \/ lc_step (abs w) (abs w').
Proof.
  intros (Hrun & Hns & Hs0 & _) (Hb & _) Hm.
  revert Hm. unfold main_step. destruct (w_main_wake w <=? sh_clock (w_sh w)); simpl; [|done].
  unfold abs, phase.
  destruct (w_main w) as [| | |[|x xs]| | | | |h|h|h el l|h| | |m] eqn:Em; intros Hm; simplify_eq/=;
    try (destruct l; simpl in Hm; try destruct (Qle_bool el 0)); simplify_eq/=;
    repeat (case_match_in Hm; simplify_eq/=);
    unfold completions in *; rewrite ?List.filter_app, ?length_app; simpl in *; rewrite ?Nat.add_0_r;
    try (left; repeat case_match; simpl; rewrite ?Nat.add_0_r; congruence).
  all: match goal with
       | Em : w_main _ = M_SetRunning |- _ =>
           (* the flag is set before the start time: still Idle *)
           left; by destruct (Hns eq_refl) as [-> _]
       | Em : w_main _ = M_SetStart |- _ =>
           (* the start time: Idle to Running, before any summary *)
           right; destruct (Hns eq_refl) as [-> _]; simpl in Hrun; rewrite Hrun;
           replace (length _) with 0%nat by lia; constructor
       | Em : w_main _ = M_Stop _ |- _ =>
           (* stop clears the flag: Running to Stopped, or nothing if it was clear *)
           destruct (Hs0 eq_refl) as (t0 & Ht0 & _); rewrite Ht0;
           destruct (sh_running (w_sh w)); [right; constructor|by left]
       | Em : w_main _ = M_Print _ _ L_completed |- _ =>
           (* the first line of a summary: one more report, when stopped *)
           destruct (Hs0 eq_refl) as (t0 & Ht0 & _); simpl in Hrun; rewrite Ht0, Hrun;
           right; rewrite Nat.add_1_r; constructor; destruct h; simpl in Hb; lia
       end.
Qed.

End Refinement.

(** ** Properties *)

(** Every step of a reachable world is a stuttering step or a
    transition of the abstract machine. *)
Lemma step_abs (cfg : AttackConfig) (w w' : World) :
  reachable cfg w -> step cfg w w' -> abs w' = abs w \/ lc_step (abs w) (abs w').
Proof.
  intros Hr Hstep. pose proof (reachable_main_inv cfg w Hr) as Hmi.
  pose proof (reachable_summary_inv cfg w Hr) as Hsi.
  destruct Hstep as [w0 k e t sh' t' Ht Hs|w0 w1 Hm|w0 w1 Hi|w0 dt Hdt].
  - left. by apply (thread_abs cfg w0 k t sh' t' e).
  - by apply (main_abs cfg).
  - left. by apply interrupt_abs.
  - left. by apply abs_ext.
Qed.

(** C9: refinement of the specification's lifecycle: in every reachable
    world, each step of the program (any thread, the main thread, an
    interrupt, the clock) either leaves the abstract state (phase and
    number of summaries begun) unchanged or performs one transition of
    the machine [Idle -> Running -> Stopped], whose [Stopped] state
    reports a summary at most twice (the specification's machine reports
    once; the second report is the except clause's [stop], run in
    Scenarios). *)
Theorem lifecycle_refinement (cfg : AttackConfig) (w w' : World) :
  reachable cfg w -> step cfg w w' -> abs w' = abs w \/ lc_step (abs w) (abs w').
Proof. apply step_abs. Qed.

(** The abstract trace of a run. *)
Lemma reachable_abs (cfg : AttackConfig) (w : World) :
  reachable cfg w -> rtc lc_step (mkL Idle 0) (abs w).
Proof.
  intros [now Hr].
  assert (Hgen : forall w1, rtc (step cfg) (init_world now) w1 -> rtc lc_step (mkL Idle 0) (abs w1)).
  { apply rtc_ind_r; [apply rtc_refl|].
    intros w1 w2 Hr1 Hs IH.
    destruct (step_abs cfg w1 w2 (ex_intro _ now Hr1) Hs) as [->|Hl]; [done|].
    by eapply rtc_r. }
  by apply Hgen.
Qed.

Lemma step_rtc_reachable (cfg : AttackConfig) (w w' : World) :
  reachable cfg w -> rtc (step cfg) w w' -> reachable cfg w'.
Proof. intros [now Hr] Hw. exists now. by etrans. Qed.

(** C16: [Stopped] is terminal: once [self.running] has been cleared
    after the start, no interleaving sets it again, and the abstract
    state can only go on to report, at most two summaries in all. *)
Theorem stopped_is_terminal (cfg : AttackConfig) (w w' : World) :
  reachable cfg w -> phase w = Stopped -> rtc (step cfg) w w' ->
  phase w' = Stopped /\ sh_running (w_sh w') = false /\
  (completions (sh_out (w_sh w')) <= 2)%nat.
Proof.
  intros Hr Hp Hrtc.
  assert (Hph : phase w' = Stopped).
  { induction Hrtc as [w|w1 w2 w3 H12 H23 IH]; [done|].
    apply IH; [by eapply (step_rtc_reachable cfg w1 w2 Hr), rtc_once|].
    destruct (step_abs cfg w1 w2 Hr H12) as [Habs|Hl].
    - change (l_phase (abs w2) = Stopped). by rewrite Habs.
    - by apply (lc_step_stopped (abs w1) (abs w2) Hl). }
  split; [done|].
  pose proof (lc_reachable_rtc _ (reachable_abs cfg w' (step_rtc_reachable cfg w w' Hr Hrtc))) as Hl.
  unfold phase in Hph. split.
  - destruct (start_time _); [|done]. by destruct (sh_running (w_sh w')).
  - unfold abs in Hl. destruct Hl as [Hl|[Hl|(n & Hl & Hn)]]; injection Hl as _ ->; lia.
Qed.

(** ** Witnesses, on the scenario of the specification *)

(** The world just before [self.stats['start_time'] = time.time()]. *)
Definition before_start : World :=
  match run demo_cfg [C_main; C_main] (init_world 0) with Some w => w | None => init_world 0 end.

Definition after_start : World :=
  match main_step demo_cfg before_start with Some w => w | None => before_start end.

Lemma lifecycle_refinement_witness :
  reachable demo_cfg before_start /\ step demo_cfg before_start after_start /\
  lc_step (abs before_start) (abs after_start).
Proof.
  assert (Hr : reachable demo_cfg before_start)
    by (apply (reach_by_run demo_cfg [C_main; C_main] 0); vm_compute; reflexivity).
  assert (Hs : step demo_cfg before_start after_start) by (apply step_main; vm_compute; reflexivity).
  split; [exact Hr|]. split; [exact Hs|].
  destruct (lifecycle_refinement demo_cfg before_start after_start Hr Hs) as [Heq|Hl]; [|exact Hl].
  vm_compute in Heq. discriminate.
Defined.

Lemma stopped_is_terminal_witness :
  reachable demo_cfg no_join_world /\ phase no_join_world = Stopped /\
  rtc (step demo_cfg) no_join_world no_join_after /\ sh_running (w_sh no_join_after) = false.
Proof.
  assert (Hr : reachable demo_cfg no_join_world)
    by (apply (reach_by_run demo_cfg no_join_run 0); vm_compute; reflexivity).
  assert (Hp : phase no_join_world = Stopped) by (vm_compute; reflexivity).
  assert (Hrtc : rtc (step demo_cfg) no_join_world no_join_after)
    by (apply (run_rtc demo_cfg [C_thread 0 env_ok; C_thread 0 env_ok]); vm_compute; reflexivity).
  split; [exact Hr|]. split; [exact Hp|]. split; [exact Hrtc|].
  exact (proj1 (proj2 (stopped_is_terminal demo_cfg no_join_world no_join_after Hr Hp Hrtc))).
Defined.

End Lifecycle.
