(* ===== verification/Shutdown.v ===== *)
(** * Shutdown: every thread returns within a bounded time once the flag is cleared

    The specification asks every worker loop to exit within one iteration
    and its backoff once the running signal is false, and bounds the
    latency by the longest blocking socket operation.  Here a scheduler
    that runs one thread alone ([drain]: advance the clock to the
    thread's wake-up time when it sleeps or is blocked in a call, then
    let it take one step, with whatever outcome and delay the network
    chooses) is run for at most seven rounds, the fuel [exit_measure] says
    is enough.  The theorem shows that the fuel suffices: the thread has
    returned, every round was a step of the process, and the clock
    advanced by at most the time the thread can still spend in blocking
    calls and sleeps: 10.1 s for a TCP sender (a [connect] and a
    [sendall] of at most 5 s each, their timeout, then the 100 ms
    backoff), 1 s for the reporter, and for a UDP sender the rest of its
    current call plus one [sendto] of at most [D] ms (its socket has no
    timeout, so only the network bounds it) and the backoff. *)

From stdpp Require Import base list relations.
From Stdlib Require Import ZArith Lia.
From S2P Require Import Prelude Config Stats Socket Worker System Invariants Scenarios.

Open Scope Z_scope.
Import Config Stats Socket Worker System Invariants Scenarios.

Module Shutdown.

Section Drain.
Context (cfg : AttackConfig) (D : Z).

(** One round for thread [i]: wait for its wake-up time if it sleeps,
    then one step with the environment's answer [e]. *)
Definition drain_choices (i : nat) (e : Env) (w : World) : list Choice :=
  match w_pool w !! i with
  | Some t => (if th_wake t <=? sh_clock (w_sh w) then [] else [C_tick (th_wake t - sh_clock (w_sh w))])
              ++ [C_thread i e]
  | None => []
  end.

(** At most [fuel] rounds, stopping when the thread has returned. *)
Fixpoint drain (fuel : nat) (i : nat) (es : nat -> Env) (w : World) : World :=
  match fuel with
  | O => w
  | S f =>
      match w_pool w !! i with
      | Some t =>
          if finished (th_body t) then w
          else match run cfg (drain_choices i (es f) w) w with
               | Some w' => drain f i es w'
               | None => w
               end
      | None => w
      end
  end.

(** The time a thread still has to wait plus the waits and blocking
    calls still possible on its way out. *)
Definition exit_time (w : World) (t : Thread) : Z :=
  Z.max 0 (th_wake t - sh_clock (w_sh w)) + exit_sleep D (th_body t).

(** One round of a thread that has not returned, once the flag is false:
    it runs, brings the thread closer to its return, and does not add
    to the time left. *)
Lemma drain_round w i t e :
  reachable cfg w -> sh_running (w_sh w) = false -> w_pool w !! i = Some t ->
  finished (th_body t) = false -> 0 <= D -> env_delay e <= D ->
  exists w' t', run cfg (drain_choices i e w) w = Some w' /\ w_pool w' !! i = Some t' /\
    (exit_measure t' < exit_measure t)%nat /\ sh_running (w_sh w') = false /\
    sh_clock (w_sh w') + exit_time w' t' <= sh_clock (w_sh w) + exit_time w t.
Proof.
  intros Hr Hrun Hi Hf HD He. unfold drain_choices. rewrite Hi.
  destruct (reachable_wake_inv cfg w Hr) as (Hsock & Hto & _).
  (* the clock after the wait *)
  set (w1 := if th_wake t <=? sh_clock (w_sh w) then w
             else with_sh (advance (th_wake t - sh_clock (w_sh w)) (w_sh w)) w).
  assert (Hw1 : run cfg (if th_wake t <=? sh_clock (w_sh w) then []
                         else [C_tick (th_wake t - sh_clock (w_sh w))]) w = Some w1).
  { unfold w1. destruct (Z.leb_spec (th_wake t) (sh_clock (w_sh w))); [done|].
    simpl. destruct (Z.ltb_spec 0 (th_wake t - sh_clock (w_sh w))); [done|lia]. }
  assert (Hc1 : sh_clock (w_sh w1) = Z.max (sh_clock (w_sh w)) (th_wake t)).
  { unfold w1. destruct (Z.leb_spec (th_wake t) (sh_clock (w_sh w))); simpl; lia. }
  assert (Hp1 : w_pool w1 = w_pool w) by (unfold w1; by case_match).
  assert (Hr1 : sh_running (w_sh w1) = false) by (unfold w1; by case_match).
  assert (Hs1 : sh_socks (w_sh w1) = sh_socks (w_sh w)) by (unfold w1; by case_match).
  destruct (thread_step_enabled cfg e (w_sh w1) t Hf ltac:(lia)) as [[sh' t'] Hs].
  exists (upd_thread i sh' t' w1), t'.
  rewrite (run_app cfg _ _ _ _ Hw1). simpl. rewrite Hp1, Hi, Hs.
  split; [done|]. split; [apply list_lookup_insert_eq; by eapply lookup_lt_Some|].
  split; [by apply (exit_measure_step cfg e (w_sh w1) t sh' t')|].
  destruct (thread_step_clock cfg e _ _ _ _ Hs) as (Hc & Hr' & _).
  pose proof (thread_step_wake cfg D e _ _ _ _ Hs HD He ltac:(by rewrite Hs1)
                ltac:(rewrite Hs1; by eapply sock_inv_typed) Hr1) as Hpot.
  unfold exit_time. simpl. rewrite Hc, Hr'. split; [done|].
  rewrite Hc1 in *. lia.
Qed.

Lemma drain_spec n w i t es :
  reachable cfg w -> sh_running (w_sh w) = false -> w_pool w !! i = Some t ->
  (exit_measure t <= n)%nat -> 0 <= D -> (forall k, env_delay (es k) <= D) ->
  rtc (step cfg) w (drain n i es w) /\
  (exists t', w_pool (drain n i es w) !! i = Some t' /\ finished (th_body t') = true) /\
  sh_clock (w_sh (drain n i es w)) <= sh_clock (w_sh w) + exit_time w t.
Proof.
  intros Hr Hrun Hi Hn HD Hes. revert w t Hr Hrun Hi Hn.
  induction n as [|n IH]; intros w t Hr Hrun Hi Hn; simpl.
  - assert (Hm : exit_measure t = 0%nat) by lia.
    split; [done|]. split; [exists t; split; [done|by apply exit_measure_zero]|].
    unfold exit_time. pose proof (exit_sleep_bound D (th_body t) HD). lia.
  - rewrite Hi. destruct (finished (th_body t)) eqn:Hf.
    + split; [done|]. split; [by exists t|].
      unfold exit_time. pose proof (exit_sleep_bound D (th_body t) HD). lia.
    + destruct (drain_round w i t (es n) Hr Hrun Hi Hf HD (Hes n)) as (w' & t' & Hw' & Hi' & Hlt & Hrun' & Hpot).
      rewrite Hw'.
      assert (Hreach : rtc (step cfg) w w') by (by eapply run_rtc).
      assert (Hr' : reachable cfg w') by (destruct Hr as [now Hr0]; exists now; by etrans).
      destruct (IH w' t' Hr' Hrun' Hi' ltac:(lia)) as (Hrtc & Hfin & Hclk).
      split; [by etrans|]. split; [done|]. lia.
Qed.

End Drain.

(** C15: shutdown latency.  Once [self.running] is false, any thread of
    a reachable state, run alone by [drain] with any answers of the
    network, has returned within seven rounds, and the clock has
    advanced by at most 10.1 s for a TCP sender (two blocking calls cut
    by their 5 s timeout, and the backoff) and 1 s for the reporter; a
    UDP sender, whose socket has no timeout, needs the rest of its
    current call plus one [sendto] of at most [D] ms, where [D] bounds the
    network's delays, and the backoff. *)
Theorem threads_exit_promptly (cfg : AttackConfig) (D : Z) (w : World) (i : nat) (t : Thread)
    (es : nat -> Env) :
  reachable cfg w -> sh_running (w_sh w) = false -> w_pool w !! i = Some t ->
  0 <= D -> (forall k, env_delay (es k) <= D) ->
  let w' := drain cfg 7 i es w in
  rtc (step cfg) w w' /\
  (exists t', w_pool w' !! i = Some t' /\ finished (th_body t') = true) /\
  sh_clock (w_sh w') <= sh_clock (w_sh w) +
    match th_body t with
    | BTcp _ _ => 10100
    | BUdp _ _ => Z.max 0 (th_wake t - sh_clock (w_sh w)) + D + 100
    | BStats _ => 1000
    end.
Proof.
  intros Hr Hrun Hi HD Hes. cbv zeta.
  destruct (drain_spec cfg D 7 w i t es Hr Hrun Hi (exit_measure_le t) HD Hes) as (Hrtc & Hfin & Hclk).
  split; [done|]. split; [done|].
  destruct (reachable_wake_inv cfg w Hr) as (_ & _ & Hw). unfold exit_time in Hclk.
  destruct (is_udp (th_body t)) eqn:Hu.
  - destruct (th_body t) as [port pc|port pc|pc] eqn:Hb; try discriminate.
    destruct pc; simpl in Hclk |- *; lia.
  - specialize (Hw i t Hi Hu). rewrite (exit_sleep_udp_free D _ Hu) in Hclk.
    destruct (th_body t) eqn:Hb; simpl in Hw, Hclk |- *; [lia|discriminate|lia].
Qed.

(** Witness: in the scenario of the specification, after the summary
    thread 0 is at its 10 ms sleep; it returns. *)
Lemma threads_exit_promptly_witness :
  reachable demo_cfg no_join_after /\ sh_running (w_sh no_join_after) = false /\
  exists t, w_pool no_join_after !! 0%nat = Some t /\
    exists t', w_pool (drain demo_cfg 7 0 (fun _ => env_fail) no_join_after) !! 0%nat = Some t' /\
      finished (th_body t') = true.
Proof.
  assert (Hr : reachable demo_cfg no_join_after).
  { apply (reach_by_run demo_cfg (no_join_run ++ [C_thread 0 env_ok; C_thread 0 env_ok]) 0).
    vm_compute. reflexivity. }
  assert (Hrun : sh_running (w_sh no_join_after) = false) by (vm_compute; reflexivity).
  split; [exact Hr|]. split; [exact Hrun|].
  destruct (w_pool no_join_after !! 0%nat) as [t|] eqn:Hi; [|vm_compute in Hi; discriminate].
  exists t. split; [reflexivity|].
  exact (proj1 (proj2 (threads_exit_promptly demo_cfg 0 no_join_after 0 t (fun _ => env_fail) Hr Hrun Hi
                         (Z.le_refl 0) (fun _ => Z.le_refl 0)))).
Defined.

End Shutdown.
